(** * CPQ service: configure, price, quote

    A shallow embedding of the core of the CPQ service (product catalog,
    configuration validator, pricing-rule engine, pricer and quoter) and
    the proofs of its specification.

    Modelling conventions.
    - A TypeScript [number] is an exact rational ([Q]).  The arithmetic
      operators are the rational ones, [x !== 0] is [negb (Qeq_bool x 0)],
      and [Math.round], [Math.max] are defined below.  NaN, the infinities
      and the rounding error of binary64 are outside this model.
    - The rule engine, whose record test [discountAmount !== 0] depends on
      the rounding, NaN and the infinities, is embedded a second time on
      binary64 numbers (module [Binary64], on Rocq's primitive floats).
    - A [string] is a [String.string]; template literals are written with
      string concatenation.
    - An optional field or argument ([x?: T]) is an [option].
    - [throw new Error(msg)] is the [Error msg] case of [Result].
    - A loop that pushes onto a mutable array is a [fold_left] that threads
      the array; [push] appends at the end.
    - [Array.prototype.sort] is stable (ECMAScript 2019); it is modelled by
      a stable insertion sort driven by the comparator of the source.
    - [randomUUID()] and [new Date().toISOString()] are inputs of
      [generateQuote]. *)

From Stdlib Require Import List String Ascii Bool ZArith QArith Qround.
From Stdlib Require Import Lia Lqa Permutation Sorted Floats.
Import ListNotations.

(** A decimal literal denotes the binary64 number nearest to it, as in
    JavaScript. *)
Set Warnings "-inexact-float".

Open Scope string_scope.
Open Scope Q_scope.
Open Scope list_scope.

(* ================================================================= *)
(** ** JavaScript values and built-ins *)

Definition number := Q.

(** Truthiness of a number: every number but zero. *)
Definition truthy (x : number) : bool := negb (Qeq_bool x 0).

(** [a >= b], [a < b] and [a !== b] on numbers. *)
Definition geb (a b : number) : bool := Qle_bool b a.
Definition ltb (a b : number) : bool := negb (Qle_bool b a).
Definition neqb (a b : number) : bool := negb (Qeq_bool a b).

(** [Math.round]: the nearest integer, a tie going towards plus infinity. *)
Definition Math_round (x : number) : number := inject_Z (Qfloor (x + (1 # 2))).

(** [Math.max(a, b)]. *)
Definition Math_max (a b : number) : number := if Qle_bool a b then b else a.

(** The values a [Record<string, unknown>] can hold; a nested array or
    object is kept as its JSON text. *)
Inductive JsValue : Type :=
| JUndefined
| JNull
| JBool (b : bool)
| JNum (n : number)
| JStr (s : string)
| JRef (json : string).

(** A plain object: its own properties in insertion order, keys distinct. *)
Definition JsObject := list (string * JsValue).

Definition obj_get (o : JsObject) (k : string) : option JsValue :=
  match find (fun kv => String.eqb (fst kv) k) o with
  | Some kv => Some (snd kv)
  | None => None
  end.

(** [o[k] = v]: overwrite in place, or add the key at the end. *)
Fixpoint obj_set (o : JsObject) (k : string) (v : JsValue) : JsObject :=
  match o with
  | [] => [(k, v)]
  | (k', v') :: o' =>
      if String.eqb k' k then (k, v) :: o' else (k', v') :: obj_set o' k v
  end.

(** [{ ...o, ...src }]. *)
Definition obj_spread (o src : JsObject) : JsObject :=
  fold_left (fun acc kv => obj_set acc (fst kv) (snd kv)) src o.

(** [array.push(x)]. *)
Definition push {A : Type} (l : list A) (x : A) : list A := l ++ [x].

(** [array.includes(x)] on strings; also [new Set(array).has(x)]. *)
Definition includes (l : list string) (x : string) : bool :=
  existsb (String.eqb x) l.

(** [s.startsWith(p)]. *)
Definition startsWith (s p : string) : bool := String.prefix p s.

(** [strings.join(sep)]. *)
Definition join (sep : string) (l : list string) : string := String.concat sep l.

(** A computation that may throw. *)
Inductive Result (A : Type) : Type :=
| Ok (a : A)
| Error (msg : string).
Arguments Ok {A} a.
Arguments Error {A} msg.

Definition bind {A B : Type} (r : Result A) (k : A -> Result B) : Result B :=
  match r with
  | Ok a => k a
  | Error m => Error m
  end.

Notation "x <- r ;; k" := (bind r (fun x => k))
  (at level 61, r at next level, right associativity).

(** [array.map(f)] where [f] may throw: the first exception escapes. *)
Fixpoint mapM {A B : Type} (f : A -> Result B) (l : list A) : Result (list B) :=
  match l with
  | [] => Ok []
  | x :: l' =>
      y <- f x ;;
      ys <- mapM f l' ;;
      Ok (y :: ys)
  end.

(** [array.map((x, index) => f(x, index))] where [f] may throw. *)
Fixpoint mapiM {A B : Type} (f : A -> nat -> Result B) (i : nat) (l : list A)
  : Result (list B) :=
  match l with
  | [] => Ok []
  | x :: l' =>
      y <- f x i ;;
      ys <- mapiM f (S i) l' ;;
      Ok (y :: ys)
  end.

(* ================================================================= *)
(** ** types/index.ts *)

Record ProductOption : Type := {
  option_id : string;
  option_name : string;
  option_description : string;
  option_price : number;
  option_isRequired : bool;
  option_category : option string;
  option_dependencies : option (list string);
  option_conflicts : option (list string)
}.

Record Product : Type := {
  product_id : string;
  product_name : string;
  product_description : string;
  product_basePrice : number;
  product_category : string;
  product_options : list ProductOption;
  product_metadata : option JsObject
}.

Record ConfigurationItem : Type := {
  productId : string;
  selectedOptions : list string;
  quantity : number;
  customizations : option (list (string * string))
}.

Record PricingContext : Type := {
  product : Product;
  configuration : ConfigurationItem;
  allConfigurations : list ConfigurationItem;
  customerTier : option string;
  region : option string;
  customFields : option JsObject
}.

Inductive PricingRuleType : Type :=
| percentage
| fixed
| tiered
| bundle.

Record PricingRule : Type := {
  rule_id : string;
  rule_name : string;
  rule_description : string;
  rule_type : PricingRuleType;
  rule_condition : PricingContext -> bool;
  rule_apply : number -> PricingContext -> number;
  rule_priority : number
}.

Record FieldError : Type := {
  field : string;
  message : string
}.

Record ValidationResult : Type := {
  isValid : bool;
  errors : list FieldError;
  warnings : option (list FieldError)
}.

Record AppliedRule : Type := {
  ruleId : string;
  ruleName : string;
  discountAmount : number
}.

Record OptionDetail : Type := {
  detail_id : string;
  detail_name : string;
  detail_price : number
}.

Record Discount : Type := {
  discount_ruleId : string;
  discount_ruleName : string;
  discount_amount : number
}.

Record QuoteLineItem : Type := {
  line_productId : string;
  line_productName : string;
  line_quantity : number;
  line_basePrice : number;
  line_selectedOptions : list OptionDetail;
  line_subtotal : number;
  line_discounts : list Discount;
  line_total : number
}.

Record Quote : Type := {
  quote_id : string;
  quote_createdAt : string;
  quote_lineItems : list QuoteLineItem;
  quote_subtotal : number;
  quote_totalDiscounts : number;
  quote_tax : option number;
  quote_total : number;
  quote_metadata : JsObject
}.

(* ================================================================= *)
(** ** config/products.ts *)

Definition mkOption (id name description : string) (price : number)
  (category : string) (dependencies conflicts : option (list string))
  : ProductOption :=
  {| option_id := id; option_name := name; option_description := description;
     option_price := price; option_isRequired := false;
     option_category := Some category;
     option_dependencies := dependencies; option_conflicts := conflicts |}.

Definition ram_8gb : ProductOption :=
  mkOption "ram-8gb" "8GB RAM Upgrade" "Upgrade from 4GB to 8GB RAM"
    20 "memory" None None.

Definition ram_16gb : ProductOption :=
  mkOption "ram-16gb" "16GB RAM Upgrade" "Upgrade from 4GB to 16GB RAM"
    50 "memory" None (Some ["ram-8gb"]).

Definition cloud_server_basic : Product :=
  {| product_id := "cloud-server-basic";
     product_name := "Cloud Server - Basic";
     product_description := "Entry-level cloud server for small applications";
     product_basePrice := 50;
     product_category := "compute";
     product_options :=
       [ ram_8gb;
         ram_16gb;
         mkOption "storage-ssd-100gb" "100GB SSD Storage" "Add 100GB SSD storage"
           15 "storage" None None;
         mkOption "storage-ssd-500gb" "500GB SSD Storage" "Add 500GB SSD storage"
           60 "storage" None (Some ["storage-ssd-100gb"]);
         mkOption "backup-daily" "Daily Backups"
           "Automated daily backups with 30-day retention"
           25 "services" None None;
         mkOption "monitoring-basic" "Basic Monitoring"
           "CPU, Memory, and Disk monitoring with alerts"
           10 "services" None None ];
     product_metadata :=
       Some [ ("cpu", JStr "2 vCPU"); ("baseRam", JStr "4GB");
              ("baseStorage", JStr "50GB SSD") ] |}.

Definition cloud_server_pro : Product :=
  {| product_id := "cloud-server-pro";
     product_name := "Cloud Server - Professional";
     product_description :=
       "High-performance cloud server for production workloads";
     product_basePrice := 150;
     product_category := "compute";
     product_options :=
       [ mkOption "ram-32gb" "32GB RAM Upgrade" "Upgrade from 16GB to 32GB RAM"
           80 "memory" None None;
         mkOption "ram-64gb" "64GB RAM Upgrade" "Upgrade from 16GB to 64GB RAM"
           180 "memory" None (Some ["ram-32gb"]);
         mkOption "storage-nvme-1tb" "1TB NVMe Storage"
           "Add 1TB ultra-fast NVMe storage"
           120 "storage" None None;
         mkOption "load-balancer" "Load Balancer"
           "Managed load balancer for high availability"
           50 "services" None None;
         mkOption "cdn" "Global CDN" "Content delivery network with edge caching"
           75 "services" None None;
         mkOption "support-premium" "Premium Support"
           "24/7 premium support with 1-hour response SLA"
           200 "support" None None ];
     product_metadata :=
       Some [ ("cpu", JStr "8 vCPU"); ("baseRam", JStr "16GB");
              ("baseStorage", JStr "200GB NVMe") ] |}.

Definition database_managed_mysql : Product :=
  {| product_id := "database-managed-mysql";
     product_name := "Managed MySQL Database";
     product_description :=
       "Fully managed MySQL database with automatic backups";
     product_basePrice := 80;
     product_category := "database";
     product_options :=
       [ mkOption "db-storage-50gb" "50GB Database Storage"
           "Add 50GB of database storage"
           20 "storage" None None;
         mkOption "db-storage-200gb" "200GB Database Storage"
           "Add 200GB of database storage"
           70 "storage" None (Some ["db-storage-50gb"]);
         mkOption "read-replicas-2" "2 Read Replicas"
           "Add 2 read replicas for scaling reads"
           100 "performance" None None;
         mkOption "point-in-time-recovery" "Point-in-Time Recovery"
           "Restore database to any point in the last 35 days"
           40 "services" None None ];
     product_metadata :=
       Some [ ("engine", JStr "MySQL 8.0"); ("baseStorage", JStr "20GB");
              ("backupRetention", JStr "7 days") ] |}.

Definition professional_services : Product :=
  {| product_id := "professional-services";
     product_name := "Professional Services Package";
     product_description := "Expert consulting and implementation services";
     product_basePrice := 5000;
     product_category := "services";
     product_options :=
       [ mkOption "architecture-review" "Architecture Review"
           "Comprehensive architecture review and recommendations"
           2000 "consulting" None None;
         mkOption "migration-support" "Migration Support"
           "Hands-on support for migrating workloads"
           3000 "implementation" None None;
         mkOption "training-basic" "Basic Training (8 hours)"
           "Team training on platform basics"
           1500 "training" None None;
         mkOption "training-advanced" "Advanced Training (16 hours)"
           "In-depth training on advanced features"
           3500 "training" (Some ["training-basic"]) None ];
     product_metadata :=
       Some [ ("duration", JStr "1 month");
              ("deliverables",
               JStr "Reports, documentation, and training materials") ] |}.

Definition products : list Product :=
  [ cloud_server_basic; cloud_server_pro; database_managed_mysql;
    professional_services ].

(** [product.options.find((opt) => opt.id === optionId)]. *)
Definition findOption (p : Product) (optionId : string) : option ProductOption :=
  find (fun opt => String.eqb (option_id opt) optionId) (product_options p).

Definition getProductById (pid : string) : option Product :=
  find (fun p => String.eqb (product_id p) pid) products.

(* ================================================================= *)
(** ** config/configuration-rules.ts *)

Definition selectedOptionsError (msg : string) : FieldError :=
  {| field := "selectedOptions"; message := msg |}.

(** The name printed by [${option?.name}]. *)
Definition nameOrUndefined (o : option ProductOption) : string :=
  match o with
  | Some opt => option_name opt
  | None => "undefined"
  end.

Definition requiredMessage (requiredOption : ProductOption) : string :=
  ("Required option '" ++ option_name requiredOption ++ "' is not selected")%string.

Definition invalidMessage (p : Product) (selectedOption : string) : string :=
  ("Invalid option '" ++ selectedOption ++ "' for product '"
     ++ product_name p ++ "'")%string.

Definition conflictMessage (p : Product) (opt : ProductOption)
  (conflictingOption : string) : string :=
  ("Options '" ++ option_name opt ++ "' and '"
     ++ nameOrUndefined (findOption p conflictingOption)
     ++ "' cannot be selected together")%string.

Definition dependencyMessage (p : Product) (opt : ProductOption)
  (dependency : string) : string :=
  ("Option '" ++ option_name opt ++ "' requires '"
     ++ nameOrUndefined (findOption p dependency)
     ++ "' to be selected")%string.

(** Check for required options. *)
Definition checkRequired (p : Product) (selected : list string)
  (errs : list FieldError) : list FieldError :=
  let requiredOptions := filter option_isRequired (product_options p) in
  fold_left
    (fun errs requiredOption =>
       if negb (includes selected (option_id requiredOption))
       then push errs (selectedOptionsError (requiredMessage requiredOption))
       else errs)
    requiredOptions errs.

(** Check for invalid option IDs. *)
Definition checkInvalid (p : Product) (selected : list string)
  (errs : list FieldError) : list FieldError :=
  let validOptionIds := map option_id (product_options p) in
  fold_left
    (fun errs selectedOption =>
       if negb (includes validOptionIds selectedOption)
       then push errs (selectedOptionsError (invalidMessage p selectedOption))
       else errs)
    selected errs.

(** Check for conflicting options. *)
Definition checkConflicts (p : Product) (selected : list string)
  (errs : list FieldError) : list FieldError :=
  let selectedOptionsSet := selected in
  fold_left
    (fun errs selectedOption =>
       match findOption p selectedOption with
       | Some opt =>
           match option_conflicts opt with
           | Some conflicts =>
               fold_left
                 (fun errs conflictingOption =>
                    if includes selectedOptionsSet conflictingOption
                    then push errs
                           (selectedOptionsError
                              (conflictMessage p opt conflictingOption))
                    else errs)
                 conflicts errs
           | None => errs
           end
       | None => errs
       end)
    selected errs.

(** Check for missing dependencies. *)
Definition checkDependencies (p : Product) (selected : list string)
  (errs : list FieldError) : list FieldError :=
  let selectedOptionsSet := selected in
  fold_left
    (fun errs selectedOption =>
       match findOption p selectedOption with
       | Some opt =>
           match option_dependencies opt with
           | Some dependencies =>
               fold_left
                 (fun errs dependency =>
                    if negb (includes selectedOptionsSet dependency)
                    then push errs
                           (selectedOptionsError
                              (dependencyMessage p opt dependency))
                    else errs)
                 dependencies errs
           | None => errs
           end
       | None => errs
       end)
    selected errs.

(** Add warnings for recommended options. *)
Definition checkWarnings (p : Product) (selected : list string)
  (warns : list FieldError) : list FieldError :=
  if startsWith (product_id p) "cloud-server-"
     && negb (includes selected "backup-daily")
  then push warns
         (selectedOptionsError
            "Daily backups are recommended for production workloads")
  else warns.

(** The body of [validateConfiguration] once the product is found. *)
Definition validateProduct (p : Product) (selected : list string)
  : ValidationResult :=
  let errs := [] in
  let warns := [] in
  let errs := checkRequired p selected errs in
  let errs := checkInvalid p selected errs in
  let errs := checkConflicts p selected errs in
  let errs := checkDependencies p selected errs in
  let warns := checkWarnings p selected warns in
  {| isValid := Nat.eqb (List.length errs) 0;
     errors := errs;
     warnings := if Nat.ltb 0 (List.length warns) then Some warns else None |}.

Definition notFoundMessage (pid : string) : string :=
  ("Product '" ++ pid ++ "' not found")%string.

Definition validateConfiguration (pid : string) (selected : list string)
  : ValidationResult :=
  match getProductById pid with
  | None =>
      {| isValid := false;
         errors := [ {| field := "productId"; message := notFoundMessage pid |} ];
         warnings := None |}
  | Some p => validateProduct p selected
  end.

(* ================================================================= *)
(** ** config/pricing-rules.ts *)

(** [context.customerTier === s], [context.region === s]. *)
Definition strictEqStr (o : option string) (s : string) : bool :=
  match o with
  | Some v => String.eqb v s
  | None => false
  end.

(** [context.customFields?.earlyBird === true]. *)
Definition earlyBird (ctx : PricingContext) : bool :=
  match customFields ctx with
  | Some o =>
      match obj_get o "earlyBird" with
      | Some (JBool true) => true
      | _ => false
      end
  | None => false
  end.

Definition volume_discount_10_percent : PricingRule :=
  {| rule_id := "volume-discount-10-percent";
     rule_name := "Volume Discount - 10%";
     rule_description := "10% discount for quantities of 5 or more";
     rule_type := percentage;
     rule_priority := 10;
     rule_condition := fun context =>
       geb (quantity (configuration context)) 5
       && ltb (quantity (configuration context)) 10;
     rule_apply := fun price _context => price * 0.9 |}.

Definition volume_discount_20_percent : PricingRule :=
  {| rule_id := "volume-discount-20-percent";
     rule_name := "Volume Discount - 20%";
     rule_description := "20% discount for quantities of 10 or more";
     rule_type := percentage;
     rule_priority := 9;
     rule_condition := fun context =>
       geb (quantity (configuration context)) 10;
     rule_apply := fun price _context => price * 0.8 |}.

Definition enterprise_tier_discount : PricingRule :=
  {| rule_id := "enterprise-tier-discount";
     rule_name := "Enterprise Tier Discount";
     rule_description := "15% discount for enterprise customers";
     rule_type := percentage;
     rule_priority := 5;
     rule_condition := fun context =>
       strictEqStr (customerTier context) "enterprise";
     rule_apply := fun price _context => price * 0.85 |}.

Definition startup_tier_discount : PricingRule :=
  {| rule_id := "startup-tier-discount";
     rule_name := "Startup Tier Discount";
     rule_description := "25% discount for startup customers";
     rule_type := percentage;
     rule_priority := 5;
     rule_condition := fun context =>
       strictEqStr (customerTier context) "startup";
     rule_apply := fun price _context => price * 0.75 |}.

Definition bundle_discount_compute_database : PricingRule :=
  {| rule_id := "bundle-discount-compute-database";
     rule_name := "Compute + Database Bundle Discount";
     rule_description :=
       "10% discount when purchasing cloud server with managed database";
     rule_type := bundle;
     rule_priority := 15;
     rule_condition := fun context =>
       let hasCloudServer :=
         existsb (fun c => startsWith (productId c) "cloud-server-")
           (allConfigurations context) in
       let hasDatabase :=
         existsb (fun c => startsWith (productId c) "database-")
           (allConfigurations context) in
       hasCloudServer && hasDatabase;
     rule_apply := fun price _context => price * 0.9 |}.

Definition premium_support_bundle : PricingRule :=
  {| rule_id := "premium-support-bundle";
     rule_name := "Premium Support Bundle";
     rule_description :=
       "Free premium support with Cloud Server Pro and 2+ other products";
     rule_type := bundle;
     rule_priority := 8;
     rule_condition := fun context =>
       let hasCloudServerPro :=
         existsb (fun c => String.eqb (productId c) "cloud-server-pro")
           (allConfigurations context) in
       let hasPremiumSupport :=
         includes (selectedOptions (configuration context)) "support-premium" in
       let totalProducts := List.length (allConfigurations context) in
       hasCloudServerPro && hasPremiumSupport && Nat.leb 3 totalProducts;
     rule_apply := fun price context =>
       match findOption (product context) "support-premium" with
       | Some premiumSupportOption => price - option_price premiumSupportOption
       | None => price
       end |}.

Definition region_pricing_us_west : PricingRule :=
  {| rule_id := "region-pricing-us-west";
     rule_name := "US West Region Standard Pricing";
     rule_description := "Standard pricing for US West region";
     rule_type := fixed;
     rule_priority := 20;
     rule_condition := fun context => strictEqStr (region context) "us-west";
     rule_apply := fun price _context => price |}.

Definition region_pricing_eu : PricingRule :=
  {| rule_id := "region-pricing-eu";
     rule_name := "EU Region Premium";
     rule_description :=
       "8% premium for EU regions due to compliance requirements";
     rule_type := percentage;
     rule_priority := 20;
     rule_condition := fun context =>
       strictEqStr (region context) "eu-central"
       || strictEqStr (region context) "eu-west";
     rule_apply := fun price _context => price * 1.08 |}.

Definition region_pricing_apac : PricingRule :=
  {| rule_id := "region-pricing-apac";
     rule_name := "APAC Region Premium";
     rule_description := "5% premium for APAC regions";
     rule_type := percentage;
     rule_priority := 20;
     rule_condition := fun context =>
       strictEqStr (region context) "apac-east"
       || strictEqStr (region context) "apac-south";
     rule_apply := fun price _context => price * 1.05 |}.

Definition professional_services_early_bird : PricingRule :=
  {| rule_id := "professional-services-early-bird";
     rule_name := "Professional Services Early Bird";
     rule_description := "$1000 discount on professional services package";
     rule_type := fixed;
     rule_priority := 12;
     rule_condition := fun context =>
       String.eqb (product_id (product context)) "professional-services"
       && earlyBird context;
     rule_apply := fun price _context => price - 1000 |}.

Definition pricingRules : list PricingRule :=
  [ volume_discount_10_percent; volume_discount_20_percent;
    enterprise_tier_discount; startup_tier_discount;
    bundle_discount_compute_database; premium_support_bundle;
    region_pricing_us_west; region_pricing_eu; region_pricing_apac;
    professional_services_early_bird ].

(** [array.sort(compare)]: [x] goes before the first element it does not
    compare greater than, so that equal elements keep their order. *)
Fixpoint sortInsert {A : Type} (compare : A -> A -> number) (x : A) (l : list A)
  : list A :=
  match l with
  | [] => [x]
  | y :: l' =>
      if ltb 0 (compare x y) then y :: sortInsert compare x l'
      else x :: y :: l'
  end.

Definition sort {A : Type} (compare : A -> A -> number) (l : list A) : list A :=
  fold_right (sortInsert compare) [] l.

Definition byPriority (a b : PricingRule) : number :=
  rule_priority a - rule_priority b.

(** The applicable rules of an arbitrary rule table. *)
Definition applicableRulesOf (rules : list PricingRule) (context : PricingContext)
  : list PricingRule :=
  sort byPriority (filter (fun rule => rule_condition rule context) rules).

Definition getApplicableRules (context : PricingContext) : list PricingRule :=
  applicableRulesOf pricingRules context.

Record PricingOutcome : Type := {
  finalPrice : number;
  appliedRules : list AppliedRule
}.

(** One turn of the loop of [applyPricingRules]; the state is the pair of
    [currentPrice] and [appliedRules]. *)
Definition applyRule (context : PricingContext)
  (st : number * list AppliedRule) (rule : PricingRule)
  : number * list AppliedRule :=
  let previousPrice := fst st in
  let currentPrice := rule_apply rule (fst st) context in
  let discountAmount := previousPrice - currentPrice in
  if neqb discountAmount 0
  then (currentPrice,
        push (snd st)
          {| ruleId := rule_id rule; ruleName := rule_name rule;
             discountAmount := discountAmount |})
  else (currentPrice, snd st).

(** The engine run on a given list of applicable rules. *)
Definition applyRules (applicableRules : list PricingRule) (basePrice : number)
  (context : PricingContext) : PricingOutcome :=
  let st := fold_left (applyRule context) applicableRules (basePrice, []) in
  {| finalPrice := Math_max 0 (fst st); appliedRules := snd st |}.

Definition applyPricingRules (basePrice : number) (context : PricingContext)
  : PricingOutcome :=
  applyRules (getApplicableRules context) basePrice context.

(* ================================================================= *)
(** ** services/configurator.ts *)

Record ItemValidation : Type := {
  result_productId : string;
  validation : ValidationResult
}.

Record BatchValidation : Type := {
  batch_isValid : bool;
  results : list ItemValidation
}.

Definition validateConfigurations (configurations : list ConfigurationItem)
  : BatchValidation :=
  let results :=
    map (fun config =>
           {| result_productId := productId config;
              validation :=
                validateConfiguration (productId config) (selectedOptions config) |})
      configurations in
  let isValid := forallb (fun result => isValid (validation result)) results in
  {| batch_isValid := isValid; results := results |}.

(** The loop of [calculateBasePrice] that adds the selected options' prices. *)
Definition addOptionPrices (p : Product) (selected : list string) (total : number)
  : number :=
  fold_left
    (fun total optionId =>
       match findOption p optionId with
       | Some opt => total + option_price opt
       | None => total
       end)
    selected total.

Definition calculateBasePrice (configuration : ConfigurationItem) : Result number :=
  match getProductById (productId configuration) with
  | None => Error (notFoundMessage (productId configuration))
  | Some p =>
      let total := product_basePrice p in
      let total := addOptionPrices p (selectedOptions configuration) total in
      Ok (total * quantity configuration)
  end.

(* ================================================================= *)
(** ** services/pricer.ts *)

Record PriceResult : Type := {
  price_basePrice : number;
  price_finalPrice : number;
  price_appliedRules : list AppliedRule
}.

Definition calculatePrice (configuration : ConfigurationItem)
  (allConfigurations : list ConfigurationItem)
  (customerTier region : option string) (customFields : option JsObject)
  : Result PriceResult :=
  match getProductById (productId configuration) with
  | None => Error (notFoundMessage (productId configuration))
  | Some p =>
      basePrice <- calculateBasePrice configuration ;;
      let context :=
        {| product := p; configuration := configuration;
           allConfigurations := allConfigurations;
           customerTier := customerTier; region := region;
           customFields := customFields |} in
      let outcome := applyPricingRules basePrice context in
      Ok {| price_basePrice := basePrice;
            price_finalPrice := finalPrice outcome;
            price_appliedRules := appliedRules outcome |}
  end.

Record PricedItem : Type := {
  item_productId : string;
  item_basePrice : number;
  item_finalPrice : number;
  item_appliedRules : list AppliedRule
}.

Record TotalPrice : Type := {
  items : list PricedItem;
  totalBasePrice : number;
  totalFinalPrice : number;
  totalDiscount : number
}.

Definition calculateTotalPrice (configurations : list ConfigurationItem)
  (customerTier region : option string) (customFields : option JsObject)
  : Result TotalPrice :=
  items <-
    mapM (fun config =>
            pricing <-
              calculatePrice config configurations customerTier region
                customFields ;;
            Ok {| item_productId := productId config;
                  item_basePrice := price_basePrice pricing;
                  item_finalPrice := price_finalPrice pricing;
                  item_appliedRules := price_appliedRules pricing |})
      configurations ;;
  let totalBasePrice :=
    fold_left (fun sum item => sum + item_basePrice item) items 0 in
  let totalFinalPrice :=
    fold_left (fun sum item => sum + item_finalPrice item) items 0 in
  let totalDiscount := totalBasePrice - totalFinalPrice in
  Ok {| items := items; totalBasePrice := totalBasePrice;
        totalFinalPrice := totalFinalPrice; totalDiscount := totalDiscount |}.

(* ================================================================= *)
(** ** services/quoter.ts *)

(** [option?.name || optionId]. *)
Definition nameOr (o : option ProductOption) (optionId : string) : string :=
  match o with
  | Some opt => if String.eqb (option_name opt) "" then optionId else option_name opt
  | None => optionId
  end.

(** [option?.price || 0]. *)
Definition priceOr0 (o : option ProductOption) : number :=
  match o with
  | Some opt => if truthy (option_price opt) then option_price opt else 0
  | None => 0
  end.

Definition selectedOptionsDetails (p : Product) (selected : list string)
  : list OptionDetail :=
  map (fun optionId =>
         let opt := findOption p optionId in
         {| detail_id := optionId;
            detail_name := nameOr opt optionId;
            detail_price := priceOr0 opt |})
    selected.

(** The failure of the validation step: one entry per failing product. *)
Definition validationFailure (validationResults : BatchValidation) : string :=
  let errs :=
    join "; "
      (map (fun r =>
              (result_productId r ++ ": "
                 ++ join ", " (map message (errors (validation r))))%string)
         (filter (fun r => negb (isValid (validation r)))
            (results validationResults))) in
  ("Configuration validation failed: " ++ errs)%string.

(** The callback that builds the line item of [config] at [index]. *)
Definition buildLineItem (pricingResults : TotalPrice)
  (config : ConfigurationItem) (index : nat) : Result QuoteLineItem :=
  match getProductById (productId config) with
  | None => Error (notFoundMessage (productId config))
  | Some p =>
      match nth_error (items pricingResults) index with
      | None => Error "Cannot read properties of undefined (reading 'appliedRules')"
      | Some pricingResult =>
          let basePrice := product_basePrice p in
          let details := selectedOptionsDetails p (selectedOptions config) in
          let optionsTotal :=
            fold_left (fun sum opt => sum + detail_price opt) details 0 in
          let subtotal := (basePrice + optionsTotal) * quantity config in
          let discounts :=
            map (fun rule =>
                   {| discount_ruleId := ruleId rule;
                      discount_ruleName := ruleName rule;
                      discount_amount := discountAmount rule |})
              (item_appliedRules pricingResult) in
          Ok {| line_productId := productId config;
                line_productName := product_name p;
                line_quantity := quantity config;
                line_basePrice := basePrice;
                line_selectedOptions := details;
                line_subtotal := subtotal;
                line_discounts := discounts;
                line_total := item_finalPrice pricingResult |}
      end
  end.

Definition optStr (o : option string) : JsValue :=
  match o with
  | Some s => JStr s
  | None => JUndefined
  end.

Definition optNum (o : option number) : JsValue :=
  match o with
  | Some n => JNum n
  | None => JUndefined
  end.

(** [{ customerTier, region, taxRate, ...customFields }]. *)
Definition quoteMetadata (customerTier region : option string)
  (customFields : option JsObject) (taxRate : option number) : JsObject :=
  let base :=
    [ ("customerTier", optStr customerTier); ("region", optStr region);
      ("taxRate", optNum taxRate) ] in
  match customFields with
  | Some fields => obj_spread base fields
  | None => base
  end.

(** [taxRate ? preTaxTotal * taxRate : undefined]. *)
Definition taxOf (preTaxTotal : number) (taxRate : option number) : option number :=
  match taxRate with
  | Some rate => if truthy rate then Some (preTaxTotal * rate) else None
  | None => None
  end.

(** [tax ? preTaxTotal + tax : preTaxTotal]. *)
Definition totalOf (preTaxTotal : number) (tax : option number) : number :=
  match tax with
  | Some t => if truthy t then preTaxTotal + t else preTaxTotal
  | None => preTaxTotal
  end.

(** [Math.round(total * 100) / 100]. *)
Definition round2 (total : number) : number := Math_round (total * 100) / 100.

Definition generateQuote (uuid now : string)
  (configurations : list ConfigurationItem)
  (customerTier region : option string) (customFields : option JsObject)
  (taxRate : option number) : Result Quote :=
  let validationResults := validateConfigurations configurations in
  if negb (batch_isValid validationResults)
  then Error (validationFailure validationResults)
  else
    pricingResults <-
      calculateTotalPrice configurations customerTier region customFields ;;
    lineItems <- mapiM (buildLineItem pricingResults) 0%nat configurations ;;
    let subtotal := totalBasePrice pricingResults in
    let totalDiscounts := totalDiscount pricingResults in
    let preTaxTotal := totalFinalPrice pricingResults in
    let tax := taxOf preTaxTotal taxRate in
    let total := totalOf preTaxTotal tax in
    Ok {| quote_id := uuid;
          quote_createdAt := now;
          quote_lineItems := lineItems;
          quote_subtotal := subtotal;
          quote_totalDiscounts := totalDiscounts;
          quote_tax := tax;
          quote_total := round2 total;
          quote_metadata :=
            quoteMetadata customerTier region customFields taxRate |}.

(* ================================================================= *)
(** ** validation/schemas.ts and routes/quote.ts *)

(** The issues [configurationItemSchema] raises on an item: the product id
    has at least one character, the quantity is an integer (the message of
    this check is the library's own) and is positive. *)
Definition isInteger (q : number) : bool := Qeq_bool (inject_Z (Qfloor q)) q.

Definition configurationItemIssues (c : ConfigurationItem) : list string :=
  (if Nat.ltb (String.length (productId c)) 1
   then ["Product ID is required"] else [])
    ++ (if isInteger (quantity c) then []
        else ["Expected integer, received float"])
    ++ (if Qle_bool (quantity c) 0
        then ["Quantity must be a positive integer"] else []).

(** The issues [configureRequestSchema] raises on the configurations. *)
Definition configureRequestIssues (configurations : list ConfigurationItem)
  : list string :=
  (if Nat.ltb (List.length configurations) 1
   then ["At least one configuration is required"] else [])
    ++ flat_map configurationItemIssues configurations.

(** The replies of [POST /quote]: the quote with status 200, or status 400
    from the body schema of the route, from the request schema, or from an
    exception of the quoter. *)
Inductive Reply : Type :=
| Sent (quote : Quote)
| BodyRejected
| BadRequestIssues (issues : list string)
| BadRequest (error : string).

(** The handler of [POST /quote]: parse, then quote; any exception is
    answered with status 400. *)
Definition quoteHandler (uuid now : string)
  (configurations : list ConfigurationItem)
  (customerTier region : option string) (customFields : option JsObject)
  (taxRate : option number) : Reply :=
  match configureRequestIssues configurations with
  | [] =>
      match generateQuote uuid now configurations customerTier region
              customFields taxRate with
      | Ok quote => Sent quote
      | Error msg => BadRequest msg
      end
  | issues => BadRequestIssues issues
  end.

(** The route: its body schema ([minItems: 1] on the configurations) is
    checked before the handler is called. *)
Definition quoteRoute (uuid now : string)
  (configurations : list ConfigurationItem)
  (customerTier region : option string) (customFields : option JsObject)
  (taxRate : option number) : Reply :=
  if Nat.ltb (List.length configurations) 1 then BodyRejected
  else quoteHandler uuid now configurations customerTier region customFields
         taxRate.

(* ================================================================= *)
(** ** What the specification expects of the services *)

Definition validItem (c : ConfigurationItem) : bool :=
  isValid (validateConfiguration (productId c) (selectedOptions c)).

(** The entry of a failing product in the message of a failed quote. *)
Definition failureEntry (c : ConfigurationItem) : string :=
  (productId c ++ ": "
     ++ join ", "
          (map message
             (errors (validateConfiguration (productId c) (selectedOptions c)))))%string.

(** The options of the product that the selected ids name, in the order of
    the selection. *)
Definition foundOptions (p : Product) (selected : list string)
  : list ProductOption :=
  flat_map
    (fun optionId =>
       match findOption p optionId with
       | Some opt => [opt]
       | None => []
       end)
    selected.

(** The product has an option of that id. *)
Definition hasOption (p : Product) (optionId : string) : bool :=
  match findOption p optionId with
  | Some _ => true
  | None => false
  end.

(** The pre-tax total of a quote: the sum of the totals of its lines. *)
Definition preTaxTotalOf (q : Quote) : number :=
  fold_left (fun sum line => sum + line_total line) (quote_lineItems q) 0.

(* ================================================================= *)
(** ** What the specification expects of the validator *)

(** The errors of each check, written as the specification words them:
    a list comprehension over what is inspected. *)

Definition expectedRequiredErrors (p : Product) (selected : list string)
  : list FieldError :=
  map (fun opt => selectedOptionsError (requiredMessage opt))
    (filter (fun opt => option_isRequired opt
                        && negb (includes selected (option_id opt)))
       (product_options p)).

Definition expectedInvalidErrors (p : Product) (selected : list string)
  : list FieldError :=
  map (fun s => selectedOptionsError (invalidMessage p s))
    (filter (fun s => negb (includes (map option_id (product_options p)) s))
       selected).

(** The pairs (declaring option, conflicting id) with both ends selected. *)
Definition conflictPairs (p : Product) (selected : list string)
  : list (ProductOption * string) :=
  flat_map
    (fun s =>
       match findOption p s with
       | Some opt =>
           match option_conflicts opt with
           | Some conflicts =>
               map (fun c => (opt, c)) (filter (includes selected) conflicts)
           | None => []
           end
       | None => []
       end)
    selected.

Definition conflictError (p : Product) (pair : ProductOption * string)
  : FieldError :=
  selectedOptionsError (conflictMessage p (fst pair) (snd pair)).

Definition expectedConflictErrors (p : Product) (selected : list string)
  : list FieldError :=
  map (conflictError p) (conflictPairs p selected).

(** The number of conflict errors a validation result holds for the pair
    of [a] and [b], declared by [a]. *)
Definition conflictErrorsFor (p : Product) (a b : ProductOption)
  (result : ValidationResult) : nat :=
  List.length
    (filter (fun e => String.eqb (message e) (conflictMessage p a (option_id b)))
       (errors result)).

(** The pairs (declaring option, dependency id) with the dependency missing. *)
Definition missingDependencies (p : Product) (selected : list string)
  : list (ProductOption * string) :=
  flat_map
    (fun s =>
       match findOption p s with
       | Some opt =>
           match option_dependencies opt with
           | Some dependencies =>
               map (fun d => (opt, d))
                 (filter (fun d => negb (includes selected d)) dependencies)
           | None => []
           end
       | None => []
       end)
    selected.

Definition expectedDependencyErrors (p : Product) (selected : list string)
  : list FieldError :=
  map (fun pair =>
         selectedOptionsError (dependencyMessage p (fst pair) (snd pair)))
    (missingDependencies p selected).

(** The pair made of the option with id [a] declaring a conflict with [b]. *)
Definition isPair (a b : string) (pair : ProductOption * string) : bool :=
  String.eqb (option_id (fst pair)) a && String.eqb (snd pair) b.

(* ================================================================= *)
(** ** What the specification expects of the rule engine *)

(** The records the engine leaves when it runs [rules] from [price], read
    off rule by rule from the front. *)
Fixpoint recordsFrom (context : PricingContext) (price : number)
  (rules : list PricingRule) : list AppliedRule :=
  match rules with
  | [] => []
  | rule :: rules' =>
      let newPrice := rule_apply rule price context in
      (if Qeq_bool (price - newPrice) 0 then []
       else [ {| ruleId := rule_id rule; ruleName := rule_name rule;
                 discountAmount := price - newPrice |} ])
        ++ recordsFrom context newPrice rules'
  end.

(** The price after [rules] have been applied in turn, before the clamp. *)
Definition priceAfter (context : PricingContext) (rules : list PricingRule)
  (price : number) : number :=
  fold_left (fun price rule => rule_apply rule price context) rules price.

(** [l1] is [l2] with some elements left out, the order kept. *)
Inductive subseq {A : Type} : list A -> list A -> Prop :=
| subseq_nil : subseq [] []
| subseq_skip (x : A) (l1 l2 : list A) : subseq l1 l2 -> subseq l1 (x :: l2)
| subseq_take (x : A) (l1 l2 : list A) : subseq l1 l2 -> subseq (x :: l1) (x :: l2).

Definition samePriority (k : number) (rule : PricingRule) : bool :=
  Qeq_bool (rule_priority rule) k.

Definition byAscendingPriority (a b : PricingRule) : Prop :=
  rule_priority a <= rule_priority b.

(** The volume-discount rules of the table. *)
Definition isVolumeRule (rule : PricingRule) : bool :=
  startsWith (rule_id rule) "volume-discount-".

(** A configuration item without customizations. *)
Definition item (pid : string) (selected : list string) (q : number)
  : ConfigurationItem :=
  {| productId := pid; selectedOptions := selected; quantity := q;
     customizations := None |}.

(** The context of an item of the basic cloud server priced on its own. *)
Definition basicContext (q : number) (tier reg : option string) : PricingContext :=
  {| product := cloud_server_basic;
     configuration := item "cloud-server-basic" [] q;
     allConfigurations := [];
     customerTier := tier; region := reg; customFields := None |}.

(* ================================================================= *)
(** ** config/configuration-rules.ts: the option helpers *)

Definition getOptionById (p : Product) (optionId : string) : option ProductOption :=
  find (fun opt => String.eqb (option_id opt) optionId) (product_options p).

(** [option1.conflicts?.includes(option2Id) ?? false]. *)
Definition hasConflict (p : Product) (option1Id option2Id : string) : bool :=
  match getOptionById p option1Id with
  | None => false
  | Some option1 =>
      match option_conflicts option1 with
      | Some conflicts => includes conflicts option2Id
      | None => false
      end
  end.

(** [array.pop()]: the last element, and the array without it. *)
Definition pop {A : Type} (l : list A) : option (A * list A) :=
  match rev l with
  | [] => None
  | x :: r => Some (x, rev r)
  end.

(** The [while] loop of [getAllDependencies].  [toProcess] is the stack,
    its top at the end; [allDeps] is the set, in insertion order.  The loop
    is run for at most [fuel] turns; [None] is a loop that has not stopped
    by then. *)
Fixpoint dependenciesLoop (fuel : nat) (p : Product)
  (toProcess allDeps : list string) : option (list string) :=
  match fuel with
  | O => None
  | S fuel' =>
      match pop toProcess with
      | None => Some allDeps
      | Some (dep, toProcess') =>
          if negb (includes allDeps dep)
          then
            let allDeps' := push allDeps dep in
            match getOptionById p dep with
            | Some depOption =>
                match option_dependencies depOption with
                | Some dependencies =>
                    dependenciesLoop fuel' p (toProcess' ++ dependencies) allDeps'
                | None => dependenciesLoop fuel' p toProcess' allDeps'
                end
            | None => dependenciesLoop fuel' p toProcess' allDeps'
            end
          else dependenciesLoop fuel' p toProcess' allDeps
      end
  end.

(** Every id that some option of the product lists as a dependency. *)
Definition declaredDependencies (p : Product) : list string :=
  flat_map
    (fun opt =>
       match option_dependencies opt with
       | Some dependencies => dependencies
       | None => []
       end)
    (product_options p).

(** A number of turns the loop cannot exceed on this product. *)
Definition dependenciesFuel (p : Product) : nat :=
  let n := List.length (declaredDependencies p) in
  S (n + S n * n).

Definition getAllDependencies (p : Product) (optionId : string)
  : option (list string) :=
  match getOptionById p optionId with
  | Some opt =>
      match option_dependencies opt with
      | Some dependencies =>
          dependenciesLoop (dependenciesFuel p) p dependencies []
      | None => Some []
      end
  | None => Some []
  end.

(** [b] is listed among the dependencies of the option of id [a]. *)
Definition dependsDirectly (p : Product) (a b : string) : Prop :=
  exists opt dependencies,
    getOptionById p a = Some opt
    /\ option_dependencies opt = Some dependencies
    /\ In b dependencies.

(** [b] is reached from [a] by one or more dependency declarations. *)
Inductive dependsOn (p : Product) (a : string) : string -> Prop :=
| dependsOn_direct (b : string) : dependsDirectly p a b -> dependsOn p a b
| dependsOn_step (b c : string) :
    dependsOn p a b -> dependsDirectly p b c -> dependsOn p a c.

(* ================================================================= *)
(** ** config/products.ts: categories *)

Definition getProductsByCategory (category : string) : list Product :=
  filter (fun p => String.eqb (product_category p) category) products.

(** [[...new Set(array)]]: the first occurrences, in order. *)
Definition setOf (l : list string) : list string :=
  fold_left (fun s x => if includes s x then s else push s x) l [].

Definition getCategories : list string :=
  setOf (map product_category products).

(* ================================================================= *)
(** ** What the helpers and the services are measured against *)

(** The dependencies the loop pushes for [dep]. *)
Definition depsOf (p : Product) (dep : string) : list string :=
  match getOptionById p dep with
  | Some depOption =>
      match option_dependencies depOption with
      | Some dependencies => dependencies
      | None => []
      end
  | None => []
  end.

(** The declared ids that are not yet in the set. *)
Definition pending (p : Product) (allDeps : list string) : nat :=
  List.length
    (filter (fun u => negb (includes allDeps u)) (declaredDependencies p)).

(** [line] is the line item of the configuration item [c] in a request
    with the items [all]: the fields come from [c], from its product and
    from the price of [c] computed by the pricer. *)
Definition lineBuiltFrom (all : list ConfigurationItem)
  (tier reg : option string) (fields : option JsObject)
  (c : ConfigurationItem) (line : QuoteLineItem) : Prop :=
  exists p priced,
    getProductById (productId c) = Some p
    /\ calculatePrice c all tier reg fields = Ok priced
    /\ line_productId line = productId c
    /\ line_productName line = product_name p
    /\ line_quantity line = quantity c
    /\ line_basePrice line = product_basePrice p
    /\ line_selectedOptions line = selectedOptionsDetails p (selectedOptions c)
    /\ line_subtotal line == price_basePrice priced
    /\ line_total line = price_finalPrice priced
    /\ line_discounts line
       = map (fun rule => {| discount_ruleId := ruleId rule;
                             discount_ruleName := ruleName rule;
                             discount_amount := discountAmount rule |})
           (price_appliedRules priced).

(* ================================================================= *)
(* ================================================================= *)
(** ** config/pricing-rules.ts on binary64 numbers *)

(** The rule engine once more, with [number] as the binary64 floats of the
    JavaScript runtime: the arithmetic rounds to the nearest float, ties to
    even; the comparisons are those of IEEE 754, so that every ordering or
    equality test with NaN is false and [x !== y] with NaN is true; the
    infinities and NaN are values like the others.  The definitions follow
    the source as the ones on exact numbers above do and keep their names
    inside the module. *)
Module Binary64.
Local Open Scope float_scope.

Definition number : Set := float.

(** [a >= b], [a < b] and [a !== b] on numbers. *)
Definition geb (a b : number) : bool := b <=? a.
Definition ltb (a b : number) : bool := a <? b.
Definition neqb (a b : number) : bool := negb (a =? b).

(** [Math.max(a, b)]: NaN when an argument is NaN, and [+0] above [-0]. *)
Definition Math_max (a b : number) : number :=
  if is_nan a then a
  else if is_nan b then b
  else if a <? b then b
  else if b <? a then a
  else if get_sign a then b else a.

Record ProductOption : Type := {
  option_id : string;
  option_name : string;
  option_description : string;
  option_price : number;
  option_isRequired : bool;
  option_category : option string;
  option_dependencies : option (list string);
  option_conflicts : option (list string)
}.

Record Product : Type := {
  product_id : string;
  product_name : string;
  product_description : string;
  product_basePrice : number;
  product_category : string;
  product_options : list ProductOption;
  product_metadata : option JsObject
}.

Record ConfigurationItem : Type := {
  productId : string;
  selectedOptions : list string;
  quantity : number;
  customizations : option (list (string * string))
}.

Record PricingContext : Type := {
  product : Product;
  configuration : ConfigurationItem;
  allConfigurations : list ConfigurationItem;
  customerTier : option string;
  region : option string;
  customFields : option JsObject
}.

Record PricingRule : Type := {
  rule_id : string;
  rule_name : string;
  rule_description : string;
  rule_type : PricingRuleType;
  rule_condition : PricingContext -> bool;
  rule_apply : number -> PricingContext -> number;
  rule_priority : number
}.

Record AppliedRule : Type := {
  ruleId : string;
  ruleName : string;
  discountAmount : number
}.

(** [product.options.find((opt) => opt.id === id)]. *)
Definition findOption (p : Product) (id : string) : option ProductOption :=
  find (fun opt => String.eqb (option_id opt) id) (product_options p).

(** [context.customFields?.earlyBird === true]. *)
Definition earlyBird (ctx : PricingContext) : bool :=
  match customFields ctx with
  | Some o =>
      match obj_get o "earlyBird" with
      | Some (JBool true) => true
      | _ => false
      end
  | None => false
  end.

Definition volume_discount_10_percent : PricingRule :=
  {| rule_id := "volume-discount-10-percent";
     rule_name := "Volume Discount - 10%";
     rule_description := "10% discount for quantities of 5 or more";
     rule_type := percentage;
     rule_priority := 10;
     rule_condition := fun context =>
       geb (quantity (configuration context)) 5
       && ltb (quantity (configuration context)) 10;
     rule_apply := fun price _context => price * 0.9 |}.

Definition volume_discount_20_percent : PricingRule :=
  {| rule_id := "volume-discount-20-percent";
     rule_name := "Volume Discount - 20%";
     rule_description := "20% discount for quantities of 10 or more";
     rule_type := percentage;
     rule_priority := 9;
     rule_condition := fun context =>
       geb (quantity (configuration context)) 10;
     rule_apply := fun price _context => price * 0.8 |}.

Definition enterprise_tier_discount : PricingRule :=
  {| rule_id := "enterprise-tier-discount";
     rule_name := "Enterprise Tier Discount";
     rule_description := "15% discount for enterprise customers";
     rule_type := percentage;
     rule_priority := 5;
     rule_condition := fun context =>
       strictEqStr (customerTier context) "enterprise";
     rule_apply := fun price _context => price * 0.85 |}.

Definition startup_tier_discount : PricingRule :=
  {| rule_id := "startup-tier-discount";
     rule_name := "Startup Tier Discount";
     rule_description := "25% discount for startup customers";
     rule_type := percentage;
     rule_priority := 5;
     rule_condition := fun context =>
       strictEqStr (customerTier context) "startup";
     rule_apply := fun price _context => price * 0.75 |}.

Definition bundle_discount_compute_database : PricingRule :=
  {| rule_id := "bundle-discount-compute-database";
     rule_name := "Compute + Database Bundle Discount";
     rule_description :=
       "10% discount when purchasing cloud server with managed database";
     rule_type := bundle;
     rule_priority := 15;
     rule_condition := fun context =>
       let hasCloudServer :=
         existsb (fun c => startsWith (productId c) "cloud-server-")
           (allConfigurations context) in
       let hasDatabase :=
         existsb (fun c => startsWith (productId c) "database-")
           (allConfigurations context) in
       hasCloudServer && hasDatabase;
     rule_apply := fun price _context => price * 0.9 |}.

Definition premium_support_bundle : PricingRule :=
  {| rule_id := "premium-support-bundle";
     rule_name := "Premium Support Bundle";
     rule_description :=
       "Free premium support with Cloud Server Pro and 2+ other products";
     rule_type := bundle;
     rule_priority := 8;
     rule_condition := fun context =>
       let hasCloudServerPro :=
         existsb (fun c => String.eqb (productId c) "cloud-server-pro")
           (allConfigurations context) in
       let hasPremiumSupport :=
         includes (selectedOptions (configuration context)) "support-premium" in
       let totalProducts := List.length (allConfigurations context) in
       hasCloudServerPro && hasPremiumSupport && Nat.leb 3%nat totalProducts;
     rule_apply := fun price context =>
       match findOption (product context) "support-premium" with
       | Some premiumSupportOption => price - option_price premiumSupportOption
       | None => price
       end |}.

Definition region_pricing_us_west : PricingRule :=
  {| rule_id := "region-pricing-us-west";
     rule_name := "US West Region Standard Pricing";
     rule_description := "Standard pricing for US West region";
     rule_type := fixed;
     rule_priority := 20;
     rule_condition := fun context => strictEqStr (region context) "us-west";
     rule_apply := fun price _context => price |}.

Definition region_pricing_eu : PricingRule :=
  {| rule_id := "region-pricing-eu";
     rule_name := "EU Region Premium";
     rule_description :=
       "8% premium for EU regions due to compliance requirements";
     rule_type := percentage;
     rule_priority := 20;
     rule_condition := fun context =>
       strictEqStr (region context) "eu-central"
       || strictEqStr (region context) "eu-west";
     rule_apply := fun price _context => price * 1.08 |}.

Definition region_pricing_apac : PricingRule :=
  {| rule_id := "region-pricing-apac";
     rule_name := "APAC Region Premium";
     rule_description := "5% premium for APAC regions";
     rule_type := percentage;
     rule_priority := 20;
     rule_condition := fun context =>
       strictEqStr (region context) "apac-east"
       || strictEqStr (region context) "apac-south";
     rule_apply := fun price _context => price * 1.05 |}.

Definition professional_services_early_bird : PricingRule :=
  {| rule_id := "professional-services-early-bird";
     rule_name := "Professional Services Early Bird";
     rule_description := "$1000 discount on professional services package";
     rule_type := fixed;
     rule_priority := 12;
     rule_condition := fun context =>
       String.eqb (product_id (product context)) "professional-services"
       && earlyBird context;
     rule_apply := fun price _context => price - 1000 |}.

Definition pricingRules : list PricingRule :=
  [ volume_discount_10_percent; volume_discount_20_percent;
    enterprise_tier_discount; startup_tier_discount;
    bundle_discount_compute_database; premium_support_bundle;
    region_pricing_us_west; region_pricing_eu; region_pricing_apac;
    professional_services_early_bird ].

(** [array.sort(compare)]: [x] goes before the first element it does not
    compare greater than; a comparator result of NaN counts as 0. *)
Fixpoint sortInsert {A : Type} (compare : A -> A -> number) (x : A) (l : list A)
  : list A :=
  match l with
  | [] => [x]
  | y :: l' =>
      if ltb 0 (compare x y) then y :: sortInsert compare x l'
      else x :: y :: l'
  end.

Definition sort {A : Type} (compare : A -> A -> number) (l : list A) : list A :=
  fold_right (sortInsert compare) [] l.

Definition byPriority (a b : PricingRule) : number :=
  rule_priority a - rule_priority b.

Definition getApplicableRules (context : PricingContext) : list PricingRule :=
  sort byPriority (filter (fun rule => rule_condition rule context) pricingRules).

Record PricingOutcome : Type := {
  finalPrice : number;
  appliedRules : list AppliedRule
}.

(** One turn of the loop of [applyPricingRules]; the state is the pair of
    [currentPrice] and [appliedRules]. *)
Definition applyRule (context : PricingContext)
  (st : number * list AppliedRule) (rule : PricingRule)
  : number * list AppliedRule :=
  let previousPrice := fst st in
  let currentPrice := rule_apply rule (fst st) context in
  let discountAmount := previousPrice - currentPrice in
  if neqb discountAmount 0
  then (currentPrice,
        push (snd st)
          {| ruleId := rule_id rule; ruleName := rule_name rule;
             discountAmount := discountAmount |})
  else (currentPrice, snd st).

Definition applyPricingRules (basePrice : number) (context : PricingContext)
  : PricingOutcome :=
  let applicableRules := getApplicableRules context in
  let st := fold_left (applyRule context) applicableRules (basePrice, []) in
  {| finalPrice := Math_max 0 (fst st); appliedRules := snd st |}.

(** The record a rule leaves when it takes the price from [currentPrice]
    to [newPrice]. *)
Definition recordOf (rule : PricingRule) (currentPrice newPrice : number)
  : list AppliedRule :=
  if currentPrice - newPrice =? 0 then []
  else [ {| ruleId := rule_id rule; ruleName := rule_name rule;
            discountAmount := currentPrice - newPrice |} ].

(** A configuration item without customizations. *)
Definition item (pid : string) (selected : list string) (q : number)
  : ConfigurationItem :=
  {| productId := pid; selectedOptions := selected; quantity := q;
     customizations := None |}.

(** The price the engine holds after running [rules] from [price]. *)
Definition priceAfter (context : PricingContext) (rules : list PricingRule)
  (price : number) : number :=
  fold_left (fun price rule => rule_apply rule price context) rules price.

(** A numeric literal of the source read as a binary64 number: the float
    nearest to the rational it denotes. *)
Definition ofInteger (z : Z) : number :=
  match z with
  | Z0 => 0
  | Zpos _ => of_uint63 (Uint63.of_Z z)
  | Zneg p => - of_uint63 (Uint63.of_Z (Zpos p))
  end.

Definition ofLiteral (q : Q) : number :=
  ofInteger (Qnum q) / ofInteger (Zpos (Qden q)).

End Binary64.

(** The catalog entries with their prices read as binary64 numbers. *)
Definition optionOnBinary64 (o : ProductOption) : Binary64.ProductOption :=
  {| Binary64.option_id := option_id o;
     Binary64.option_name := option_name o;
     Binary64.option_description := option_description o;
     Binary64.option_price := Binary64.ofLiteral (option_price o);
     Binary64.option_isRequired := option_isRequired o;
     Binary64.option_category := option_category o;
     Binary64.option_dependencies := option_dependencies o;
     Binary64.option_conflicts := option_conflicts o |}.

Definition productOnBinary64 (p : Product) : Binary64.Product :=
  {| Binary64.product_id := product_id p;
     Binary64.product_name := product_name p;
     Binary64.product_description := product_description p;
     Binary64.product_basePrice := Binary64.ofLiteral (product_basePrice p);
     Binary64.product_category := product_category p;
     Binary64.product_options := map optionOnBinary64 (product_options p);
     Binary64.product_metadata := product_metadata p |}.

(** The context of the single item of a request for [q] units of a catalog
    product without options. *)
Definition contextOnBinary64 (p : Product) (q : Binary64.number)
  (tier reg : option string) (fields : option JsObject)
  : Binary64.PricingContext :=
  {| Binary64.product := productOnBinary64 p;
     Binary64.configuration := Binary64.item (product_id p) [] q;
     Binary64.allConfigurations := [Binary64.item (product_id p) [] q];
     Binary64.customerTier := tier;
     Binary64.region := reg;
     Binary64.customFields := fields |}.

(** * Proofs *)

(** ** Loops that push *)

Section PushLoops.
Context {A E : Type}.
Variable keep : A -> bool.
Variable mk : A -> E.

(** A loop that pushes [mk x] for the [x] that pass [keep] appends the
    comprehension. *)
Lemma fold_push_filter (l : list A) (acc : list E) :
  fold_left (fun acc x => if keep x then push acc (mk x) else acc) l acc
  = acc ++ map mk (filter keep l).
Proof.
  revert acc; induction l as [|x l IH]; intros acc; simpl.
  - now rewrite app_nil_r.
  - rewrite IH. destruct (keep x); simpl; [|reflexivity].
    unfold push. now rewrite <- app_assoc.
Qed.

(** A loop whose turn appends [body x] appends the concatenation. *)
Lemma fold_append_flat_map (step : list E -> A -> list E) (body : A -> list E)
  (l : list A) (acc : list E) :
  (forall acc x, step acc x = acc ++ body x) ->
  fold_left step l acc = acc ++ flat_map body l.
Proof.
  intros Hstep. revert acc; induction l as [|x l IH]; intros acc; simpl.
  - now rewrite app_nil_r.
  - rewrite IH, Hstep. now rewrite <- app_assoc.
Qed.
End PushLoops.

(** ** The validator *)

Lemma checkRequired_spec (p : Product) (selected : list string)
  (errs : list FieldError) :
  checkRequired p selected errs = errs ++ expectedRequiredErrors p selected.
Proof.
  unfold checkRequired, expectedRequiredErrors.
  rewrite (fold_push_filter
             (fun o => negb (includes selected (option_id o)))
             (fun o => selectedOptionsError (requiredMessage o))).
  f_equal. f_equal.
  induction (product_options p) as [|o l IH]; simpl; [reflexivity|].
  destruct (option_isRequired o); simpl; [|exact IH].
  destruct (negb (includes selected (option_id o))); simpl; now rewrite IH.
Qed.

Lemma checkInvalid_spec (p : Product) (selected : list string)
  (errs : list FieldError) :
  checkInvalid p selected errs = errs ++ expectedInvalidErrors p selected.
Proof.
  unfold checkInvalid, expectedInvalidErrors.
  apply (fold_push_filter
           (fun s => negb (includes (map option_id (product_options p)) s))
           (fun s => selectedOptionsError (invalidMessage p s))).
Qed.

Lemma checkConflicts_spec (p : Product) (selected : list string)
  (errs : list FieldError) :
  checkConflicts p selected errs = errs ++ expectedConflictErrors p selected.
Proof.
  unfold checkConflicts, expectedConflictErrors, conflictPairs.
  rewrite flat_map_concat_map, concat_map, map_map, <- flat_map_concat_map.
  apply fold_append_flat_map. intros acc s.
  destruct (findOption p s) as [opt|]; simpl; [|now rewrite app_nil_r].
  destruct (option_conflicts opt) as [cs|]; simpl; [|now rewrite app_nil_r].
  rewrite (fold_push_filter (includes selected)
             (fun c => selectedOptionsError (conflictMessage p opt c))).
  now rewrite map_map.
Qed.

Lemma checkDependencies_spec (p : Product) (selected : list string)
  (errs : list FieldError) :
  checkDependencies p selected errs = errs ++ expectedDependencyErrors p selected.
Proof.
  unfold checkDependencies, expectedDependencyErrors, missingDependencies.
  rewrite flat_map_concat_map, concat_map, map_map, <- flat_map_concat_map.
  apply fold_append_flat_map. intros acc s.
  destruct (findOption p s) as [opt|]; simpl; [|now rewrite app_nil_r].
  destruct (option_dependencies opt) as [ds|]; simpl; [|now rewrite app_nil_r].
  rewrite (fold_push_filter (fun d => negb (includes selected d))
             (fun d => selectedOptionsError (dependencyMessage p opt d))).
  now rewrite map_map.
Qed.

Lemma validateProduct_errors (p : Product) (selected : list string) :
  errors (validateProduct p selected)
  = expectedRequiredErrors p selected ++ expectedInvalidErrors p selected
      ++ expectedConflictErrors p selected
      ++ expectedDependencyErrors p selected.
Proof.
  unfold validateProduct; simpl.
  rewrite checkDependencies_spec, checkConflicts_spec, checkInvalid_spec,
    checkRequired_spec.
  simpl. now rewrite <- !app_assoc.
Qed.

Lemma validateProduct_isValid (p : Product) (selected : list string) :
  isValid (validateProduct p selected) = true
  <-> errors (validateProduct p selected) = [].
Proof.
  unfold validateProduct; simpl.
  destruct (checkDependencies _ _ _); simpl; split; intros H;
    try reflexivity; discriminate.
Qed.

(** C2. [validateConfiguration]: an unknown product id gives the single
    "not found" error on field "productId" with [isValid = false] and
    nothing else; a known id runs the four checks on the product found.
    Those checks, on every product whatever its options (required or not),
    accumulate their errors in the order required, invalid, conflicts,
    dependencies, each check reporting all of its errors, and [isValid]
    holds exactly when the accumulated list is empty. *)
Theorem validate_accumulates_in_order (pid : string) (selected : list string) :
  match getProductById pid with
  | None =>
      validateConfiguration pid selected
      = {| isValid := false;
           errors :=
             [ {| field := "productId";
                  message := ("Product '" ++ pid ++ "' not found")%string |} ];
           warnings := None |}
  | Some p =>
      validateConfiguration pid selected = validateProduct p selected
      /\ errors (validateConfiguration pid selected)
         = expectedRequiredErrors p selected ++ expectedInvalidErrors p selected
             ++ expectedConflictErrors p selected
             ++ expectedDependencyErrors p selected
  end
  /\ (isValid (validateConfiguration pid selected) = true
      <-> errors (validateConfiguration pid selected) = [])
  /\ (forall p : Product,
        errors (validateProduct p selected)
        = expectedRequiredErrors p selected
            ++ expectedInvalidErrors p selected
            ++ expectedConflictErrors p selected
            ++ expectedDependencyErrors p selected
        /\ (isValid (validateProduct p selected) = true
            <-> errors (validateProduct p selected) = [])).
Proof.
  split; [|split].
  - unfold validateConfiguration.
    destruct (getProductById pid) as [p|]; [|reflexivity].
    split; [reflexivity | apply validateProduct_errors].
  - unfold validateConfiguration.
    destruct (getProductById pid) as [p|]; [apply validateProduct_isValid|].
    simpl. split; discriminate.
  - intros p. split; [apply validateProduct_errors | apply validateProduct_isValid].
Qed.

(** ** One-sided conflict declarations *)

Lemma includes_In (l : list string) (x : string) :
  includes l x = true <-> In x l.
Proof.
  unfold includes. rewrite existsb_exists. split.
  - intros [y [Hy Heq]]. apply String.eqb_eq in Heq. now subst.
  - intros H. exists x. split; [assumption | apply String.eqb_refl].
Qed.

Lemma findOption_id (p : Product) (s : string) (opt : ProductOption) :
  findOption p s = Some opt -> option_id opt = s.
Proof.
  unfold findOption. intros H. apply find_some in H.
  destruct H as [_ H]. now apply String.eqb_eq.
Qed.

Section OnlyOneContributes.
Context {B : Type}.
Variable body : string -> list B.

Lemma flat_map_all_nil (l : list string) :
  (forall y, In y l -> body y = []) -> flat_map body l = [].
Proof.
  induction l as [|y l IH]; intros H; simpl; [reflexivity|].
  rewrite (H y) by now left. simpl. apply IH. intros z Hz. apply H. now right.
Qed.

(** When only [x] contributes, it contributes once per occurrence. *)
Lemma flat_map_repeat (x : string) (v : B) (n : nat) (l : list string) :
  body x = repeat v n ->
  (forall y, In y l -> y <> x -> body y = []) ->
  flat_map body l = repeat v (count_occ string_dec l x * n).
Proof.
  intros Hx. induction l as [|y l IH]; intros Hothers; [reflexivity|].
  cbn [flat_map count_occ]. rewrite IH by (intros z Hz; apply Hothers; now right).
  destruct (string_dec y x) as [->|Hne].
  - rewrite Hx. cbn [Nat.mul]. now rewrite repeat_app.
  - rewrite (Hothers y); [reflexivity | now left | exact Hne].
Qed.
End OnlyOneContributes.

Lemma filter_flat_map {A B : Type} (keep : B -> bool) (body : A -> list B)
  (l : list A) :
  filter keep (flat_map body l) = flat_map (fun x => filter keep (body x)) l.
Proof.
  induction l as [|x l IH]; simpl; [reflexivity|].
  now rewrite filter_app, IH.
Qed.

Lemma filter_eqb_count (x : string) (l : list string) :
  filter (fun c => String.eqb c x) l = repeat x (count_occ string_dec l x).
Proof.
  induction l as [|y l IH]; simpl; [reflexivity|].
  destruct (String.eqb_spec y x) as [->|Hne].
  - destruct (string_dec x x) as [_|Hc]; [|contradiction]. simpl. now rewrite IH.
  - destruct (string_dec y x) as [Hc|_]; [contradiction|]. exact IH.
Qed.

(** The pairs contributed by one selected id, restricted to a given pair. *)
Lemma pairs_of_selected (p : Product) (selected : list string) (a b s : string) :
  In b selected ->
  filter (isPair a b)
    match findOption p s with
    | Some opt =>
        match option_conflicts opt with
        | Some conflicts =>
            map (fun c => (opt, c)) (filter (includes selected) conflicts)
        | None => []
        end
    | None => []
    end
  = match findOption p s with
    | Some opt =>
        if String.eqb s a
        then match option_conflicts opt with
             | Some conflicts =>
                 repeat (opt, b) (count_occ string_dec conflicts b)
             | None => []
             end
        else []
    | None => []
    end.
Proof.
  intros Hb. destruct (findOption p s) as [opt|] eqn:Hfind; [|reflexivity].
  apply findOption_id in Hfind.
  destruct (option_conflicts opt) as [cs|]; [|now destruct (String.eqb s a)].
  destruct (String.eqb_spec s a) as [Hsa|Hsa].
  - rewrite <- map_repeat, <- filter_eqb_count.
    induction cs as [|c cs IH]; simpl; [reflexivity|].
    destruct (String.eqb_spec c b) as [->|Hcb].
    + apply includes_In in Hb. rewrite Hb. simpl. unfold isPair at 1. simpl.
      rewrite Hfind, Hsa, !String.eqb_refl. simpl. now rewrite IH.
    + destruct (includes selected c); simpl; [|exact IH].
      unfold isPair at 1. simpl.
      destruct (String.eqb_spec c b) as [Hc|_]; [contradiction|].
      rewrite andb_false_r. exact IH.
  - induction cs as [|c cs IH]; simpl; [reflexivity|].
    destruct (includes selected c); simpl; [|exact IH].
    unfold isPair at 1. simpl. rewrite Hfind.
    destruct (String.eqb_spec s a) as [Hc|_]; [contradiction|]. exact IH.
Qed.

(** C8 as stated fails: a selection may list an id more than once, and the
    conflict loop runs once for each entry.  The 16GB upgrade declares its
    conflict with the 8GB upgrade, which declares none; listed twice, it
    gives the error twice. *)
Lemma repeated_option_counterexample :
  ~ (forall (pid : string) (p : Product) (selected : list string)
       (a b : ProductOption) (conflicts : list string),
        getProductById pid = Some p ->
        In (option_id a) selected ->
        In (option_id b) selected ->
        findOption p (option_id a) = Some a ->
        findOption p (option_id b) = Some b ->
        option_conflicts a = Some conflicts ->
        In (option_id b) conflicts ->
        (forall conflicts', option_conflicts b = Some conflicts' ->
                            ~ In (option_id a) conflicts') ->
        conflictErrorsFor p a b (validateConfiguration pid selected) = 1%nat).
Proof.
  intros H.
  specialize (H "cloud-server-basic" cloud_server_basic
                ["ram-16gb"; "ram-8gb"; "ram-16gb"]
                ram_16gb ram_8gb ["ram-8gb"]).
  assert (Hcount :
    conflictErrorsFor cloud_server_basic ram_16gb ram_8gb
      (validateConfiguration "cloud-server-basic"
         ["ram-16gb"; "ram-8gb"; "ram-16gb"])
    = 2%nat) by reflexivity.
  rewrite H in Hcount.
  - discriminate Hcount.
  - reflexivity.
  - simpl; auto.
  - simpl; auto.
  - reflexivity.
  - reflexivity.
  - reflexivity.
  - simpl; auto.
  - intros conflicts' Hc; discriminate Hc.
Qed.

(** C8 (amended). On a product where option [a] lists [b] among its
    conflicts and [b] does not list [a], the validation of a selection that
    contains both ids fails, and its conflict errors for the two, all from
    the side of [a] and all with the message that the two options cannot be
    selected together, are as many as the selection lists [a] times the
    conflicts of [a] list [b]: exactly one when each is listed once.  No
    error comes from the side of [b].  [validateProduct] is what
    [validateConfiguration] runs on the product it finds. *)
Theorem one_sided_conflict_single_error
  (p : Product) (selected : list string) (a b : ProductOption)
  (conflicts : list string) :
  In (option_id a) selected ->
  In (option_id b) selected ->
  findOption p (option_id a) = Some a ->
  findOption p (option_id b) = Some b ->
  option_conflicts a = Some conflicts ->
  In (option_id b) conflicts ->
  (forall conflicts', option_conflicts b = Some conflicts' ->
                      ~ In (option_id a) conflicts') ->
  let times :=
    (count_occ string_dec selected (option_id a)
     * count_occ string_dec conflicts (option_id b))%nat in
  errors (validateProduct p selected)
  = expectedRequiredErrors p selected ++ expectedInvalidErrors p selected
      ++ map (conflictError p) (conflictPairs p selected)
      ++ expectedDependencyErrors p selected
  /\ isValid (validateProduct p selected) = false
  /\ filter (isPair (option_id a) (option_id b)) (conflictPairs p selected)
     = repeat (a, option_id b) times
  /\ (1 <= times)%nat
  /\ filter (isPair (option_id b) (option_id a)) (conflictPairs p selected) = []
  /\ conflictError p (a, option_id b)
     = {| field := "selectedOptions";
          message :=
            ("Options '" ++ option_name a ++ "' and '" ++ option_name b
               ++ "' cannot be selected together")%string |}
  /\ In (conflictError p (a, option_id b)) (errors (validateProduct p selected))
  /\ (forall pid, getProductById pid = Some p ->
                  validateConfiguration pid selected = validateProduct p selected).
Proof.
  intros Ha Hb Hfa Hfb Hca Hcb Hba. cbv zeta.
  assert (Hpairs :
    filter (isPair (option_id a) (option_id b)) (conflictPairs p selected)
    = repeat (a, option_id b)
        (count_occ string_dec selected (option_id a)
         * count_occ string_dec conflicts (option_id b))).
  { unfold conflictPairs. rewrite filter_flat_map.
    apply flat_map_repeat.
    - rewrite (pairs_of_selected p selected _ _ _ Hb).
      now rewrite Hfa, String.eqb_refl, Hca.
    - intros y Hy Hne. rewrite (pairs_of_selected p selected _ _ _ Hb).
      destruct (findOption p y); [|reflexivity].
      destruct (String.eqb_spec y (option_id a)); [contradiction | reflexivity]. }
  assert (Htimes :
    (1 <= count_occ string_dec selected (option_id a)
          * count_occ string_dec conflicts (option_id b))%nat).
  { apply (count_occ_In string_dec) in Ha. apply (count_occ_In string_dec) in Hcb.
    nia. }
  assert (Herror :
    In (conflictError p (a, option_id b)) (errors (validateProduct p selected))).
  { rewrite validateProduct_errors. apply in_or_app. right.
    apply in_or_app. right. apply in_or_app. left.
    unfold expectedConflictErrors. apply in_map.
    apply (filter_In (isPair (option_id a) (option_id b))).
    rewrite Hpairs.
    destruct (count_occ string_dec selected (option_id a)
              * count_occ string_dec conflicts (option_id b))%nat;
      [lia | now left]. }
  split; [apply validateProduct_errors|].
  split.
  { destruct (isValid (validateProduct p selected)) eqn:Hvalid; [|reflexivity].
    apply validateProduct_isValid in Hvalid. rewrite Hvalid in Herror.
    destruct Herror. }
  split; [exact Hpairs|]. split; [exact Htimes|]. split; [|split].
  - unfold conflictPairs. rewrite filter_flat_map.
    apply flat_map_all_nil. intros y Hy.
    rewrite (pairs_of_selected p selected _ _ _ Ha).
    destruct (findOption p y) as [opt|] eqn:Hfy; [|reflexivity].
    destruct (String.eqb_spec y (option_id b)) as [->|]; [|reflexivity].
    rewrite Hfb in Hfy. injection Hfy as <-.
    destruct (option_conflicts b) as [cs'|] eqn:Hcs; [|reflexivity].
    rewrite (proj1 (count_occ_not_In string_dec cs' (option_id a)));
      [reflexivity|].
    now apply Hba.
  - unfold conflictError, conflictMessage, selectedOptionsError. simpl.
    now rewrite Hfb.
  - split; [exact Herror|].
    intros pid Hpid. unfold validateConfiguration. now rewrite Hpid.
Qed.

(** C8 on the catalog: the 16GB upgrade declares its conflict with the 8GB
    upgrade, which declares none; with the 16GB upgrade listed twice the
    pair comes twice. *)
Lemma one_sided_conflict_single_error_witness :
  errors (validateProduct cloud_server_basic ["ram-16gb"; "ram-8gb"; "ram-16gb"])
  = expectedRequiredErrors cloud_server_basic ["ram-16gb"; "ram-8gb"; "ram-16gb"]
      ++ expectedInvalidErrors cloud_server_basic
           ["ram-16gb"; "ram-8gb"; "ram-16gb"]
      ++ map (conflictError cloud_server_basic)
           (conflictPairs cloud_server_basic ["ram-16gb"; "ram-8gb"; "ram-16gb"])
      ++ expectedDependencyErrors cloud_server_basic
           ["ram-16gb"; "ram-8gb"; "ram-16gb"]
  /\ isValid
       (validateProduct cloud_server_basic ["ram-16gb"; "ram-8gb"; "ram-16gb"])
     = false
  /\ filter (isPair "ram-16gb" "ram-8gb")
       (conflictPairs cloud_server_basic ["ram-16gb"; "ram-8gb"; "ram-16gb"])
     = [(ram_16gb, "ram-8gb"); (ram_16gb, "ram-8gb")]
  /\ (1 <= 2)%nat
  /\ filter (isPair "ram-8gb" "ram-16gb")
       (conflictPairs cloud_server_basic ["ram-16gb"; "ram-8gb"; "ram-16gb"]) = []
  /\ conflictError cloud_server_basic (ram_16gb, "ram-8gb")
     = {| field := "selectedOptions";
          message :=
            "Options '16GB RAM Upgrade' and '8GB RAM Upgrade' cannot be selected together" |}
  /\ In (conflictError cloud_server_basic (ram_16gb, "ram-8gb"))
       (errors
          (validateProduct cloud_server_basic ["ram-16gb"; "ram-8gb"; "ram-16gb"]))
  /\ (forall pid, getProductById pid = Some cloud_server_basic ->
                  validateConfiguration pid ["ram-16gb"; "ram-8gb"; "ram-16gb"]
                  = validateProduct cloud_server_basic
                      ["ram-16gb"; "ram-8gb"; "ram-16gb"]).
Proof.
  apply (one_sided_conflict_single_error cloud_server_basic
           ["ram-16gb"; "ram-8gb"; "ram-16gb"] ram_16gb ram_8gb ["ram-8gb"]).
  - simpl; auto.
  - simpl; auto.
  - reflexivity.
  - reflexivity.
  - reflexivity.
  - simpl; auto.
  - intros conflicts' H; discriminate H.
Defined.

(** ** The stable sort *)

Lemma ltb_true (a b : number) : ltb a b = true <-> a < b.
Proof.
  unfold ltb. rewrite negb_true_iff. split.
  - intros H. apply Qnot_le_lt. intros Hle.
    apply Qle_bool_iff in Hle. congruence.
  - intros H. destruct (Qle_bool b a) eqn:E; [|reflexivity].
    apply Qle_bool_iff in E. lra.
Qed.

Lemma ltb_false (a b : number) : ltb a b = false <-> b <= a.
Proof.
  unfold ltb. rewrite negb_false_iff. apply Qle_bool_iff.
Qed.

Lemma geb_true (a b : number) : geb a b = true <-> b <= a.
Proof. apply Qle_bool_iff. Qed.

Lemma geb_false (a b : number) : geb a b = false <-> a < b.
Proof.
  unfold geb. split.
  - intros H. apply Qnot_le_lt. intros Hle.
    apply Qle_bool_iff in Hle. congruence.
  - intros H. destruct (Qle_bool b a) eqn:E; [|reflexivity].
    apply Qle_bool_iff in E. lra.
Qed.

Section StableSort.
Context {A : Type}.
Variable key : A -> number.

Let compare (a b : A) : number := key a - key b.
Let ascending (a b : A) : Prop := key a <= key b.

Lemma sortInsert_perm (x : A) (l : list A) :
  Permutation (x :: l) (sortInsert compare x l).
Proof.
  induction l as [|y l IH]; simpl; [reflexivity|].
  destruct (ltb 0 (compare x y)); [|reflexivity].
  rewrite perm_swap. now apply perm_skip.
Qed.

Lemma sort_perm (l : list A) : Permutation l (sort compare l).
Proof.
  induction l as [|x l IH]; simpl; [reflexivity|].
  rewrite <- sortInsert_perm. now apply perm_skip.
Qed.

Lemma sortInsert_sorted (x : A) (l : list A) :
  StronglySorted ascending l -> StronglySorted ascending (sortInsert compare x l).
Proof.
  induction 1 as [|y l Hsorted IH Hall]; simpl.
  - constructor; constructor.
  - destruct (ltb 0 (compare x y)) eqn:E.
    + apply ltb_true in E. unfold compare in E.
      constructor; [exact IH|].
      apply Forall_forall. intros z Hz.
      apply (Permutation_in _ (Permutation_sym (sortInsert_perm x l))) in Hz.
      destruct Hz as [<-|Hz].
      * unfold ascending. lra.
      * rewrite Forall_forall in Hall. now apply Hall.
    + apply ltb_false in E. unfold compare in E.
      constructor; [now constructor|].
      constructor; [unfold ascending; lra|].
      rewrite Forall_forall in Hall |- *. intros z Hz.
      specialize (Hall z Hz). unfold ascending in *. lra.
Qed.

Lemma sort_sorted (l : list A) : StronglySorted ascending (sort compare l).
Proof.
  induction l as [|x l IH]; simpl; [constructor|].
  now apply sortInsert_sorted.
Qed.

(** Stability: among the elements of one key the order is the original. *)
Lemma sortInsert_stable (k : number) (x : A) (l : list A) :
  filter (fun a => Qeq_bool (key a) k) (sortInsert compare x l)
  = filter (fun a => Qeq_bool (key a) k) (x :: l).
Proof.
  induction l as [|y l IH]; [reflexivity|].
  simpl sortInsert. destruct (ltb 0 (compare x y)) eqn:E; [|reflexivity].
  apply ltb_true in E. unfold compare in E.
  change (filter (fun a => Qeq_bool (key a) k) (y :: sortInsert compare x l))
    with (if Qeq_bool (key y) k
          then y :: filter (fun a => Qeq_bool (key a) k) (sortInsert compare x l)
          else filter (fun a => Qeq_bool (key a) k) (sortInsert compare x l)).
  rewrite IH. simpl.
  destruct (Qeq_bool (key x) k) eqn:Ex, (Qeq_bool (key y) k) eqn:Ey;
    try reflexivity.
  apply Qeq_bool_iff in Ex, Ey. lra.
Qed.

Lemma sort_stable (k : number) (l : list A) :
  filter (fun a => Qeq_bool (key a) k) (sort compare l)
  = filter (fun a => Qeq_bool (key a) k) l.
Proof.
  induction l as [|x l IH]; [reflexivity|].
  simpl sort. rewrite sortInsert_stable. simpl. now rewrite IH.
Qed.
End StableSort.

Lemma Permutation_filter {A : Type} (keep : A -> bool) (l l' : list A) :
  Permutation l l' -> Permutation (filter keep l) (filter keep l').
Proof.
  induction 1 as [|x l l' _ IH|x y l|l l' l'' _ IH1 _ IH2]; simpl.
  - constructor.
  - destruct (keep x); [now apply perm_skip | exact IH].
  - destruct (keep x), (keep y); try reflexivity. apply perm_swap.
  - now transitivity (filter keep l').
Qed.

Lemma filter_comm {A : Type} (f g : A -> bool) (l : list A) :
  filter f (filter g l) = filter g (filter f l).
Proof.
  induction l as [|x l IH]; simpl; [reflexivity|].
  destruct (f x) eqn:Ef, (g x) eqn:Eg; simpl; rewrite ?Ef, ?Eg, IH; reflexivity.
Qed.

(** ** The rule engine *)

Lemma applicableRulesOf_perm (rules : list PricingRule) (context : PricingContext) :
  Permutation (applicableRulesOf rules context)
    (filter (fun rule => rule_condition rule context) rules).
Proof.
  unfold applicableRulesOf. symmetry. apply (sort_perm rule_priority).
Qed.

Lemma applicableRulesOf_In (rules : list PricingRule) (context : PricingContext)
  (rule : PricingRule) :
  In rule (applicableRulesOf rules context)
  <-> In rule rules /\ rule_condition rule context = true.
Proof.
  split; intros H.
  - apply (filter_In (fun rule => rule_condition rule context)).
    apply (Permutation_in _ (applicableRulesOf_perm rules context) H).
  - apply (filter_In (fun rule => rule_condition rule context)) in H.
    apply (Permutation_in _ (Permutation_sym (applicableRulesOf_perm rules context)) H).
Qed.

Lemma applicableRulesOf_sorted (rules : list PricingRule) (context : PricingContext) :
  StronglySorted byAscendingPriority (applicableRulesOf rules context).
Proof. apply (sort_sorted rule_priority). Qed.

Lemma applicableRulesOf_stable (rules : list PricingRule) (context : PricingContext)
  (k : number) :
  filter (samePriority k) (applicableRulesOf rules context)
  = filter (samePriority k) (filter (fun rule => rule_condition rule context) rules).
Proof. apply (sort_stable rule_priority). Qed.

Lemma fold_applyRule (context : PricingContext) (rules : list PricingRule)
  (price : number) (applied : list AppliedRule) :
  fold_left (applyRule context) rules (price, applied)
  = (priceAfter context rules price,
     applied ++ recordsFrom context price rules).
Proof.
  revert price applied. induction rules as [|rule rules IH]; intros price applied.
  - simpl. now rewrite app_nil_r.
  - simpl. unfold applyRule at 2. simpl. unfold neqb.
    destruct (Qeq_bool (price - rule_apply rule price context) 0); simpl.
    + apply IH.
    + rewrite IH. unfold push. now rewrite <- app_assoc.
Qed.

Lemma applyRules_spec (rules : list PricingRule) (basePrice : number)
  (context : PricingContext) :
  applyRules rules basePrice context
  = {| finalPrice := Math_max 0 (priceAfter context rules basePrice);
       appliedRules := recordsFrom context basePrice rules |}.
Proof. unfold applyRules. now rewrite fold_applyRule. Qed.

Lemma recordsFrom_subseq (context : PricingContext) (rules : list PricingRule)
  (price : number) :
  subseq (map ruleId (recordsFrom context price rules)) (map rule_id rules).
Proof.
  revert price. induction rules as [|rule rules IH]; intros price; simpl.
  - constructor.
  - destruct (Qeq_bool (price - rule_apply rule price context) 0); simpl.
    + apply subseq_skip, IH.
    + apply subseq_take, IH.
Qed.

(** C3. The rules the engine runs are the rules of the table whose
    condition holds in the context, each as often as the table has it, in
    ascending priority, rules of one priority in their table order; the
    engine visits them in that order, and the applied-rule records it
    returns follow that order too.  The selection and the sort do the same
    on every rule table, among them tables in which rules of one priority
    hold together. *)
Theorem rules_applied_in_stable_priority_order
  (basePrice : number) (context : PricingContext) :
  let applicable := getApplicableRules context in
  let holds := fun rule => rule_condition rule context in
  (Permutation applicable (filter holds pricingRules)
   /\ (forall rule,
         In rule applicable <-> In rule pricingRules /\ holds rule = true)
   /\ StronglySorted byAscendingPriority applicable
   /\ (forall k,
         filter (samePriority k) applicable
         = filter (samePriority k) (filter holds pricingRules))
   /\ applyPricingRules basePrice context
      = {| finalPrice := Math_max 0 (priceAfter context applicable basePrice);
           appliedRules := recordsFrom context basePrice applicable |}
   /\ subseq (map ruleId (appliedRules (applyPricingRules basePrice context)))
        (map rule_id applicable))
  /\ applicable = applicableRulesOf pricingRules context
  /\ forall rules : list PricingRule,
       let applicableOf := applicableRulesOf rules context in
       Permutation applicableOf (filter holds rules)
       /\ (forall rule,
             In rule applicableOf <-> In rule rules /\ holds rule = true)
       /\ StronglySorted byAscendingPriority applicableOf
       /\ (forall k,
             filter (samePriority k) applicableOf
             = filter (samePriority k) (filter holds rules))
       /\ applyRules applicableOf basePrice context
          = {| finalPrice :=
                 Math_max 0 (priceAfter context applicableOf basePrice);
               appliedRules := recordsFrom context basePrice applicableOf |}
       /\ subseq
            (map ruleId (appliedRules (applyRules applicableOf basePrice context)))
            (map rule_id applicableOf).
Proof.
  cbv zeta. split; [|split; [reflexivity|]].
  - unfold applyPricingRules, getApplicableRules.
    split; [apply applicableRulesOf_perm|].
    split; [intros rule; apply applicableRulesOf_In|].
    split; [apply applicableRulesOf_sorted|].
    split; [intros k; apply applicableRulesOf_stable|].
    split; [apply applyRules_spec|].
    rewrite applyRules_spec. simpl. apply recordsFrom_subseq.
  - intros rules.
    split; [apply applicableRulesOf_perm|].
    split; [intros rule; apply applicableRulesOf_In|].
    split; [apply applicableRulesOf_sorted|].
    split; [intros k; apply applicableRulesOf_stable|].
    split; [apply applyRules_spec|].
    rewrite applyRules_spec. simpl. apply recordsFrom_subseq.
Qed.

(** C5. Whatever the base price, negative ones included, whatever the
    context and whatever the rules run, the final price of the engine is
    not below zero. *)
Theorem final_price_never_negative (basePrice : number) (context : PricingContext) :
  0 <= finalPrice (applyPricingRules basePrice context)
  /\ forall rules : list PricingRule,
       0 <= finalPrice (applyRules rules basePrice context).
Proof.
  assert (Hmax : forall x, 0 <= Math_max 0 x).
  { intros x. unfold Math_max. destruct (Qle_bool 0 x) eqn:E.
    - now apply Qle_bool_iff.
    - apply Qle_refl. }
  split; [|intros rules]; apply Hmax.
Qed.

(** ** Which rules leave a record *)

(** C4 as stated fails: a change of a tenth of a cent, which is zero at
    the cent level, is recorded.  One cent at quantity 5 gets the 10%
    volume discount. *)
Lemma cent_level_change_counterexample :
  ~ (forall (basePrice : number) (context : PricingContext)
       (before after : list PricingRule) (rule : PricingRule),
        getApplicableRules context = before ++ rule :: after ->
        let state := fold_left (applyRule context) before (basePrice, []) in
        let currentPrice := fst state in
        let newPrice := rule_apply rule currentPrice context in
        let record :=
          if Qeq_bool (round2 (newPrice - currentPrice)) 0 then []
          else [ {| ruleId := rule_id rule; ruleName := rule_name rule;
                    discountAmount := currentPrice - newPrice |} ] in
        fold_left (applyRule context) (before ++ [rule]) (basePrice, [])
        = (newPrice, snd state ++ record)).
Proof.
  intros H.
  specialize (H 0.01 (basicContext 5 None None) [] []
                volume_discount_10_percent eq_refl).
  vm_compute in H. discriminate H.
Qed.

(** ** The record test on binary64 numbers *)

Section Binary64Engine.
Local Open Scope float_scope.

Lemma SFeqb_same (s : bool) (m : positive) (e : Z) :
  SFeqb (S754_finite s m e) (S754_finite s m e) = true.
Proof.
  unfold SFeqb, SFcompare.
  rewrite Z.compare_refl, Pos.compare_cont_refl. now destruct s.
Qed.

Lemma SFeqb_finite (s1 s2 : bool) (m1 m2 : positive) (e1 e2 : Z) :
  SFeqb (S754_finite s1 m1 e1) (S754_finite s2 m2 e2) = true ->
  s1 = s2 /\ m1 = m2 /\ e1 = e2.
Proof.
  unfold SFeqb, SFcompare.
  destruct s1, s2; try discriminate;
    destruct (Z.compare_spec e1 e2) as [He|He|He]; try discriminate;
    destruct (Pos.compare_cont Eq m1 m2) eqn:Hm; try discriminate;
    intros _; apply Pos.compare_eq in Hm; auto.
Qed.

(** The difference of a finite number and itself, or a number equal to
    it, is zero. *)
Lemma finite_difference_zero (x y : float) :
  is_finite x = true -> (y =? x) = true -> (x - y =? 0) = true.
Proof.
  unfold is_finite, is_nan, is_infinity.
  rewrite !FloatAxioms.eqb_spec, sub_spec, abs_spec.
  replace (Prim2SF 0) with (S754_zero false) by reflexivity.
  replace (Prim2SF infinity) with (S754_infinity false) by reflexivity.
  destruct (Prim2SF x) as [sx|sx| |sx mx ex]; intros Hfin;
    try (destruct sx; discriminate Hfin); try discriminate Hfin;
    destruct (Prim2SF y) as [sy|sy| |sy my ey]; intros Heq;
      try discriminate Heq;
      try (destruct sx; destruct sy; (reflexivity || discriminate Heq));
      try (destruct sy; discriminate Heq).
  apply SFeqb_finite in Heq. destruct Heq as [-> [-> ->]].
  unfold SF64sub, SFsub. cbv zeta. rewrite Z.sub_diag. reflexivity.
Qed.

(** Whatever is taken from an infinite or NaN number, the difference is
    not zero. *)
Lemma non_finite_difference_nonzero (x y : float) :
  is_finite x = false -> (x - y =? 0) = false.
Proof.
  unfold is_finite, is_nan, is_infinity.
  rewrite !FloatAxioms.eqb_spec, sub_spec, abs_spec.
  replace (Prim2SF 0) with (S754_zero false) by reflexivity.
  replace (Prim2SF infinity) with (S754_infinity false) by reflexivity.
  destruct (Prim2SF x) as [sx|sx| |sx mx ex]; intros Hfin.
  - destruct sx; discriminate Hfin.
  - destruct (Prim2SF y) as [sy|sy| |sy my ey];
      destruct sx; try destruct sy; reflexivity.
  - reflexivity.
  - rewrite SFeqb_same in Hfin. destruct sx; discriminate Hfin.
Qed.

(** The difference of an infinite or NaN number and itself is NaN. *)
Lemma non_finite_difference_nan (x : float) :
  is_finite x = false -> x - x = nan.
Proof.
  intros Hfin. rewrite <- (SF2Prim_Prim2SF (x - x)), sub_spec.
  revert Hfin. unfold is_finite, is_nan, is_infinity.
  rewrite !FloatAxioms.eqb_spec, abs_spec.
  replace (Prim2SF infinity) with (S754_infinity false) by reflexivity.
  destruct (Prim2SF x) as [sx|sx| |sx mx ex]; intros Hfin.
  - destruct sx; discriminate Hfin.
  - destruct sx; reflexivity.
  - reflexivity.
  - rewrite SFeqb_same in Hfin. destruct sx; discriminate Hfin.
Qed.

Lemma applyRule_record (context : Binary64.PricingContext)
  (rule : Binary64.PricingRule) (price : Binary64.number)
  (applied : list Binary64.AppliedRule) :
  Binary64.applyRule context (price, applied) rule
  = (Binary64.rule_apply rule price context,
     applied
       ++ Binary64.recordOf rule price (Binary64.rule_apply rule price context)).
Proof.
  unfold Binary64.applyRule, Binary64.recordOf, Binary64.neqb, push. simpl.
  destruct (price - Binary64.rule_apply rule price context =? 0); simpl;
    [now rewrite app_nil_r | reflexivity].
Qed.

Lemma fold_applyRule_records (context : Binary64.PricingContext)
  (rules : list Binary64.PricingRule) (price : Binary64.number)
  (applied : list Binary64.AppliedRule) :
  exists later,
    fold_left (Binary64.applyRule context) rules (price, applied)
    = (Binary64.priceAfter context rules price, applied ++ later).
Proof.
  revert price applied. induction rules as [|rule rules IH]; intros price applied.
  - exists []. simpl. now rewrite app_nil_r.
  - simpl. rewrite applyRule_record.
    destruct (IH (Binary64.rule_apply rule price context)
                (applied ++ Binary64.recordOf rule price
                              (Binary64.rule_apply rule price context)))
      as [later Hlater].
    exists (Binary64.recordOf rule price (Binary64.rule_apply rule price context)
              ++ later).
    rewrite Hlater. now rewrite <- app_assoc.
Qed.

(** The engine at the moment it reaches a rule. *)
Lemma engine_reaches_rule
  (basePrice : Binary64.number) (context : Binary64.PricingContext)
  (before after : list Binary64.PricingRule) (rule : Binary64.PricingRule) :
  Binary64.getApplicableRules context = before ++ rule :: after ->
  let state := fold_left (Binary64.applyRule context) before (basePrice, []) in
  let newPrice := Binary64.rule_apply rule (fst state) context in
  fold_left (Binary64.applyRule context) (before ++ [rule]) (basePrice, [])
  = (newPrice, snd state ++ Binary64.recordOf rule (fst state) newPrice)
  /\ exists later,
       Binary64.appliedRules (Binary64.applyPricingRules basePrice context)
       = snd state ++ Binary64.recordOf rule (fst state) newPrice ++ later.
Proof.
  intros Hsplit. cbv zeta.
  destruct (fold_left (Binary64.applyRule context) before (basePrice, []))
    as [currentPrice applied] eqn:Hstate.
  simpl fst; simpl snd. split.
  - rewrite fold_left_app, Hstate. cbn [fold_left]. apply applyRule_record.
  - unfold Binary64.applyPricingRules. cbv zeta. rewrite Hsplit.
    rewrite fold_left_app, Hstate. cbn [fold_left]. rewrite applyRule_record.
    destruct (fold_applyRule_records context after
                (Binary64.rule_apply rule currentPrice context)
                (applied ++ Binary64.recordOf rule currentPrice
                              (Binary64.rule_apply rule currentPrice context)))
      as [later Hlater].
    exists later. rewrite Hlater. cbn [Binary64.appliedRules snd].
    now rewrite <- app_assoc.
Qed.

(** C4 (amended). In the engine on binary64 numbers, when a rule is
    reached with [currentPrice] the price the rules before it have produced,
    the rule is evaluated and the price becomes [newPrice]; the rule is
    recorded, with discount amount [currentPrice - newPrice], exactly when
    that difference as computed is not equal to zero, the test being exact
    with no tolerance at the cent level.  The records of the earlier rules
    come before it, those of the later rules after it.  At a finite
    [currentPrice] a rule that returns an equal price leaves no record; at
    an infinite or NaN [currentPrice] every rule reached is recorded. *)
Theorem rule_recorded_iff_difference_nonzero
  (basePrice : Binary64.number) (context : Binary64.PricingContext)
  (before after : list Binary64.PricingRule) (rule : Binary64.PricingRule) :
  Binary64.getApplicableRules context = before ++ rule :: after ->
  let state := fold_left (Binary64.applyRule context) before (basePrice, []) in
  let currentPrice := fst state in
  let newPrice := Binary64.rule_apply rule currentPrice context in
  let record :=
    if currentPrice - newPrice =? 0 then []
    else [ {| Binary64.ruleId := Binary64.rule_id rule;
              Binary64.ruleName := Binary64.rule_name rule;
              Binary64.discountAmount := currentPrice - newPrice |} ] in
  fold_left (Binary64.applyRule context) (before ++ [rule]) (basePrice, [])
  = (newPrice, snd state ++ record)
  /\ (exists later,
        Binary64.appliedRules (Binary64.applyPricingRules basePrice context)
        = snd state ++ record ++ later)
  /\ (is_finite currentPrice = true -> (newPrice =? currentPrice) = true ->
      record = [])
  /\ (is_finite currentPrice = false -> record <> []).
Proof.
  intros Hsplit. cbv zeta.
  pose proof (engine_reaches_rule basePrice context before after rule Hsplit)
    as Hreach.
  cbv zeta in Hreach. unfold Binary64.recordOf in Hreach.
  destruct Hreach as [Hturn Hall].
  split; [exact Hturn|]. split; [exact Hall|]. split.
  - intros Hfin Hsame. now rewrite (finite_difference_zero _ _ Hfin Hsame).
  - intros Hfin. rewrite (non_finite_difference_nonzero _ _ Hfin). discriminate.
Qed.

(** C4 on the catalog: five basic servers at an enterprise price; the
    enterprise discount has run when the 10% volume discount is reached. *)
Lemma rule_recorded_iff_difference_nonzero_witness :
  fold_left
    (Binary64.applyRule
       (contextOnBinary64 cloud_server_basic 5 (Some "enterprise") None None))
    ([Binary64.enterprise_tier_discount] ++ [Binary64.volume_discount_10_percent])
    (250, [])
  = (191.25,
     [ {| Binary64.ruleId := "enterprise-tier-discount";
          Binary64.ruleName := "Enterprise Tier Discount";
          Binary64.discountAmount := 37.5 |} ]
       ++ [ {| Binary64.ruleId := "volume-discount-10-percent";
               Binary64.ruleName := "Volume Discount - 10%";
               Binary64.discountAmount := 21.25 |} ]).
Proof.
  exact (proj1 (rule_recorded_iff_difference_nonzero 250
           (contextOnBinary64 cloud_server_basic 5 (Some "enterprise") None None)
           [Binary64.enterprise_tier_discount] []
           Binary64.volume_discount_10_percent eq_refl)).
Defined.

(** A subtraction the float does not see: 1000 off a price of 1e20 returns
    1e20, and the early-bird rule leaves no record. *)
Example early_bird_lost_in_rounding :
  Binary64.applyPricingRules 1e20
    (contextOnBinary64 professional_services 1 None None
       (Some [("earlyBird", JBool true)]))
  = {| Binary64.finalPrice := 1e20; Binary64.appliedRules := [] |}
  /\ map Binary64.rule_id
       (Binary64.getApplicableRules
          (contextOnBinary64 professional_services 1 None None
             (Some [("earlyBird", JBool true)])))
     = ["professional-services-early-bird"].
Proof. split; reflexivity. Qed.

(** One cent at quantity 5: the 10% discount changes the price by less than
    half a cent and is recorded. *)
Example tenth_of_a_cent_is_recorded :
  exists amount,
    Binary64.appliedRules
      (Binary64.applyPricingRules 0.01
         (contextOnBinary64 cloud_server_basic 5 None None None))
    = [ {| Binary64.ruleId := "volume-discount-10-percent";
           Binary64.ruleName := "Volume Discount - 10%";
           Binary64.discountAmount := amount |} ]
    /\ (0 <? amount) = true /\ (amount <? 0.005) = true.
Proof. eexists. repeat split; reflexivity. Qed.

(** An infinite price: the rules reached are recorded with NaN, and the
    final price is infinite. *)
Example infinite_price_records_every_rule :
  Binary64.applyPricingRules ((50 + 0) * 1e308)
    (contextOnBinary64 cloud_server_basic 1e308 None (Some "us-west") None)
  = {| Binary64.finalPrice := infinity;
       Binary64.appliedRules :=
         [ {| Binary64.ruleId := "volume-discount-20-percent";
              Binary64.ruleName := "Volume Discount - 20%";
              Binary64.discountAmount := nan |};
           {| Binary64.ruleId := "region-pricing-us-west";
              Binary64.ruleName := "US West Region Standard Pricing";
              Binary64.discountAmount := nan |} ] |}.
Proof. reflexivity. Qed.
(** The catalog on binary64 numbers: the prices are the integers of the
    source. *)
Example catalog_prices_on_binary64 :
  map Binary64.product_basePrice (map productOnBinary64 products)
  = [50; 150; 80; 5000]
  /\ map Binary64.option_price
       (Binary64.product_options (productOnBinary64 cloud_server_basic))
     = [20; 50; 15; 60; 25; 10]
  /\ Binary64.ofLiteral 0.9%Q = 0.9 /\ Binary64.ofLiteral 1.08%Q = 1.08.
Proof. repeat split; reflexivity. Qed.
End Binary64Engine.

(** ** The volume discounts *)

Lemma volume_rules_of_table :
  filter isVolumeRule pricingRules
  = [volume_discount_10_percent; volume_discount_20_percent].
Proof. reflexivity. Qed.

Lemma volume_rules_fired (context : PricingContext) :
  Permutation (filter isVolumeRule (getApplicableRules context))
    (filter (fun rule => rule_condition rule context)
       [volume_discount_10_percent; volume_discount_20_percent]).
Proof.
  rewrite <- volume_rules_of_table, filter_comm.
  apply Permutation_filter, applicableRulesOf_perm.
Qed.

(** C6. For the item being priced: a quantity from 1 up to but excluding
    5 makes no volume-discount rule applicable; from 5 up to but excluding
    10 exactly the 10% rule; from 10 on exactly the 20% rule, the 10% rule
    not being applicable with it. *)
Theorem volume_rules_mutually_exclusive (context : PricingContext) :
  let q := quantity (configuration context) in
  let fired := map rule_id (filter isVolumeRule (getApplicableRules context)) in
  (1 <= q < 5 -> fired = [])
  /\ (5 <= q < 10 -> fired = ["volume-discount-10-percent"])
  /\ (10 <= q -> fired = ["volume-discount-20-percent"]).
Proof.
  cbv zeta. pose proof (volume_rules_fired context) as Hperm.
  simpl in Hperm. unfold geb, ltb in Hperm.
  split; [|split]; intros Hq.
  - assert (E5 : Qle_bool 5 (quantity (configuration context)) = false).
    { apply geb_false. lra. }
    assert (E10 : Qle_bool 10 (quantity (configuration context)) = false).
    { apply geb_false. lra. }
    rewrite E5, E10 in Hperm. simpl in Hperm.
    apply Permutation_sym, Permutation_nil in Hperm. now rewrite Hperm.
  - assert (E5 : Qle_bool 5 (quantity (configuration context)) = true).
    { apply Qle_bool_iff. lra. }
    assert (E10 : Qle_bool 10 (quantity (configuration context)) = false).
    { apply geb_false. lra. }
    rewrite E5, E10 in Hperm. simpl in Hperm.
    apply Permutation_sym, Permutation_length_1_inv in Hperm. now rewrite Hperm.
  - assert (E10 : Qle_bool 10 (quantity (configuration context)) = true).
    { apply Qle_bool_iff. lra. }
    rewrite E10 in Hperm. rewrite andb_false_r in Hperm. simpl in Hperm.
    apply Permutation_sym, Permutation_length_1_inv in Hperm. now rewrite Hperm.
Qed.

(** C6 at quantities 3, 7 and 12. *)
Lemma volume_rules_mutually_exclusive_witness :
  map rule_id (filter isVolumeRule (getApplicableRules (basicContext 3 None None)))
  = []
  /\ map rule_id
       (filter isVolumeRule (getApplicableRules (basicContext 7 None None)))
     = ["volume-discount-10-percent"]
  /\ map rule_id
       (filter isVolumeRule (getApplicableRules (basicContext 12 None None)))
     = ["volume-discount-20-percent"].
Proof.
  split; [|split].
  - apply (proj1 (volume_rules_mutually_exclusive (basicContext 3 None None))).
    simpl. lra.
  - apply (proj1 (proj2
             (volume_rules_mutually_exclusive (basicContext 7 None None)))).
    simpl. lra.
  - apply (proj2 (proj2
             (volume_rules_mutually_exclusive (basicContext 12 None None)))).
    simpl. lra.
Defined.

(** ** Computations that may throw *)

Section MapM.
Context {A B : Type}.

Lemma mapM_Forall2 (f : A -> Result B) (l : list A) (ys : list B) :
  mapM f l = Ok ys -> Forall2 (fun x y => f x = Ok y) l ys.
Proof.
  revert ys. induction l as [|x l IH]; intros ys H; simpl in H.
  - injection H as <-. constructor.
  - destruct (f x) as [y|m] eqn:Hx; simpl in H; [|discriminate].
    destruct (mapM f l) as [ys'|m]; simpl in H; [|discriminate].
    injection H as <-. constructor; [exact Hx | now apply IH].
Qed.

Lemma mapM_total (f : A -> Result B) (l : list A) :
  (forall x, In x l -> exists y, f x = Ok y) -> exists ys, mapM f l = Ok ys.
Proof.
  induction l as [|x l IH]; intros H; simpl.
  - now exists [].
  - destruct (H x (or_introl eq_refl)) as [y Hy]. rewrite Hy. simpl.
    destruct IH as [ys Hys]; [intros z Hz; apply H; now right|].
    rewrite Hys. simpl. now exists (y :: ys).
Qed.

(** An indexed map succeeds when its callback does at every position. *)
Lemma mapiM_total (f : A -> nat -> Result B) (l : list A) (i : nat) :
  (forall k x, nth_error l k = Some x -> exists y, f x (i + k)%nat = Ok y) ->
  exists ys, mapiM f i l = Ok ys.
Proof.
  revert i. induction l as [|x l IH]; intros i H; simpl.
  - now exists [].
  - destruct (H 0%nat x eq_refl) as [y Hy]. rewrite Nat.add_0_r in Hy.
    rewrite Hy. simpl.
    destruct (IH (S i)) as [ys Hys].
    { intros k z Hk. destruct (H (S k) z Hk) as [w Hw]. exists w.
      now rewrite Nat.add_succ_comm. }
    rewrite Hys. simpl. now exists (y :: ys).
Qed.

(** What an indexed map returns, position by position. *)
Lemma mapiM_Forall2 (f : A -> nat -> Result B) (l : list A) (i : nat)
  (ys : list B) :
  mapiM f i l = Ok ys ->
  List.length ys = List.length l
  /\ forall k x, nth_error l k = Some x ->
       exists y, nth_error ys k = Some y /\ f x (i + k)%nat = Ok y.
Proof.
  revert i ys. induction l as [|x l IH]; intros i ys H; simpl in H.
  - injection H as <-. split; [reflexivity|]. intros [|k] x Hk; discriminate.
  - destruct (f x i) as [y|m] eqn:Hx; simpl in H; [|discriminate].
    destruct (mapiM f (S i) l) as [ys'|m] eqn:Hl; simpl in H; [|discriminate].
    injection H as <-. destruct (IH _ _ Hl) as [Hlen Hnth].
    split; [simpl; now rewrite Hlen|].
    intros [|k] z Hk; simpl in Hk.
    + injection Hk as <-. exists y. rewrite Nat.add_0_r. now split.
    + destruct (Hnth k z Hk) as [w [Hw Hf]]. exists w.
      rewrite <- Nat.add_succ_comm. now split.
Qed.
End MapM.

Lemma Forall2_length_eq {A B : Type} (R : A -> B -> Prop) (l : list A)
  (l' : list B) :
  Forall2 R l l' -> List.length l = List.length l'.
Proof. induction 1; simpl; congruence. Qed.

(** Two lists of one length agree under two maps when they do at every
    position. *)
Lemma map_eq_by_position {A B C : Type} (f : A -> C) (g : B -> C)
  (l : list A) (l' : list B) :
  List.length l = List.length l' ->
  (forall k x, nth_error l k = Some x ->
     exists y, nth_error l' k = Some y /\ f x = g y) ->
  map f l = map g l'.
Proof.
  revert l'. induction l as [|x l IH]; intros [|y l'] Hlen H;
    try discriminate; [reflexivity|].
  simpl. f_equal.
  - destruct (H 0%nat x eq_refl) as [z [Hz Hfg]]. simpl in Hz.
    injection Hz as <-. exact Hfg.
  - apply IH; [simpl in Hlen; congruence|].
    intros k z Hk. apply (H (S k) z Hk).
Qed.

(** ** Configurator, pricer and quoter *)

Lemma validItem_known (c : ConfigurationItem) :
  validItem c = true -> exists p, getProductById (productId c) = Some p.
Proof.
  unfold validItem, validateConfiguration.
  destruct (getProductById (productId c)) as [p|]; [now exists p|].
  simpl. discriminate.
Qed.

Lemma validateConfigurations_isValid (configurations : list ConfigurationItem) :
  batch_isValid (validateConfigurations configurations)
  = forallb validItem configurations.
Proof.
  unfold validateConfigurations. simpl.
  induction configurations as [|c l IH]; simpl; [reflexivity|].
  now rewrite IH.
Qed.

Lemma validationFailure_spec (configurations : list ConfigurationItem) :
  validationFailure (validateConfigurations configurations)
  = ("Configuration validation failed: "
       ++ join "; "
            (map failureEntry
               (filter (fun c => negb (validItem c)) configurations)))%string.
Proof.
  unfold validationFailure, validateConfigurations.
  cbv zeta. cbn [results]. do 2 f_equal.
  induction configurations as [|c l IH]; [reflexivity|].
  cbn [map filter validation isValid]. fold (validItem c).
  destruct (validItem c); cbn [negb map]; [exact IH|].
  f_equal. exact IH.
Qed.

Lemma addOptionPrices_found (p : Product) (selected : list string)
  (total : number) :
  addOptionPrices p selected total
  = fold_left Qplus (map option_price (foundOptions p selected)) total.
Proof.
  unfold addOptionPrices, foundOptions. revert total.
  induction selected as [|s l IH]; intros total; simpl; [reflexivity|].
  rewrite IH, map_app, fold_left_app.
  now destruct (findOption p s).
Qed.

Lemma calculateBasePrice_known (c : ConfigurationItem) (p : Product) :
  getProductById (productId c) = Some p ->
  calculateBasePrice c
  = Ok (fold_left Qplus
          (map option_price (foundOptions p (selectedOptions c)))
          (product_basePrice p)
        * quantity c).
Proof.
  intros Hp. unfold calculateBasePrice. rewrite Hp.
  now rewrite addOptionPrices_found.
Qed.

Lemma calculatePrice_known (c : ConfigurationItem) (p : Product)
  (all : list ConfigurationItem) (tier reg : option string)
  (fields : option JsObject) :
  getProductById (productId c) = Some p ->
  exists basePrice,
    calculateBasePrice c = Ok basePrice
    /\ calculatePrice c all tier reg fields
       = let context :=
           {| product := p; configuration := c; allConfigurations := all;
              customerTier := tier; region := reg; customFields := fields |} in
         Ok {| price_basePrice := basePrice;
               price_finalPrice :=
                 finalPrice (applyPricingRules basePrice context);
               price_appliedRules :=
                 appliedRules (applyPricingRules basePrice context) |}.
Proof.
  intros Hp. unfold calculatePrice. rewrite Hp.
  rewrite (calculateBasePrice_known c p Hp).
  eexists. split; reflexivity.
Qed.

Lemma calculateTotalPrice_total (configurations : list ConfigurationItem)
  (tier reg : option string) (fields : option JsObject) :
  forallb validItem configurations = true ->
  exists pricing,
    calculateTotalPrice configurations tier reg fields = Ok pricing
    /\ List.length (items pricing) = List.length configurations.
Proof.
  intros Hvalid. unfold calculateTotalPrice.
  set (priceItem := fun config : ConfigurationItem => _).
  destruct (mapM_total priceItem configurations) as [priced Hpriced].
  { intros c Hc. rewrite forallb_forall in Hvalid.
    destruct (validItem_known c (Hvalid c Hc)) as [p Hp].
    destruct (calculatePrice_known c p configurations tier reg fields Hp)
      as [basePrice [_ Hprice]].
    unfold priceItem. rewrite Hprice. eexists. reflexivity. }
  rewrite Hpriced. simpl. eexists. split; [reflexivity|]. simpl.
  symmetry. apply (Forall2_length_eq _ _ _ (mapM_Forall2 _ _ _ Hpriced)).
Qed.

Lemma calculateTotalPrice_length (configurations : list ConfigurationItem)
  (tier reg : option string) (fields : option JsObject) (pricing : TotalPrice) :
  calculateTotalPrice configurations tier reg fields = Ok pricing ->
  List.length (items pricing) = List.length configurations.
Proof.
  unfold calculateTotalPrice.
  set (priceItem := fun config : ConfigurationItem => _).
  destruct (mapM priceItem configurations) as [priced|m] eqn:Hpriced;
    simpl; [|discriminate].
  intros H. injection H as <-. simpl.
  symmetry. apply (Forall2_length_eq _ _ _ (mapM_Forall2 _ _ _ Hpriced)).
Qed.

Lemma buildLineItem_known (pricing : TotalPrice) (c : ConfigurationItem)
  (index : nat) (p : Product) (priced : PricedItem) :
  getProductById (productId c) = Some p ->
  nth_error (items pricing) index = Some priced ->
  exists line,
    buildLineItem pricing c index = Ok line
    /\ line_productId line = productId c
    /\ line_selectedOptions line
       = selectedOptionsDetails p (selectedOptions c)
    /\ line_total line = item_finalPrice priced.
Proof.
  intros Hp Hnth. unfold buildLineItem. rewrite Hp, Hnth.
  eexists. split; [reflexivity|]. simpl. auto.
Qed.

Lemma buildLineItem_inv (pricing : TotalPrice) (c : ConfigurationItem)
  (index : nat) (line : QuoteLineItem) :
  buildLineItem pricing c index = Ok line ->
  line_productId line = productId c
  /\ exists priced,
       nth_error (items pricing) index = Some priced
       /\ line_total line = item_finalPrice priced.
Proof.
  unfold buildLineItem.
  destruct (getProductById (productId c)) as [p|]; [|discriminate].
  destruct (nth_error (items pricing) index) as [priced|]; [|discriminate].
  intros H. injection H as <-. simpl. split; [reflexivity|].
  now exists priced.
Qed.

(** What a successful [generateQuote] went through. *)
Lemma generateQuote_inv (uuid now : string)
  (configurations : list ConfigurationItem) (tier reg : option string)
  (fields : option JsObject) (taxRate : option number) (q : Quote) :
  generateQuote uuid now configurations tier reg fields taxRate = Ok q ->
  forallb validItem configurations = true
  /\ exists pricing lineItems,
       calculateTotalPrice configurations tier reg fields = Ok pricing
       /\ mapiM (buildLineItem pricing) 0%nat configurations = Ok lineItems
       /\ q = {| quote_id := uuid;
                 quote_createdAt := now;
                 quote_lineItems := lineItems;
                 quote_subtotal := totalBasePrice pricing;
                 quote_totalDiscounts := totalDiscount pricing;
                 quote_tax := taxOf (totalFinalPrice pricing) taxRate;
                 quote_total :=
                   round2 (totalOf (totalFinalPrice pricing)
                             (taxOf (totalFinalPrice pricing) taxRate));
                 quote_metadata := quoteMetadata tier reg fields taxRate |}.
Proof.
  unfold generateQuote. rewrite validateConfigurations_isValid.
  destruct (forallb validItem configurations); cbn [negb]; [|discriminate].
  destruct (calculateTotalPrice configurations tier reg fields)
    as [pricing|m] eqn:Hpricing; cbn [bind]; [|discriminate].
  destruct (mapiM (buildLineItem pricing) 0%nat configurations)
    as [lineItems|m] eqn:Hlines; cbn [bind]; [|discriminate].
  intros H. injection H as <-. split; [reflexivity|].
  exists pricing, lineItems. split; [reflexivity|]. split; [exact Hlines|].
  reflexivity.
Qed.

(** A quote is produced whenever every item is valid. *)
Lemma generateQuote_total (uuid now : string)
  (configurations : list ConfigurationItem) (tier reg : option string)
  (fields : option JsObject) (taxRate : option number) :
  forallb validItem configurations = true ->
  exists q, generateQuote uuid now configurations tier reg fields taxRate = Ok q.
Proof.
  intros Hvalid. unfold generateQuote.
  rewrite validateConfigurations_isValid, Hvalid. simpl.
  destruct (calculateTotalPrice_total configurations tier reg fields Hvalid)
    as [pricing [Hpricing Hlen]].
  rewrite Hpricing. simpl.
  destruct (mapiM_total (buildLineItem pricing) configurations 0)
    as [lineItems Hlines].
  { intros k c Hk. simpl.
    assert (Hin : In c configurations) by (eapply nth_error_In; eassumption).
    rewrite forallb_forall in Hvalid.
    destruct (validItem_known c (Hvalid c Hin)) as [p Hp].
    destruct (nth_error (items pricing) k) as [priced|] eqn:Hpriced.
    - destruct (buildLineItem_known pricing c k p priced Hp Hpriced)
        as [line [Hline _]].
      now exists line.
    - apply nth_error_None in Hpriced.
      assert (k < List.length configurations)%nat
        by (apply nth_error_Some; congruence).
      lia. }
  rewrite Hlines. simpl. eexists. reflexivity.
Qed.

(** The totals of the lines of a quote are the final prices of the pricer. *)
Lemma lineItems_totals (pricing : TotalPrice)
  (configurations : list ConfigurationItem) (lineItems : list QuoteLineItem) :
  List.length (items pricing) = List.length configurations ->
  mapiM (buildLineItem pricing) 0%nat configurations = Ok lineItems ->
  map line_total lineItems = map item_finalPrice (items pricing)
  /\ map line_productId lineItems = map productId configurations.
Proof.
  intros Hlen Hlines.
  destruct (mapiM_Forall2 _ _ _ _ Hlines) as [Hlen' Hnth]. split.
  - apply map_eq_by_position; [congruence|].
    intros k line Hk.
    destruct (nth_error configurations k) as [c|] eqn:Hc.
    + destruct (Hnth k c Hc) as [line' [Hline' Hbuild]].
      rewrite Hk in Hline'. injection Hline' as <-.
      apply buildLineItem_inv in Hbuild.
      destruct Hbuild as [_ [priced [Hpriced Htotal]]].
      exists priced. now split.
    + apply nth_error_None in Hc.
      assert (k < List.length lineItems)%nat by (apply nth_error_Some; congruence).
      lia.
  - symmetry. apply map_eq_by_position; [congruence|].
    intros k c Hc. destruct (Hnth k c Hc) as [line [Hline Hbuild]].
    apply buildLineItem_inv in Hbuild. destruct Hbuild as [Hid _].
    exists line. now split.
Qed.

Lemma fold_sum_map {A : Type} (f : A -> number) (l : list A) (start : number) :
  fold_left (fun sum x => sum + f x) l start = fold_left Qplus (map f l) start.
Proof.
  revert start. induction l as [|x l IH]; intros start; simpl;
    [reflexivity | apply IH].
Qed.

(** C7. [generateQuote] is all or nothing.  The batch validation is valid
    exactly when every item is; the call then returns a quote, one line per
    item; otherwise, that is when at least one item is invalid, it fails
    with the message that lists, for each failing product in turn, its id
    and its error messages. *)
Theorem quote_is_all_or_nothing (uuid now : string)
  (configurations : list ConfigurationItem) (tier reg : option string)
  (fields : option JsObject) (taxRate : option number) :
  batch_isValid (validateConfigurations configurations)
  = forallb validItem configurations
  /\ match generateQuote uuid now configurations tier reg fields taxRate with
     | Ok q =>
         forallb validItem configurations = true
         /\ map line_productId (quote_lineItems q) = map productId configurations
     | Error msg =>
         existsb (fun c => negb (validItem c)) configurations = true
         /\ msg
            = ("Configuration validation failed: "
                 ++ join "; "
                      (map failureEntry
                         (filter (fun c => negb (validItem c)) configurations)))%string
     end.
Proof.
  split; [apply validateConfigurations_isValid|].
  destruct (forallb validItem configurations) eqn:Hvalid.
  - destruct (generateQuote_total uuid now configurations tier reg fields
                taxRate Hvalid) as [q Hq].
    rewrite Hq. split; [reflexivity|].
    destruct (generateQuote_inv _ _ _ _ _ _ _ _ Hq)
      as [_ [pricing [lineItems [Hpricing [Hlines ->]]]]].
    simpl. apply (lineItems_totals pricing); [|exact Hlines].
    now apply calculateTotalPrice_length in Hpricing.
  - unfold generateQuote. rewrite validateConfigurations_isValid, Hvalid.
    simpl. split; [|apply validationFailure_spec].
    clear -Hvalid. induction configurations as [|c l IH]; [discriminate|].
    simpl in *. destruct (validItem c); simpl in *; [now apply IH | reflexivity].
Qed.

(** ** Unknown option ids *)

Lemma foundOptions_known_only (p : Product) (selected : list string) :
  foundOptions p
    (filter (hasOption p) selected)
  = foundOptions p selected.
Proof.
  unfold foundOptions. induction selected as [|s l IH]; [reflexivity|].
  cbn [filter flat_map]. unfold hasOption at 1.
  destruct (findOption p s) as [opt|] eqn:Hs.
  - cbn [flat_map]. now rewrite Hs, IH.
  - exact IH.
Qed.

(** C9. On a known product, selected ids that the product does not have
    never make pricing fail and add nothing to the price: the base price is
    the product's price plus the prices of the options found, times the
    quantity, the same as for the selection without the unknown ids;
    [calculatePrice] returns; and the line item is built, reporting an
    unknown id with its raw id as name and price 0. *)
Theorem unknown_options_cost_nothing (c : ConfigurationItem) (p : Product) :
  getProductById (productId c) = Some p ->
  calculateBasePrice c
  = Ok (fold_left Qplus
          (map option_price (foundOptions p (selectedOptions c)))
          (product_basePrice p)
        * quantity c)
  /\ calculateBasePrice c
     = calculateBasePrice
         (item (productId c)
            (filter (hasOption p) (selectedOptions c))
            (quantity c))
  /\ (forall all tier reg fields,
        exists priced, calculatePrice c all tier reg fields = Ok priced)
  /\ (forall pricing index priced,
        nth_error (items pricing) index = Some priced ->
        exists line,
          buildLineItem pricing c index = Ok line
          /\ line_selectedOptions line
             = selectedOptionsDetails p (selectedOptions c))
  /\ (forall k optionId,
        nth_error (selectedOptions c) k = Some optionId ->
        findOption p optionId = None ->
        nth_error (selectedOptionsDetails p (selectedOptions c)) k
        = Some {| detail_id := optionId; detail_name := optionId;
                  detail_price := 0 |}).
Proof.
  intros Hp. split; [now apply calculateBasePrice_known|].
  split; [|split; [|split]].
  - rewrite (calculateBasePrice_known c p Hp).
    rewrite (calculateBasePrice_known (item _ _ _) p Hp). simpl.
    now rewrite foundOptions_known_only.
  - intros all tier reg fields.
    destruct (calculatePrice_known c p all tier reg fields Hp)
      as [basePrice [_ Hprice]].
    rewrite Hprice. eexists. reflexivity.
  - intros pricing index priced Hpriced.
    destruct (buildLineItem_known pricing c index p priced Hp Hpriced)
      as [line [Hline [_ [Hdetails _]]]].
    now exists line.
  - intros k optionId Hk Hnone. unfold selectedOptionsDetails.
    rewrite nth_error_map, Hk. simpl. now rewrite Hnone.
Qed.

(** C9 on the catalog: two basic servers with the 8GB upgrade and an id
    the product does not have. *)
Lemma unknown_options_cost_nothing_witness :
  calculateBasePrice
    (item "cloud-server-basic" ["ram-8gb"; "no-such-option"] 2)
  = Ok (fold_left Qplus
          (map option_price
             (foundOptions cloud_server_basic ["ram-8gb"; "no-such-option"]))
          50
        * 2)
  /\ nth_error
       (selectedOptionsDetails cloud_server_basic ["ram-8gb"; "no-such-option"])
       1
     = Some {| detail_id := "no-such-option"; detail_name := "no-such-option";
               detail_price := 0 |}.
Proof.
  pose proof (unknown_options_cost_nothing
                (item "cloud-server-basic" ["ram-8gb"; "no-such-option"] 2)
                cloud_server_basic eq_refl) as H.
  split.
  - exact (proj1 H).
  - exact (proj2 (proj2 (proj2 (proj2 H))) 1%nat "no-such-option"
             eq_refl eq_refl).
Defined.

(** ** Tax and totals *)

Lemma calculateTotalPrice_totals (configurations : list ConfigurationItem)
  (tier reg : option string) (fields : option JsObject) (pricing : TotalPrice) :
  calculateTotalPrice configurations tier reg fields = Ok pricing ->
  totalBasePrice pricing
  = fold_left Qplus (map item_basePrice (items pricing)) 0
  /\ totalFinalPrice pricing
     = fold_left Qplus (map item_finalPrice (items pricing)) 0
  /\ totalDiscount pricing = totalBasePrice pricing - totalFinalPrice pricing.
Proof.
  unfold calculateTotalPrice.
  set (priceItem := fun config : ConfigurationItem => _).
  destruct (mapM priceItem configurations) as [priced|m]; cbn [bind];
    [|discriminate].
  intros H. injection H as <-.
  cbn [items totalBasePrice totalFinalPrice totalDiscount].
  rewrite (fold_sum_map item_basePrice), (fold_sum_map item_finalPrice).
  split; [reflexivity|]. split; reflexivity.
Qed.

Lemma preTaxTotalOf_quote (uuid now : string)
  (configurations : list ConfigurationItem) (tier reg : option string)
  (fields : option JsObject) (taxRate : option number) (q : Quote) :
  generateQuote uuid now configurations tier reg fields taxRate = Ok q ->
  quote_tax q = taxOf (preTaxTotalOf q) taxRate
  /\ quote_total q
     = round2 (totalOf (preTaxTotalOf q) (taxOf (preTaxTotalOf q) taxRate)).
Proof.
  intros Hq.
  destruct (generateQuote_inv _ _ _ _ _ _ _ _ Hq)
    as [_ [pricing [lineItems [Hpricing [Hlines ->]]]]].
  unfold preTaxTotalOf. cbn [quote_lineItems quote_tax quote_total].
  destruct (calculateTotalPrice_totals _ _ _ _ _ Hpricing) as [_ [Hfinal _]].
  apply calculateTotalPrice_length in Hpricing.
  destruct (lineItems_totals pricing configurations lineItems Hpricing Hlines)
    as [Htotals _].
  rewrite (fold_sum_map line_total), Htotals, <- Hfinal. split; reflexivity.
Qed.

Lemma round2_comp (x y : number) : x == y -> round2 x == round2 y.
Proof.
  intros H. unfold round2, Math_round.
  assert (E : Qfloor (x * 100 + (1 # 2)) = Qfloor (y * 100 + (1 # 2))).
  { apply Qfloor_comp. now rewrite H. }
  now rewrite E.
Qed.

(** C1 fails in the code at a supplied tax rate of 0.  [generateQuote]
    tests the rate for truthiness ([taxRate ? ... : undefined]), so a rate
    of 0 is handled as if none were supplied: whatever the request, the
    quote returned has no tax field, where a tax of the pre-tax total times
    0 is due, while the metadata of the quote report the rate of 0 as
    supplied. *)
Theorem zero_tax_rate_omits_tax (uuid now : string)
  (configurations : list ConfigurationItem) (tier reg : option string)
  (fields : option JsObject) (rate : number) (q : Quote) :
  rate == 0 ->
  generateQuote uuid now configurations tier reg fields (Some rate) = Ok q ->
  quote_tax q = None
  /\ quote_tax q <> Some (preTaxTotalOf q * rate)
  /\ (fields = None ->
      obj_get (quote_metadata q) "taxRate" = Some (JNum rate)).
Proof.
  intros Hrate Hq.
  destruct (preTaxTotalOf_quote _ _ _ _ _ _ _ _ Hq) as [Htax _].
  assert (Hnone : taxOf (preTaxTotalOf q) (Some rate) = None).
  { cbn [taxOf]. unfold truthy.
    apply Qeq_bool_iff in Hrate. now rewrite Hrate. }
  rewrite Hnone in Htax.
  split; [exact Htax|]. split; [rewrite Htax; discriminate|].
  intros ->.
  destruct (generateQuote_inv _ _ _ _ _ _ _ _ Hq)
    as [_ [pricing [lineItems [_ [_ ->]]]]].
  reflexivity.
Qed.

(** C1 at the failing request: one basic server, tax rate 0.  The quote has
    no tax field and a total of 50; its metadata hold the rate 0. *)
Lemma zero_tax_rate_omits_tax_witness :
  exists q,
    generateQuote "id" "now" [item "cloud-server-basic" [] 1]
      None None None (Some 0) = Ok q
    /\ quote_tax q = None
    /\ quote_tax q <> Some (preTaxTotalOf q * 0)
    /\ quote_total q == 50
    /\ obj_get (quote_metadata q) "taxRate" = Some (JNum 0).
Proof.
  destruct (generateQuote "id" "now" [item "cloud-server-basic" [] 1]
              None None None (Some 0)) as [q|m] eqn:Hq;
    [|vm_compute in Hq; discriminate Hq].
  exists q. split; [reflexivity|].
  destruct (zero_tax_rate_omits_tax _ _ _ _ _ _ 0 q (Qeq_refl 0) Hq)
    as [Htax [Hdiff Hmeta]].
  split; [exact Htax|]. split; [exact Hdiff|].
  split; [|exact (Hmeta eq_refl)].
  vm_compute in Hq. injection Hq as <-. reflexivity.
Defined.

(** ** The empty quote *)

(** C10. With no configuration at all the core does not fail: the batch
    validation of zero items is valid, and [generateQuote] returns a quote
    with no line, subtotal 0, total discounts 0 and total 0, whatever the
    tax rate, and without tax when no rate is given.  It is the route that
    turns an empty list down, by its body schema and, in the handler, by
    the request schema. *)
Theorem empty_quote_is_produced (uuid now : string) (tier reg : option string)
  (fields : option JsObject) (taxRate : option number) :
  batch_isValid (validateConfigurations []) = true
  /\ (exists q,
        generateQuote uuid now [] tier reg fields taxRate = Ok q
        /\ quote_lineItems q = []
        /\ quote_subtotal q == 0
        /\ quote_totalDiscounts q == 0
        /\ quote_total q == 0)
  /\ (exists q,
        generateQuote uuid now [] tier reg fields None = Ok q
        /\ quote_tax q = None)
  /\ quoteHandler uuid now [] tier reg fields taxRate
     = BadRequestIssues ["At least one configuration is required"]
  /\ quoteRoute uuid now [] tier reg fields taxRate = BodyRejected.
Proof.
  split; [reflexivity|]. split; [|split; [|split; reflexivity]].
  - eexists. split; [reflexivity|]. cbn [quote_lineItems quote_subtotal
      quote_totalDiscounts quote_total totalBasePrice totalDiscount
      totalFinalPrice].
    split; [reflexivity|]. split; [reflexivity|]. split; [reflexivity|].
    destruct taxRate as [rate|]; [|reflexivity].
    cbn [taxOf fold_left]. destruct (truthy rate); [|reflexivity].
    cbn [totalOf]. destruct (truthy (0 * rate)); [|reflexivity].
    transitivity (round2 0); [|reflexivity].
    apply round2_comp. unfold number in *. lra.
  - eexists. split; reflexivity.
Qed.

(** ** Scenarios of the test suite *)

Example basic_server_alone :
  exists r,
    calculatePrice (item "cloud-server-basic" [] 1) [] None None None = Ok r
    /\ price_basePrice r == 50
    /\ price_finalPrice r == 50
    /\ price_appliedRules r = [].
Proof.
  eexists. split; [reflexivity|]. repeat split; reflexivity.
Qed.

Example five_basic_servers :
  exists r,
    calculatePrice (item "cloud-server-basic" [] 5) [] None None None = Ok r
    /\ price_basePrice r == 250
    /\ price_finalPrice r == 225
    /\ map ruleId (price_appliedRules r) = ["volume-discount-10-percent"].
Proof.
  eexists. split; [reflexivity|]. repeat split; reflexivity.
Qed.

Example enterprise_customer :
  exists r,
    calculatePrice (item "cloud-server-basic" [] 1) [] (Some "enterprise")
      None None = Ok r
    /\ price_finalPrice r == 42.5.
Proof.
  eexists. split; reflexivity.
Qed.

Example eu_central_region :
  exists r,
    calculatePrice (item "cloud-server-basic" [] 1) [] None
      (Some "eu-central") None = Ok r
    /\ price_finalPrice r == 54.
Proof.
  eexists. split; reflexivity.
Qed.

Example compute_with_database :
  exists pricing,
    calculateTotalPrice
      [item "cloud-server-basic" [] 1; item "database-managed-mysql" [] 1]
      None None None = Ok pricing
    /\ map (fun priced => map ruleId (item_appliedRules priced)) (items pricing)
       = [ ["bundle-discount-compute-database"];
           ["bundle-discount-compute-database"] ].
Proof.
  eexists. split; reflexivity.
Qed.

Example conflicting_ram_upgrades :
  validateConfiguration "cloud-server-basic" ["ram-8gb"; "ram-16gb"]
  = {| isValid := false;
       errors :=
         [ {| field := "selectedOptions";
              message :=
                "Options '16GB RAM Upgrade' and '8GB RAM Upgrade' cannot be selected together" |} ];
       warnings :=
         Some [ {| field := "selectedOptions";
                   message :=
                     "Daily backups are recommended for production workloads" |} ] |}.
Proof. reflexivity. Qed.

Example unknown_product :
  validateConfiguration "invalid-product" []
  = {| isValid := false;
       errors :=
         [ {| field := "productId";
              message := "Product 'invalid-product' not found" |} ];
       warnings := None |}.
Proof. reflexivity. Qed.

Example missing_dependency :
  map message
    (errors (validateConfiguration "professional-services" ["training-advanced"]))
  = [ "Option 'Advanced Training (16 hours)' requires 'Basic Training (8 hours)' to be selected" ].
Proof. reflexivity. Qed.

Example enterprise_then_volume :
  map rule_id
    (getApplicableRules (basicContext 10 (Some "enterprise") (Some "eu-west")))
  = [ "enterprise-tier-discount"; "volume-discount-20-percent";
      "region-pricing-eu" ].
Proof. reflexivity. Qed.

(** A rule that leaves the price as it is runs without a record. *)
Example us_west_leaves_no_record :
  map rule_id (getApplicableRules (basicContext 1 None (Some "us-west")))
  = ["region-pricing-us-west"]
  /\ appliedRules (applyPricingRules 50 (basicContext 1 None (Some "us-west")))
     = [].
Proof. split; reflexivity. Qed.

Example failed_quote_message :
  generateQuote "id" "now"
    [ item "cloud-server-basic" ["ram-8gb"; "ram-16gb"] 1; item "nope" [] 1 ]
    None None None None
  = Error
      "Configuration validation failed: cloud-server-basic: Options '16GB RAM Upgrade' and '8GB RAM Upgrade' cannot be selected together; nope: Product 'nope' not found".
Proof. reflexivity. Qed.

(** ** The transitive dependencies of an option *)

Lemma pop_snoc {A : Type} (l : list A) (x : A) : pop (l ++ [x]) = Some (x, l).
Proof. unfold pop. rewrite rev_app_distr. simpl. now rewrite rev_involutive. Qed.

Lemma dependsDirectly_depsOf (p : Product) (a b : string) :
  dependsDirectly p a b <-> In b (depsOf p a).
Proof.
  unfold dependsDirectly, depsOf. split.
  - intros [opt [ds [Ha [Hds Hin]]]]. now rewrite Ha, Hds.
  - destruct (getOptionById p a) as [opt|]; [|intros []].
    destruct (option_dependencies opt) as [ds|] eqn:Hds; [|intros []].
    intros Hin. now exists opt, ds.
Qed.

(** One turn of the loop on a stack with [dep] on top. *)
Lemma dependenciesLoop_turn (fuel : nat) (p : Product)
  (toProcess allDeps : list string) (dep : string) :
  dependenciesLoop (S fuel) p (toProcess ++ [dep]) allDeps
  = if includes allDeps dep
    then dependenciesLoop fuel p toProcess allDeps
    else dependenciesLoop fuel p (toProcess ++ depsOf p dep) (allDeps ++ [dep]).
Proof.
  cbn [dependenciesLoop]. rewrite pop_snoc. unfold depsOf, push.
  destruct (includes allDeps dep); cbn [negb]; [reflexivity|].
  destruct (getOptionById p dep) as [opt|]; [|now rewrite app_nil_r].
  destruct (option_dependencies opt); [reflexivity | now rewrite app_nil_r].
Qed.

Lemma stack_cases {A : Type} (l : list A) :
  l = [] \/ exists l' x, l = l' ++ [x].
Proof.
  destruct l as [|y l] using rev_ind; [now left | right]. now exists l, y.
Qed.

Lemma includes_snoc (l : list string) (d x : string) :
  includes (l ++ [d]) x = includes l x || String.eqb x d.
Proof.
  unfold includes. rewrite existsb_app. simpl. now rewrite orb_false_r.
Qed.

Lemma pending_shrinks (universe allDeps : list string) (dep : string) :
  In dep universe -> includes allDeps dep = false ->
  (List.length (filter (fun u => negb (includes (allDeps ++ [dep]) u)) universe)
   < List.length (filter (fun u => negb (includes allDeps u)) universe))%nat.
Proof.
  intros Hin Hnew.
  assert (Hle : forall l,
             (List.length (filter (fun u => negb (includes (allDeps ++ [dep]) u)) l)
              <= List.length (filter (fun u => negb (includes allDeps u)) l))%nat).
  { induction l as [|u l IH]; simpl; [lia|].
    rewrite includes_snoc.
    destruct (includes allDeps u); simpl; [exact IH|].
    destruct (String.eqb u dep); simpl; lia. }
  induction universe as [|u l IH]; [destruct Hin|].
  simpl. rewrite includes_snoc. destruct Hin as [->|Hin].
  - rewrite Hnew, String.eqb_refl. simpl. specialize (Hle l). lia.
  - specialize (IH Hin).
    destruct (includes allDeps u); simpl; [exact IH|].
    destruct (String.eqb u dep); simpl; lia.
Qed.

Lemma depsOf_declared (p : Product) (dep : string) :
  (forall x, In x (depsOf p dep) -> In x (declaredDependencies p))
  /\ (List.length (depsOf p dep) <= List.length (declaredDependencies p))%nat.
Proof.
  unfold depsOf, getOptionById, declaredDependencies.
  destruct (find _ (product_options p)) as [opt|] eqn:Hfind;
    [|split; [intros x [] | simpl; lia]].
  apply find_some in Hfind. destruct Hfind as [Hin _].
  destruct (option_dependencies opt) as [ds|] eqn:Hds;
    [|split; [intros x [] | simpl; lia]].
  split.
  - intros x Hx. apply in_flat_map. exists opt. split; [assumption|].
    now rewrite Hds.
  - induction (product_options p) as [|o l IH]; [destruct Hin|].
    simpl. rewrite length_app. destruct Hin as [->|Hin].
    + rewrite Hds. lia.
    + specialize (IH Hin). lia.
Qed.

(** With the stack inside the declared ids, the loop stops within the
    turns counted by the stack and the ids still pending. *)
Lemma dependenciesLoop_stops (p : Product) (fuel : nat) :
  forall toProcess allDeps,
    (forall x, In x toProcess -> In x (declaredDependencies p)) ->
    (List.length toProcess
     + S (List.length (declaredDependencies p)) * pending p allDeps < fuel)%nat ->
    exists result, dependenciesLoop fuel p toProcess allDeps = Some result.
Proof.
  induction fuel as [|fuel IH]; intros toProcess allDeps Hdecl Hfuel; [lia|].
  destruct (stack_cases toProcess) as [->|[rest [dep ->]]].
  - now exists allDeps.
  - rewrite dependenciesLoop_turn. rewrite length_app in Hfuel. simpl in Hfuel.
    destruct (includes allDeps dep) eqn:Hseen.
    + apply IH; [intros x Hx; apply Hdecl, in_or_app; now left | lia].
    + destruct (depsOf_declared p dep) as [Hin Hlen].
      apply IH.
      * intros x Hx. apply in_app_or in Hx. destruct Hx as [Hx|Hx].
        -- apply Hdecl, in_or_app. now left.
        -- now apply Hin.
      * assert (Hdep : In dep (declaredDependencies p)).
        { apply Hdecl, in_or_app. right. now left. }
        pose proof (pending_shrinks _ allDeps dep Hdep Hseen) as Hshrink.
        fold (pending p (allDeps ++ [dep])) in Hshrink.
        fold (pending p allDeps) in Hshrink.
        rewrite length_app.
        set (n := List.length (declaredDependencies p)) in *.
        assert (S n * pending p (allDeps ++ [dep]) + S n
                <= S n * pending p allDeps)%nat by nia.
        lia.
Qed.

(** What the loop returns keeps the set it started from as a prefix, has
    no duplicate when that set has none, and contains the stack. *)
Lemma dependenciesLoop_grows (p : Product) (fuel : nat) :
  forall toProcess allDeps result,
    dependenciesLoop fuel p toProcess allDeps = Some result ->
    (exists added, result = allDeps ++ added)
    /\ (NoDup allDeps -> NoDup result)
    /\ (forall x, In x toProcess -> In x result).
Proof.
  induction fuel as [|fuel IH]; intros toProcess allDeps result Hrun;
    [discriminate|].
  destruct (stack_cases toProcess) as [->|[rest [dep ->]]].
  - injection Hrun as <-. split; [exists []; now rewrite app_nil_r|].
    split; [auto | intros x []].
  - rewrite dependenciesLoop_turn in Hrun.
    destruct (includes allDeps dep) eqn:Hseen.
    + destruct (IH _ _ _ Hrun) as [[added ->] [Hnd Hstack]].
      split; [now exists added|]. split; [exact Hnd|].
      intros x Hx. apply in_app_or in Hx. destruct Hx as [Hx|[<-|[]]].
      * now apply Hstack.
      * apply in_or_app. left. now apply includes_In.
    + destruct (IH _ _ _ Hrun) as [[added ->] [Hnd Hstack]].
      split; [exists (dep :: added); now rewrite <- app_assoc|].
      split.
      * intros Hnd0. apply Hnd. apply NoDup_app; [assumption | | ].
        -- constructor; [intros [] | constructor].
        -- intros x Hx [<-|[]]. apply includes_In in Hx. congruence.
      * intros x Hx. apply in_app_or in Hx. destruct Hx as [Hx|[<-|[]]].
        -- apply Hstack, in_or_app. now left.
        -- apply in_or_app. left. apply in_or_app. right. now left.
Qed.

(** A property that dependency declarations preserve, and that holds of
    the stack and of the set, holds of all that the loop returns. *)
Lemma dependenciesLoop_sound (p : Product) (holds : string -> Prop) (fuel : nat) :
  (forall x y, holds x -> In y (depsOf p x) -> holds y) ->
  forall toProcess allDeps result,
    dependenciesLoop fuel p toProcess allDeps = Some result ->
    (forall x, In x toProcess -> holds x) ->
    (forall x, In x allDeps -> holds x) ->
    forall x, In x result -> holds x.
Proof.
  intros Hclosed.
  induction fuel as [|fuel IH]; intros toProcess allDeps result Hrun Hstack Hset;
    [discriminate|].
  destruct (stack_cases toProcess) as [->|[rest [dep ->]]].
  - injection Hrun as <-. exact Hset.
  - rewrite dependenciesLoop_turn in Hrun.
    assert (Hdep : holds dep) by (apply Hstack, in_or_app; right; now left).
    assert (Hrest : forall x, In x rest -> holds x)
      by (intros x Hx; apply Hstack, in_or_app; now left).
    destruct (includes allDeps dep).
    + apply (IH _ _ _ Hrun); assumption.
    + apply (IH _ _ _ Hrun).
      * intros x Hx. apply in_app_or in Hx. destruct Hx as [Hx|Hx];
          [now apply Hrest | now apply (Hclosed dep)].
      * intros x Hx. apply in_app_or in Hx. destruct Hx as [Hx|[<-|[]]];
          [now apply Hset | assumption].
Qed.

(** When the dependencies of the ids in the set are in the set or on the
    stack, what the loop returns has the dependencies of its ids. *)
Lemma dependenciesLoop_closed (p : Product) (fuel : nat) :
  forall toProcess allDeps result,
    dependenciesLoop fuel p toProcess allDeps = Some result ->
    (forall d e, In d allDeps -> In e (depsOf p d) ->
                 In e allDeps \/ In e toProcess) ->
    forall d e, In d result -> In e (depsOf p d) -> In e result.
Proof.
  induction fuel as [|fuel IH]; intros toProcess allDeps result Hrun Hinv;
    [discriminate|].
  destruct (stack_cases toProcess) as [->|[rest [dep ->]]].
  - injection Hrun as <-. intros d e Hd He.
    destruct (Hinv d e Hd He) as [H|[]]. exact H.
  - rewrite dependenciesLoop_turn in Hrun.
    destruct (includes allDeps dep) eqn:Hseen.
    + apply (IH _ _ _ Hrun). intros d e Hd He.
      destruct (Hinv d e Hd He) as [H|H]; [now left|].
      apply in_app_or in H. destruct H as [H|[<-|[]]]; [now right|].
      left. now apply includes_In.
    + apply (IH _ _ _ Hrun). intros d e Hd He.
      apply in_app_or in Hd. destruct Hd as [Hd|[<-|[]]].
      * destruct (Hinv d e Hd He) as [H|H].
        -- left. apply in_or_app. now left.
        -- apply in_app_or in H. destruct H as [H|[<-|[]]].
           ++ right. apply in_or_app. now left.
           ++ left. apply in_or_app. right. now left.
      * right. apply in_or_app. now right.
Qed.

(** X1. [getAllDependencies] returns for every product and every option
    id, cyclic dependency declarations included: the loop stops within a
    number of turns that the product bounds. *)
Theorem getAllDependencies_returns (p : Product) (optionId : string) :
  exists result, getAllDependencies p optionId = Some result.
Proof.
  unfold getAllDependencies.
  destruct (getOptionById p optionId) as [opt|] eqn:Hopt; [|now exists []].
  destruct (option_dependencies opt) as [ds|] eqn:Hds; [|now exists []].
  assert (Hdeps : depsOf p optionId = ds) by (unfold depsOf; now rewrite Hopt, Hds).
  destruct (depsOf_declared p optionId) as [Hin Hlen]. rewrite Hdeps in Hin, Hlen.
  apply dependenciesLoop_stops; [exact Hin|].
  unfold dependenciesFuel, pending. cbv zeta.
  pose proof (filter_length_le (fun u => negb (includes [] u))
                (declaredDependencies p)) as Hpending.
  set (n := List.length (declaredDependencies p)) in *.
  set (m := List.length (filter _ _)) in *.
  assert (S n * m <= S n * n)%nat by (apply Nat.mul_le_mono_l; exact Hpending).
  lia.
Qed.

(** What [getAllDependencies] returns is reached from the option. *)
Lemma getAllDependencies_sound (p : Product) (optionId : string)
  (result : list string) :
  getAllDependencies p optionId = Some result ->
  forall d, In d result -> dependsOn p optionId d.
Proof.
  unfold getAllDependencies. intros Hrun.
  destruct (getOptionById p optionId) as [opt|] eqn:Hopt;
    [|injection Hrun as <-; intros d []].
  destruct (option_dependencies opt) as [ds|] eqn:Hds;
    [|injection Hrun as <-; intros d []].
  assert (Hdeps : depsOf p optionId = ds) by (unfold depsOf; now rewrite Hopt, Hds).
  apply (dependenciesLoop_sound p (dependsOn p optionId) _
           (fun x y Hx Hy =>
              dependsOn_step p optionId x y Hx
                (proj2 (dependsDirectly_depsOf p x y) Hy))
           _ _ _ Hrun).
  - intros x Hx. apply dependsOn_direct, dependsDirectly_depsOf.
    now rewrite Hdeps.
  - intros x [].
Qed.

(** X2. The ids that [getAllDependencies] returns are exactly the ids
    reached from the option by one or more dependency declarations, each
    listed once. *)
Theorem getAllDependencies_transitive_closure
  (p : Product) (optionId : string) (result : list string) :
  getAllDependencies p optionId = Some result ->
  NoDup result
  /\ forall d, In d result <-> dependsOn p optionId d.
Proof.
  unfold getAllDependencies. intros Hrun.
  destruct (getOptionById p optionId) as [opt|] eqn:Hopt.
  2:{ injection Hrun as <-. split; [constructor|]. intros d. split; [intros []|].
      intros Hd. exfalso.
      assert (Hnone : forall x, ~ dependsDirectly p optionId x).
      { intros x [o [ds [Ho _]]]. congruence. }
      induction Hd as [b Hb|b c _ IH _]; [now apply (Hnone b) | exact IH]. }
  destruct (option_dependencies opt) as [ds|] eqn:Hds.
  2:{ injection Hrun as <-. split; [constructor|]. intros d. split; [intros []|].
      intros Hd. exfalso.
      assert (Hnone : forall x, ~ dependsDirectly p optionId x).
      { intros x [o [ds [Ho [Hd' _]]]]. congruence. }
      induction Hd as [b Hb|b c _ IH _]; [now apply (Hnone b) | exact IH]. }
  assert (Hdeps : depsOf p optionId = ds) by (unfold depsOf; now rewrite Hopt, Hds).
  destruct (dependenciesLoop_grows _ _ _ _ _ Hrun) as [_ [Hnd Hstack]].
  split; [apply Hnd; constructor|].
  intros d. split.
  - apply (getAllDependencies_sound p optionId result).
    unfold getAllDependencies. now rewrite Hopt, Hds.
  - intros Hd. induction Hd as [b Hb|b c _ IH Hc].
    + apply Hstack. apply dependsDirectly_depsOf in Hb. now rewrite Hdeps in Hb.
    + apply (dependenciesLoop_closed _ _ _ _ _ Hrun) with (d := b);
        [intros d e [] | exact IH | now apply dependsDirectly_depsOf].
Qed.

(** ** When a configuration is valid *)

Lemma map_nil_iff {A B : Type} (f : A -> B) (l : list A) :
  map f l = [] <-> l = [].
Proof. destruct l; simpl; split; congruence. Qed.

Lemma filter_nil_iff {A : Type} (f : A -> bool) (l : list A) :
  filter f l = [] <-> forall x, In x l -> f x = false.
Proof.
  induction l as [|x l IH]; simpl.
  - split; [intros _ y [] | reflexivity].
  - destruct (f x) eqn:E; split.
    + discriminate.
    + intros H. specialize (H x (or_introl eq_refl)). congruence.
    + intros H y [<-|Hy]; [assumption | now apply IH].
    + intros H. apply IH. intros y Hy. apply H. now right.
Qed.

Lemma flat_map_nil_iff {A B : Type} (f : A -> list B) (l : list A) :
  flat_map f l = [] <-> forall x, In x l -> f x = [].
Proof.
  induction l as [|x l IH]; simpl.
  - split; [intros _ y [] | reflexivity].
  - split.
    + intros H. apply app_eq_nil in H. destruct H as [Hx Hl].
      intros y [<-|Hy]; [assumption | now apply IH].
    + intros H. rewrite (H x (or_introl eq_refl)). simpl.
      apply IH. intros y Hy. apply H. now right.
Qed.

Lemma includes_ids_known (p : Product) (s : string) :
  includes (map option_id (product_options p)) s = true
  <-> exists opt, getOptionById p s = Some opt.
Proof.
  unfold getOptionById. rewrite includes_In, in_map_iff. split.
  - intros [opt [Hid Hin]].
    destruct (find (fun o => String.eqb (option_id o) s) (product_options p))
      as [opt'|] eqn:Hfind; [now exists opt'|].
    apply (find_none _ _ Hfind) in Hin. rewrite Hid, String.eqb_refl in Hin.
    discriminate.
  - intros [opt Hfind]. apply find_some in Hfind. destruct Hfind as [Hin Heq].
    exists opt. split; [now apply String.eqb_eq | assumption].
Qed.

(** The errors of the validator are the violations of the four
    constraints. *)
Lemma validateProduct_valid_iff (p : Product) (selected : list string) :
  isValid (validateProduct p selected) = true
  <-> (forall opt, In opt (product_options p) -> option_isRequired opt = true ->
                   In (option_id opt) selected)
      /\ (forall s, In s selected -> exists opt, getOptionById p s = Some opt)
      /\ (forall s c, In s selected -> hasConflict p s c = true ->
                      ~ In c selected)
      /\ (forall s d, In s selected -> dependsDirectly p s d -> In d selected).
Proof.
  rewrite validateProduct_isValid, validateProduct_errors.
  unfold expectedRequiredErrors, expectedInvalidErrors, expectedConflictErrors,
    expectedDependencyErrors, conflictPairs, missingDependencies.
  split.
  - intros H.
    apply app_eq_nil in H. destruct H as [Hreq H].
    apply app_eq_nil in H. destruct H as [Hinv H].
    apply app_eq_nil in H. destruct H as [Hconf Hdep].
    apply map_nil_iff in Hreq. apply map_nil_iff in Hinv.
    apply map_nil_iff in Hconf. apply map_nil_iff in Hdep.
    pose proof (proj1 (filter_nil_iff _ _) Hreq) as Hreq'.
    pose proof (proj1 (filter_nil_iff _ _) Hinv) as Hinv'.
    pose proof (proj1 (flat_map_nil_iff _ _) Hconf) as Hconf'.
    pose proof (proj1 (flat_map_nil_iff _ _) Hdep) as Hdep'.
    clear Hreq Hinv Hconf Hdep.
    split; [|split; [|split]].
    + intros opt Hin Hrequired. specialize (Hreq' opt Hin). cbv beta in Hreq'.
      rewrite Hrequired in Hreq'. simpl in Hreq'.
      apply negb_false_iff in Hreq'. now apply includes_In.
    + intros s Hs. specialize (Hinv' s Hs). cbv beta in Hinv'. apply negb_false_iff in Hinv'.
      now apply includes_ids_known.
    + intros s c Hs Hc Hsel. specialize (Hconf' s Hs). cbv beta in Hconf'.
      unfold hasConflict, getOptionById in Hc. unfold findOption in Hconf'.
      destruct (find _ (product_options p)) as [opt|]; [|discriminate].
      destruct (option_conflicts opt) as [cs|]; [|discriminate].
      apply map_nil_iff in Hconf'.
      pose proof (proj1 (filter_nil_iff _ _) Hconf') as Hnone.
      apply includes_In in Hc. apply includes_In in Hsel.
      specialize (Hnone c Hc). cbv beta in Hnone. congruence.
    + intros s d Hs [opt [ds [Hopt [Hds Hd]]]]. specialize (Hdep' s Hs). cbv beta in Hdep'.
      unfold getOptionById in Hopt. unfold findOption in Hdep'.
      rewrite Hopt, Hds in Hdep'.
      apply map_nil_iff in Hdep'.
      pose proof (proj1 (filter_nil_iff _ _) Hdep') as Hnone.
      specialize (Hnone d Hd). cbv beta in Hnone. apply negb_false_iff in Hnone.
      now apply includes_In.
  - intros [Hreq [Hinv [Hconf Hdep]]].
    assert (E1 : filter (fun opt => option_isRequired opt
                                    && negb (includes selected (option_id opt)))
                   (product_options p) = []).
    { apply filter_nil_iff. intros opt Hin.
      destruct (option_isRequired opt) eqn:Hr; [|reflexivity]. simpl.
      apply negb_false_iff, includes_In. now apply Hreq. }
    assert (E2 : filter (fun s => negb (includes (map option_id (product_options p)) s))
                   selected = []).
    { apply filter_nil_iff. intros s Hs.
      apply negb_false_iff, includes_ids_known. now apply Hinv. }
    rewrite E1, E2. simpl.
    assert (Hsplit : forall l1 l2 : list FieldError,
               l1 = [] -> l2 = [] -> l1 ++ l2 = []) by (intros; now subst).
    apply Hsplit; apply map_nil_iff, flat_map_nil_iff.
    + intros s Hs. specialize (Hconf s).
      unfold hasConflict, getOptionById in Hconf. unfold findOption.
      destruct (find _ (product_options p)) as [opt|]; [|reflexivity].
      destruct (option_conflicts opt) as [cs|]; [|reflexivity].
      apply map_nil_iff, filter_nil_iff. intros c Hc.
      destruct (includes selected c) eqn:E; [|reflexivity].
      exfalso. apply (Hconf c Hs); now apply includes_In.
    + intros s Hs. unfold findOption.
      destruct (find _ (product_options p)) as [opt|] eqn:Hopt; [|reflexivity].
      destruct (option_dependencies opt) as [ds|] eqn:Hds; [|reflexivity].
      apply map_nil_iff, filter_nil_iff. intros d Hd.
      apply negb_false_iff, includes_In. apply (Hdep s d Hs).
      now exists opt, ds.
Qed.

(** X3. For a product of the catalog, [validateConfiguration] reports a
    selection valid exactly when every required option is selected, every
    selected id is an option of the product, no selected option declares a
    conflict with a selected id, and every dependency declared by a
    selected option is selected. *)
Theorem valid_iff_constraints_met (pid : string) (p : Product)
  (selected : list string) :
  getProductById pid = Some p ->
  (isValid (validateConfiguration pid selected) = true
   <-> (forall opt, In opt (product_options p) -> option_isRequired opt = true ->
                    In (option_id opt) selected)
       /\ (forall s, In s selected -> exists opt, getOptionById p s = Some opt)
       /\ (forall s c, In s selected -> hasConflict p s c = true ->
                       ~ In c selected)
       /\ (forall s d, In s selected -> dependsDirectly p s d -> In d selected)).
Proof.
  intros Hp. unfold validateConfiguration. rewrite Hp.
  apply validateProduct_valid_iff.
Qed.

Lemma valid_iff_constraints_met_witness :
  isValid (validateConfiguration "professional-services"
             ["training-basic"; "training-advanced"]) = true
  <-> (forall opt, In opt (product_options professional_services) ->
                   option_isRequired opt = true ->
                   In (option_id opt) ["training-basic"; "training-advanced"])
      /\ (forall s, In s ["training-basic"; "training-advanced"] ->
                    exists opt, getOptionById professional_services s = Some opt)
      /\ (forall s c, In s ["training-basic"; "training-advanced"] ->
                      hasConflict professional_services s c = true ->
                      ~ In c ["training-basic"; "training-advanced"])
      /\ (forall s d, In s ["training-basic"; "training-advanced"] ->
                      dependsDirectly professional_services s d ->
                      In d ["training-basic"; "training-advanced"]).
Proof.
  apply (valid_iff_constraints_met "professional-services"
           professional_services ["training-basic"; "training-advanced"]).
  reflexivity.
Defined.

(** X4. Whether a selection is valid depends only on which ids it
    contains, not on their order nor on how often they are repeated. *)
Theorem validity_depends_on_the_set_selected
  (p : Product) (selected selected' : list string) :
  (forall x, In x selected <-> In x selected') ->
  isValid (validateProduct p selected) = isValid (validateProduct p selected').
Proof.
  assert (Hone : forall l l' : list string,
             (forall x, In x l <-> In x l') ->
             isValid (validateProduct p l) = true ->
             isValid (validateProduct p l') = true).
  { intros l l' Hsame Hvalid.
    apply validateProduct_valid_iff in Hvalid.
    destruct Hvalid as [Hreq [Hknown [Hconf Hdep]]].
    apply validateProduct_valid_iff. split; [|split; [|split]].
    - intros opt Hin Hr. apply Hsame. now apply Hreq.
    - intros s Hs. apply Hknown. now apply Hsame.
    - intros s c Hs Hc Hsel. apply (Hconf s c); [now apply Hsame | assumption |].
      now apply Hsame.
    - intros s d Hs Hd. apply Hsame. apply (Hdep s d); [now apply Hsame | assumption]. }
  intros Hsame.
  destruct (isValid (validateProduct p selected)) eqn:E.
  - symmetry. now apply (Hone selected selected').
  - destruct (isValid (validateProduct p selected')) eqn:E'; [|reflexivity].
    rewrite (Hone selected' selected) in E; [discriminate | | assumption].
    intros x. symmetry. apply Hsame.
Qed.

Lemma validity_depends_on_the_set_selected_witness :
  isValid (validateProduct cloud_server_basic ["ram-8gb"; "backup-daily"])
  = isValid (validateProduct cloud_server_basic
               ["backup-daily"; "ram-8gb"; "backup-daily"]).
Proof.
  apply (validity_depends_on_the_set_selected cloud_server_basic
           ["ram-8gb"; "backup-daily"] ["backup-daily"; "ram-8gb"; "backup-daily"]).
  intros x. simpl. tauto.
Defined.

(** X5. [hasConflict] agrees with the validator: when it reports that the
    first option declares a conflict with the second, every selection that
    contains both ids is invalid. *)
Theorem declared_conflict_invalidates
  (p : Product) (selected : list string) (option1Id option2Id : string) :
  hasConflict p option1Id option2Id = true ->
  In option1Id selected ->
  In option2Id selected ->
  isValid (validateProduct p selected) = false.
Proof.
  intros Hconflict H1 H2.
  destruct (isValid (validateProduct p selected)) eqn:E; [|reflexivity].
  apply validateProduct_valid_iff in E. destruct E as [_ [_ [Hconf _]]].
  exfalso. now apply (Hconf option1Id option2Id).
Qed.

Lemma declared_conflict_invalidates_witness :
  isValid (validateProduct cloud_server_basic ["ram-8gb"; "ram-16gb"]) = false.
Proof.
  apply (declared_conflict_invalidates cloud_server_basic
           ["ram-8gb"; "ram-16gb"] "ram-16gb" "ram-8gb").
  - reflexivity.
  - simpl; auto.
  - simpl; auto.
Defined.

(** X6. In a valid selection every selected option comes with all the
    dependencies that [getAllDependencies] finds for it, the indirect ones
    included. *)
Theorem valid_selection_has_all_dependencies
  (p : Product) (selected : list string) (optionId : string)
  (dependencies : list string) :
  isValid (validateProduct p selected) = true ->
  In optionId selected ->
  getAllDependencies p optionId = Some dependencies ->
  forall d, In d dependencies -> In d selected.
Proof.
  intros Hvalid Hsel Hdeps d Hd.
  apply validateProduct_valid_iff in Hvalid. destruct Hvalid as [_ [_ [_ Hdep]]].
  apply (getAllDependencies_sound p optionId dependencies Hdeps) in Hd.
  induction Hd as [b Hb|b c _ IH Hc].
  - now apply (Hdep optionId b).
  - now apply (Hdep b c).
Qed.

Lemma valid_selection_has_all_dependencies_witness :
  getAllDependencies professional_services "training-advanced"
  = Some ["training-basic"]
  /\ In "training-basic" ["training-basic"; "training-advanced"].
Proof.
  split; [reflexivity|].
  apply (valid_selection_has_all_dependencies professional_services
           ["training-basic"; "training-advanced"] "training-advanced"
           ["training-basic"]).
  - reflexivity.
  - simpl; auto.
  - reflexivity.
  - simpl; auto.
Defined.

(** X7. The empty selection gets one error for each required option of the
    product, in the order of the product, and no other error; it is valid
    exactly when the product has no required option. *)
Theorem empty_selection_misses_required_options (p : Product) :
  errors (validateProduct p [])
  = map (fun opt => {| field := "selectedOptions";
                       message := requiredMessage opt |})
      (filter option_isRequired (product_options p))
  /\ (isValid (validateProduct p []) = true
      <-> forall opt, In opt (product_options p) -> option_isRequired opt = false).
Proof.
  assert (Herrors :
            errors (validateProduct p [])
            = map (fun opt => {| field := "selectedOptions";
                                 message := requiredMessage opt |})
                (filter option_isRequired (product_options p))).
  { rewrite validateProduct_errors.
    unfold expectedRequiredErrors, expectedInvalidErrors, expectedConflictErrors,
      expectedDependencyErrors, conflictPairs, missingDependencies.
    simpl. rewrite app_nil_r. f_equal.
    induction (product_options p) as [|o l IH]; simpl; [reflexivity|].
    destruct (option_isRequired o); simpl; now rewrite IH. }
  split; [exact Herrors|].
  rewrite validateProduct_isValid, Herrors, map_nil_iff, filter_nil_iff.
  reflexivity.
Qed.

Lemma getAllDependencies_transitive_closure_witness :
  NoDup ["training-basic"]
  /\ forall d,
       In d ["training-basic"]
       <-> dependsOn professional_services "training-advanced" d.
Proof.
  apply (getAllDependencies_transitive_closure professional_services
           "training-advanced" ["training-basic"]).
  reflexivity.
Defined.

(** Two options that depend on each other: the loop stops, and the option
    asked about is among its own dependencies. *)
Example cyclic_dependencies :
  getAllDependencies
    {| product_id := "p"; product_name := "P"; product_description := "";
       product_basePrice := 0; product_category := "c";
       product_options :=
         [ mkOption "a" "A" "" 0 "c" (Some ["b"]) None;
           mkOption "b" "B" "" 0 "c" (Some ["a"]) None ];
       product_metadata := None |}
    "a"
  = Some ["b"; "a"].
Proof. reflexivity. Qed.

(** ** The catalog *)

Section Lookup.
Context {A : Type}.
Variable key : A -> string.

Lemma find_by_key_sound (l : list A) (k : string) (x : A) :
  find (fun y => String.eqb (key y) k) l = Some x -> In x l /\ key x = k.
Proof.
  intros H. apply find_some in H. destruct H as [Hin Heq].
  split; [assumption | now apply String.eqb_eq].
Qed.

Lemma find_by_key_none (l : list A) (k : string) :
  find (fun y => String.eqb (key y) k) l = None <-> ~ In k (map key l).
Proof.
  induction l as [|y l IH]; simpl; [tauto|].
  destruct (String.eqb_spec (key y) k) as [->|Hne].
  - split; [discriminate | intros H; exfalso; apply H; now left].
  - rewrite IH. tauto.
Qed.

(** With distinct keys, looking an element up by its key finds it. *)
Lemma find_by_key_roundtrip (l : list A) (x : A) :
  NoDup (map key l) -> In x l ->
  find (fun y => String.eqb (key y) (key x)) l = Some x.
Proof.
  induction l as [|y l IH]; intros Hnd Hin; [destruct Hin|].
  simpl in *. inversion Hnd as [|? ? Hnotin Hnd']; subst.
  destruct Hin as [->|Hin]; [now rewrite String.eqb_refl|].
  destruct (String.eqb_spec (key y) (key x)) as [Heq|_]; [|now apply IH].
  exfalso. apply Hnotin. rewrite Heq. now apply in_map.
Qed.
End Lookup.

Lemma catalog_ids_distinct : NoDup (map product_id products).
Proof. repeat constructor; simpl; intuition discriminate. Qed.

(** X8. [getProductById] on the catalog: a product that is found is in the
    catalog and has the id asked for; every product of the catalog is found
    under its id; nothing is found exactly for the ids that no product of
    the catalog has. *)
Theorem getProductById_finds_the_catalog :
  (forall pid p, getProductById pid = Some p ->
                 In p products /\ product_id p = pid)
  /\ (forall p, In p products -> getProductById (product_id p) = Some p)
  /\ (forall pid, getProductById pid = None
                  <-> ~ In pid (map product_id products)).
Proof.
  unfold getProductById. split; [|split].
  - intros pid p. apply find_by_key_sound.
  - intros p. apply find_by_key_roundtrip, catalog_ids_distinct.
  - intros pid. apply find_by_key_none.
Qed.

Lemma setOf_acc (l acc : list string) :
  let result := fold_left (fun s x => if includes s x then s else push s x) l acc in
  (NoDup acc -> NoDup result)
  /\ (forall x, In x result <-> In x acc \/ In x l).
Proof.
  cbv zeta. revert acc. induction l as [|y l IH]; intros acc; simpl.
  - split; [auto | intros x; tauto].
  - destruct (includes acc y) eqn:Hseen.
    + destruct (IH acc) as [Hnd Hin]. split; [exact Hnd|].
      intros x. rewrite Hin. apply includes_In in Hseen.
      split; [tauto|]. intros [H|[<-|H]]; auto.
    + destruct (IH (push acc y)) as [Hnd Hin]. split.
      * intros Hacc. apply Hnd. unfold push. apply NoDup_app; [assumption | |].
        -- constructor; [intros [] | constructor].
        -- intros x Hx [<-|[]]. apply includes_In in Hx. congruence.
      * intros x. rewrite Hin. unfold push. rewrite in_app_iff. simpl. tauto.
Qed.

(** X9. [getCategories] lists every category once, and lists a category
    exactly when [getProductsByCategory] has a product for it. *)
Theorem categories_are_those_with_products :
  NoDup getCategories
  /\ forall category,
       In category getCategories <-> getProductsByCategory category <> [].
Proof.
  unfold getCategories, setOf.
  destruct (setOf_acc (map product_category products) []) as [Hnd Hin].
  split; [apply Hnd; constructor|].
  intros category. rewrite Hin. unfold getProductsByCategory.
  rewrite in_map_iff. split.
  - intros [[]|[p [Hcat Hp]]] Hempty.
    pose proof (proj1 (filter_nil_iff _ _) Hempty p Hp) as Hnone.
    cbv beta in Hnone. rewrite Hcat, String.eqb_refl in Hnone. discriminate.
  - intros Hnonempty. right.
    destruct (filter (fun p => String.eqb (product_category p) category) products)
      as [|p l] eqn:Hfilter; [contradiction|].
    assert (Hp : In p (filter (fun p => String.eqb (product_category p) category)
                         products)) by (rewrite Hfilter; now left).
    apply filter_In in Hp. destruct Hp as [Hp Hcat].
    exists p. split; [now apply String.eqb_eq | assumption].
Qed.

(** ** More on the rule table *)

Lemma rule_ids_distinct : NoDup (map rule_id pricingRules).
Proof. repeat constructor; simpl; intuition discriminate. Qed.

Lemma strictEqStr_true (o : option string) (s : string) :
  strictEqStr o s = true <-> o = Some s.
Proof.
  destruct o as [v|]; simpl; [|split; discriminate].
  rewrite String.eqb_eq. split; congruence.
Qed.

Ltac decide_conditions :=
  repeat match goal with
    | H : _ || _ = true |- _ => apply orb_true_iff in H; destruct H as [H|H]
    | H : strictEqStr _ _ = true |- _ => apply strictEqStr_true in H
    end;
  congruence.

(** Two rules of the table that have the same priority never hold in the
    same context. *)
Lemma same_priority_rules_exclusive (context : PricingContext)
  (a b : PricingRule) :
  In a pricingRules -> In b pricingRules ->
  rule_id a <> rule_id b ->
  rule_priority a == rule_priority b ->
  rule_condition a context = true ->
  rule_condition b context = true ->
  False.
Proof.
  intros Ha Hb Hne Hprio Hca Hcb.
  unfold pricingRules in Ha, Hb. simpl in Ha, Hb.
  repeat (destruct Ha as [<-|Ha]); try contradiction;
    repeat (destruct Hb as [<-|Hb]); try contradiction;
    try (apply Hne; reflexivity);
    try (vm_compute in Hprio; discriminate Hprio);
    cbn [rule_condition enterprise_tier_discount startup_tier_discount
           region_pricing_us_west region_pricing_eu region_pricing_apac]
      in Hca, Hcb;
    decide_conditions.
Qed.

Lemma NoDup_map_filter {A B : Type} (f : A -> B) (keep : A -> bool) (l : list A) :
  NoDup (map f l) -> NoDup (map f (filter keep l)).
Proof.
  induction l as [|x l IH]; simpl; intros Hnd; [constructor|].
  inversion Hnd as [|? ? Hnotin Hnd']; subst.
  destruct (keep x); simpl; [|now apply IH].
  constructor; [|now apply IH].
  intros Hin. apply Hnotin. apply in_map_iff in Hin.
  destruct Hin as [y [Hy Hin]]. apply filter_In in Hin.
  apply in_map_iff. exists y. tauto.
Qed.

Lemma applicable_ids_distinct (context : PricingContext) :
  NoDup (map rule_id (getApplicableRules context)).
Proof.
  apply (Permutation_NoDup
           (l := map rule_id
                   (filter (fun rule => rule_condition rule context) pricingRules))).
  - apply Permutation_map, Permutation_sym, applicableRulesOf_perm.
  - apply NoDup_map_filter, rule_ids_distinct.
Qed.

(** X10. With the rules of the table, the applicable rules of any context
    have pairwise different priorities: they are in strictly ascending
    priority, so the order in which they are applied does not depend on how
    the sort treats equal priorities. *)
Theorem applicable_rules_strictly_ascending (context : PricingContext) :
  StronglySorted (fun a b => rule_priority a < rule_priority b)
    (getApplicableRules context).
Proof.
  pose proof (applicableRulesOf_sorted pricingRules context) as Hsorted.
  pose proof (applicable_ids_distinct context) as Hnd.
  assert (Hin : forall r, In r (getApplicableRules context) ->
                          In r pricingRules /\ rule_condition r context = true)
    by (intros r; apply applicableRulesOf_In).
  fold (getApplicableRules context) in Hsorted.
  induction Hsorted as [|a l Hl IH Hall]; [constructor|].
  simpl in Hnd. inversion Hnd as [|? ? Hnotin Hnd']; subst.
  constructor.
  - apply IH; [assumption|]. intros r Hr. apply Hin. now right.
  - rewrite Forall_forall in Hall |- *. intros b Hb.
    specialize (Hall b Hb). unfold byAscendingPriority in Hall.
    destruct (Hin a (or_introl eq_refl)) as [Ha Hca].
    destruct (Hin b (or_intror Hb)) as [Hb' Hcb].
    apply Qle_lteq in Hall. destruct Hall as [Hlt|Heq]; [exact Hlt|].
    exfalso. apply (same_priority_rules_exclusive context a b); try assumption.
    intros Hid. apply Hnotin. rewrite Hid. now apply in_map.
Qed.

Lemma recordsFrom_In (context : PricingContext) (rules : list PricingRule)
  (price : number) (record : AppliedRule) :
  In record (recordsFrom context price rules) ->
  exists before rule after,
    rules = before ++ rule :: after
    /\ record
       = {| ruleId := rule_id rule; ruleName := rule_name rule;
            discountAmount :=
              priceAfter context before price
              - rule_apply rule (priceAfter context before price) context |}
    /\ ~ priceAfter context before price
         - rule_apply rule (priceAfter context before price) context == 0.
Proof.
  revert price. induction rules as [|rule rules IH]; intros price Hin;
    [destruct Hin|].
  simpl in Hin. apply in_app_or in Hin. destruct Hin as [Hin|Hin].
  - destruct (Qeq_bool (price - rule_apply rule price context) 0) eqn:E;
      [destruct Hin|].
    destruct Hin as [<-|[]]. exists [], rule, rules.
    split; [reflexivity|]. split; [reflexivity|]. now apply Qeq_bool_neq.
  - destruct (IH _ Hin) as [before [r [after [-> [-> Hnz]]]]].
    exists (rule :: before), r, after.
    split; [reflexivity|]. split; [reflexivity | exact Hnz].
Qed.

(** X11. Every applied-rule record the engine returns comes from one of the
    rules it ran, a rule of the table whose condition holds in the context:
    the record carries the id and the name of that rule, and its discount
    amount, which is not zero, is the price the engine held when it reached
    the rule, after the rules before it, minus the price the rule
    returned. *)
Theorem applied_records_are_real_changes
  (basePrice : number) (context : PricingContext) (record : AppliedRule) :
  In record (appliedRules (applyPricingRules basePrice context)) ->
  exists before rule after,
    getApplicableRules context = before ++ rule :: after
    /\ In rule pricingRules
    /\ rule_condition rule context = true
    /\ ruleId record = rule_id rule
    /\ ruleName record = rule_name rule
    /\ discountAmount record
       = priceAfter context before basePrice
         - rule_apply rule (priceAfter context before basePrice) context
    /\ ~ discountAmount record == 0.
Proof.
  unfold applyPricingRules. rewrite applyRules_spec. simpl. intros Hin.
  apply recordsFrom_In in Hin.
  destruct Hin as [before [rule [after [Hsplit [-> Hnz]]]]].
  exists before, rule, after. split; [exact Hsplit|].
  assert (Hrule : In rule (getApplicableRules context)).
  { rewrite Hsplit. apply in_or_app. right. now left. }
  apply applicableRulesOf_In in Hrule. destruct Hrule as [Htable Hcond].
  repeat split; assumption.
Qed.

(** X11 on the catalog: five basic servers for an enterprise customer; the
    record of the 10% volume discount holds the difference taken at the
    enterprise price. *)
Lemma applied_records_are_real_changes_witness :
  exists before rule after,
    getApplicableRules (basicContext 5 (Some "enterprise") None)
    = before ++ rule :: after
    /\ In rule pricingRules
    /\ rule_condition rule (basicContext 5 (Some "enterprise") None) = true
    /\ "volume-discount-10-percent" = rule_id rule
    /\ "Volume Discount - 10%" = rule_name rule
    /\ 250 * 0.85 - 250 * 0.85 * 0.9
       = priceAfter (basicContext 5 (Some "enterprise") None) before 250
         - rule_apply rule
             (priceAfter (basicContext 5 (Some "enterprise") None) before 250)
             (basicContext 5 (Some "enterprise") None)
    /\ ~ 250 * 0.85 - 250 * 0.85 * 0.9 == 0.
Proof.
  apply (applied_records_are_real_changes 250
           (basicContext 5 (Some "enterprise") None)
           {| ruleId := "volume-discount-10-percent";
              ruleName := "Volume Discount - 10%";
              discountAmount := 250 * 0.85 - 250 * 0.85 * 0.9 |}).
  right. left. reflexivity.
Defined.

Section Binary64UsWest.
Local Open Scope float_scope.

(** X12. The rule region-pricing-us-west returns the price it receives.
    In the engine on binary64 numbers it therefore leaves no record when
    the price that reaches it is finite, and is recorded, with a discount
    amount of NaN, when that price is infinite or NaN. *)
Theorem us_west_recorded_only_off_finite_prices
  (basePrice : Binary64.number) (context : Binary64.PricingContext)
  (before after : list Binary64.PricingRule) :
  Binary64.getApplicableRules context
  = before ++ Binary64.region_pricing_us_west :: after ->
  let state := fold_left (Binary64.applyRule context) before (basePrice, []) in
  let currentPrice := fst state in
  let record :=
    if is_finite currentPrice then []
    else [ {| Binary64.ruleId := "region-pricing-us-west";
              Binary64.ruleName := "US West Region Standard Pricing";
              Binary64.discountAmount := nan |} ] in
  fold_left (Binary64.applyRule context)
    (before ++ [Binary64.region_pricing_us_west]) (basePrice, [])
  = (currentPrice, snd state ++ record)
  /\ exists later,
       Binary64.appliedRules (Binary64.applyPricingRules basePrice context)
       = snd state ++ record ++ later.
Proof.
  intros Hsplit. cbv zeta.
  pose proof (engine_reaches_rule basePrice context before after
                Binary64.region_pricing_us_west Hsplit) as Hreach.
  cbv zeta in Hreach. cbn [Binary64.rule_apply Binary64.region_pricing_us_west] in Hreach.
  set (currentPrice :=
         fst (fold_left (Binary64.applyRule context) before (basePrice, []))) in *.
  assert (Hrecord :
    Binary64.recordOf Binary64.region_pricing_us_west currentPrice currentPrice
    = if is_finite currentPrice then []
      else [ {| Binary64.ruleId := "region-pricing-us-west";
                Binary64.ruleName := "US West Region Standard Pricing";
                Binary64.discountAmount := nan |} ]).
  { unfold Binary64.recordOf. destruct (is_finite currentPrice) eqn:Hfin.
    - rewrite finite_difference_zero; [reflexivity | exact Hfin |].
      revert Hfin. unfold is_finite, is_nan.
      destruct (currentPrice =? currentPrice); [reflexivity | discriminate].
    - rewrite (non_finite_difference_nonzero _ _ Hfin).
      now rewrite (non_finite_difference_nan _ Hfin). }
  rewrite Hrecord in Hreach. exact Hreach.
Qed.

(** X12 on the catalog: basic servers in the US West region, at a quantity
    of 1e308 the schema accepts; the price of the item is infinite, and both
    rules reached are recorded. *)
Lemma us_west_recorded_only_off_finite_prices_witness :
  fold_left
    (Binary64.applyRule
       (contextOnBinary64 cloud_server_basic 1e308 None (Some "us-west") None))
    ([Binary64.volume_discount_20_percent] ++ [Binary64.region_pricing_us_west])
    ((50 + 0) * 1e308, [])
  = (infinity,
     [ {| Binary64.ruleId := "volume-discount-20-percent";
          Binary64.ruleName := "Volume Discount - 20%";
          Binary64.discountAmount := nan |} ]
       ++ [ {| Binary64.ruleId := "region-pricing-us-west";
               Binary64.ruleName := "US West Region Standard Pricing";
               Binary64.discountAmount := nan |} ]).
Proof.
  exact (proj1 (us_west_recorded_only_off_finite_prices ((50 + 0) * 1e308)
           (contextOnBinary64 cloud_server_basic 1e308 None (Some "us-west") None)
           [Binary64.volume_discount_20_percent] [] eq_refl)).
Defined.

(** A finite price in the US West region: no record. *)
Example us_west_at_a_finite_price :
  Binary64.applyPricingRules 50
    (contextOnBinary64 cloud_server_basic 1 None (Some "us-west") None)
  = {| Binary64.finalPrice := 50; Binary64.appliedRules := [] |}.
Proof. reflexivity. Qed.

End Binary64UsWest.

(** ** More on pricing and quoting *)

Lemma mapM_first_error {A B : Type} (f : A -> Result B) (l : list A) (m : string) :
  mapM f l = Error m ->
  exists before x after,
    l = before ++ x :: after
    /\ (forall y, In y before -> exists z, f y = Ok z)
    /\ f x = Error m.
Proof.
  induction l as [|x l IH]; simpl; intros H; [discriminate|].
  destruct (f x) as [y|m'] eqn:Hx; simpl in H.
  - destruct (mapM f l) as [ys|m'']; simpl in H; [discriminate|].
    injection H as ->.
    destruct (IH eq_refl) as [before [x' [after [-> [Hbefore Hx']]]]].
    exists (x :: before), x', after. split; [reflexivity|]. split; [|exact Hx'].
    intros z [<-|Hz]; [now exists y | now apply Hbefore].
  - injection H as ->. exists [], x, l. split; [reflexivity|].
    split; [intros z [] | exact Hx].
Qed.

Lemma calculatePrice_unknown (c : ConfigurationItem)
  (all : list ConfigurationItem) (tier reg : option string)
  (fields : option JsObject) :
  getProductById (productId c) = None ->
  calculatePrice c all tier reg fields = Error (notFoundMessage (productId c)).
Proof. intros H. unfold calculatePrice. now rewrite H. Qed.

(** X13. [calculateTotalPrice] fails exactly when some item names a
    product that the catalog does not have, with the "not found" message of
    the first such item; otherwise it prices every item, in order. *)
Theorem total_price_fails_on_first_unknown_product
  (configurations : list ConfigurationItem) (tier reg : option string)
  (fields : option JsObject) :
  match calculateTotalPrice configurations tier reg fields with
  | Ok pricing =>
      (forall c, In c configurations ->
                 exists p, getProductById (productId c) = Some p)
      /\ map item_productId (items pricing) = map productId configurations
  | Error msg =>
      exists before c after,
        configurations = before ++ c :: after
        /\ (forall c', In c' before ->
                       exists p, getProductById (productId c') = Some p)
        /\ getProductById (productId c) = None
        /\ msg = ("Product '" ++ productId c ++ "' not found")%string
  end.
Proof.
  unfold calculateTotalPrice.
  set (priceItem := fun config : ConfigurationItem => _).
  assert (Hitem : forall c,
             match getProductById (productId c) with
             | Some _ => exists priced,
                 priceItem c = Ok priced /\ item_productId priced = productId c
             | None => priceItem c = Error (notFoundMessage (productId c))
             end).
  { intros c. unfold priceItem.
    destruct (getProductById (productId c)) as [p|] eqn:Hp.
    - destruct (calculatePrice_known c p configurations tier reg fields Hp)
        as [basePrice [_ ->]].
      eexists. split; reflexivity.
    - now rewrite calculatePrice_unknown. }
  clearbody priceItem.
  destruct (mapM priceItem configurations) as [priced|m] eqn:Hrun; cbn [bind].
  - apply mapM_Forall2 in Hrun. cbn [items].
    induction Hrun as [|c item l l' Hc _ IH]; [split; [intros c []|reflexivity]|].
    destruct IH as [IHknown IHids]. specialize (Hitem c).
    destruct (getProductById (productId c)) as [p|] eqn:Hp.
    + destruct Hitem as [priced' [Hpriced Hid]].
      rewrite Hc in Hpriced. injection Hpriced as <-. split.
      * intros c' [<-|Hin]; [now exists p | now apply IHknown].
      * simpl. now rewrite Hid, IHids.
    + rewrite Hc in Hitem. discriminate.
  - apply mapM_first_error in Hrun.
    destruct Hrun as [before [c [after [-> [Hbefore Hc]]]]].
    exists before, c, after. split; [reflexivity|].
    assert (Hknown : forall c', (exists z, priceItem c' = Ok z) ->
                                exists p, getProductById (productId c') = Some p).
    { intros c' [z Hz]. specialize (Hitem c').
      destruct (getProductById (productId c')) as [p|]; [now exists p|].
      rewrite Hz in Hitem. discriminate. }
    split; [intros c' Hc'; apply Hknown, Hbefore, Hc'|].
    specialize (Hitem c).
    destruct (getProductById (productId c)) as [p|].
    + destruct Hitem as [priced [Hpriced _]]. rewrite Hc in Hpriced. discriminate.
    + rewrite Hc in Hitem. injection Hitem as ->. split; reflexivity.
Qed.

Lemma Math_max_lower (x : number) : 0 <= Math_max 0 x.
Proof.
  unfold Math_max. destruct (Qle_bool 0 x) eqn:E;
    [now apply Qle_bool_iff | apply Qle_refl].
Qed.

Lemma sum_nonneg (l : list number) (start : number) :
  0 <= start -> (forall x, In x l -> 0 <= x) -> 0 <= fold_left Qplus l start.
Proof.
  revert start. induction l as [|x l IH]; intros start Hstart Hall; simpl;
    [assumption|].
  apply IH; [|intros y Hy; apply Hall; now right].
  specialize (Hall x (or_introl eq_refl)). unfold number in *. lra.
Qed.

Lemma round2_nonneg (x : number) : 0 <= x -> 0 <= round2 x.
Proof.
  intros Hx. unfold round2, Math_round.
  assert (Hfloor : (0 <= Qfloor (x * 100 + (1 # 2)))%Z).
  { change 0%Z with (Qfloor 0). apply Qfloor_resp_le. unfold number in *. lra. }
  apply Qle_shift_div_l; [reflexivity|]. rewrite Qmult_0_l.
  change 0 with (inject_Z 0). now rewrite <- Zle_Qle.
Qed.

Lemma totalPrice_items_nonneg (configurations : list ConfigurationItem)
  (tier reg : option string) (fields : option JsObject) (pricing : TotalPrice) :
  calculateTotalPrice configurations tier reg fields = Ok pricing ->
  forall priced, In priced (items pricing) -> 0 <= item_finalPrice priced.
Proof.
  unfold calculateTotalPrice.
  set (priceItem := fun config : ConfigurationItem => _).
  assert (Hitem : forall c priced,
             priceItem c = Ok priced -> 0 <= item_finalPrice priced).
  { intros c priced Hc. unfold priceItem, calculatePrice in Hc.
    destruct (getProductById (productId c)) as [p|]; [|discriminate].
    destruct (calculateBasePrice c) as [basePrice|]; [|discriminate].
    cbn [bind] in Hc. injection Hc as <-. cbn [item_finalPrice price_finalPrice].
    unfold applyPricingRules, applyRules. cbn [finalPrice]. apply Math_max_lower. }
  clearbody priceItem.
  destruct (mapM priceItem configurations) as [priced|m] eqn:Hrun; cbn [bind];
    [|discriminate].
  intros H. injection H as <-. cbn [items].
  apply mapM_Forall2 in Hrun.
  induction Hrun as [|c priced0 l l' Hc _ IH]; [intros priced' []|].
  intros priced' [<-|Hin]; [now apply (Hitem c) | now apply IH].
Qed.

(** X14. In every quote that [generateQuote] returns, no line total is
    negative and neither is the pre-tax total; without a tax rate, or with
    a rate that is not negative, the total is not negative either. *)
Theorem quote_amounts_not_negative (uuid now : string)
  (configurations : list ConfigurationItem) (tier reg : option string)
  (fields : option JsObject) (taxRate : option number) (q : Quote) :
  generateQuote uuid now configurations tier reg fields taxRate = Ok q ->
  (forall line, In line (quote_lineItems q) -> 0 <= line_total line)
  /\ 0 <= preTaxTotalOf q
  /\ match taxRate with
     | Some rate => 0 <= rate -> 0 <= quote_total q
     | None => 0 <= quote_total q
     end.
Proof.
  intros Hq.
  destruct (preTaxTotalOf_quote _ _ _ _ _ _ _ _ Hq) as [_ Htotal].
  destruct (generateQuote_inv _ _ _ _ _ _ _ _ Hq)
    as [_ [pricing [lineItems [Hpricing [Hlines Hquote]]]]].
  pose proof (totalPrice_items_nonneg _ _ _ _ _ Hpricing) as Hitems.
  pose proof (calculateTotalPrice_length _ _ _ _ _ Hpricing) as Hlen.
  destruct (lineItems_totals pricing configurations lineItems Hlen Hlines)
    as [Htotals _].
  assert (Hlinetotals : forall x, In x (map line_total (quote_lineItems q)) ->
                                  0 <= x).
  { rewrite Hquote. cbn [quote_lineItems]. rewrite Htotals.
    intros x Hx. apply in_map_iff in Hx. destruct Hx as [priced [<- Hin]].
    now apply Hitems. }
  assert (Hpre : 0 <= preTaxTotalOf q).
  { unfold preTaxTotalOf. rewrite (fold_sum_map line_total).
    apply sum_nonneg; [apply Qle_refl | exact Hlinetotals]. }
  split; [|split; [exact Hpre|]].
  - intros line Hline. apply Hlinetotals. now apply in_map.
  - rewrite Htotal. destruct taxRate as [rate|]; cbn [taxOf totalOf];
      [|now apply round2_nonneg].
    intros Hrate. destruct (truthy rate); cbn [totalOf];
      [|now apply round2_nonneg].
    destruct (truthy (preTaxTotalOf q * rate)); apply round2_nonneg;
      [|exact Hpre].
    assert (0 <= preTaxTotalOf q * rate) by (now apply Qmult_le_0_compat).
    unfold number in *. lra.
Qed.

Lemma quote_amounts_not_negative_witness :
  exists q,
    generateQuote "id" "now" [item "cloud-server-basic" [] 1] None None None
      (Some 0.1) = Ok q
    /\ 0 <= preTaxTotalOf q
    /\ 0 <= quote_total q.
Proof.
  destruct (generateQuote "id" "now" [item "cloud-server-basic" [] 1]
              None None None (Some 0.1)) as [q|m] eqn:Hq;
    [|vm_compute in Hq; discriminate Hq].
  exists q. split; [reflexivity|].
  destruct (quote_amounts_not_negative _ _ _ _ _ _ _ _ Hq) as [_ [Hpre Htotal]].
  split; [exact Hpre|]. apply Htotal. unfold number. lra.
Defined.

Lemma obj_get_set (o : JsObject) (k k' : string) (v : JsValue) :
  obj_get (obj_set o k v) k' = if String.eqb k k' then Some v else obj_get o k'.
Proof.
  unfold obj_get. induction o as [|[k0 v0] o IH]; simpl.
  - now destruct (String.eqb k k').
  - destruct (String.eqb_spec k0 k) as [->|Hne]; simpl.
    + now destruct (String.eqb k k').
    + destruct (String.eqb_spec k0 k') as [->|Hne'].
      * destruct (String.eqb_spec k k') as [->|_]; [contradiction | reflexivity].
      * exact IH.
Qed.

Lemma obj_get_spread (src o : JsObject) (k : string) :
  (forall v, In (k, v) src -> NoDup (map fst src) ->
             obj_get (obj_spread o src) k = Some v)
  /\ (~ In k (map fst src) -> obj_get (obj_spread o src) k = obj_get o k).
Proof.
  unfold obj_spread. revert o. induction src as [|[k0 v0] src IH]; intros o.
  - split; [intros v [] | reflexivity].
  - simpl. destruct (IH (obj_set o k0 v0)) as [IHin IHout]. split.
    + intros v [Heq|Hin] Hnd; inversion Hnd as [|? ? Hnotin Hnd']; subst.
      * injection Heq as -> ->. rewrite IHout by assumption.
        now rewrite obj_get_set, String.eqb_refl.
      * now apply IHin.
    + intros Hout. rewrite IHout by tauto. rewrite obj_get_set.
      destruct (String.eqb_spec k0 k) as [->|_]; [|reflexivity].
      exfalso. apply Hout. now left.
Qed.

(** X15. In the metadata of a quote the custom fields come last: a custom
    field is echoed under its key with its value, also under the keys
    customerTier, region and taxRate, where it replaces the argument of
    that name; a key that is not a custom field keeps the echoed argument. *)
Theorem custom_fields_shadow_metadata (uuid now : string)
  (configurations : list ConfigurationItem) (tier reg : option string)
  (fields : JsObject) (taxRate : option number) (q : Quote)
  (k : string) :
  generateQuote uuid now configurations tier reg (Some fields) taxRate = Ok q ->
  NoDup (map fst fields) ->
  (forall v, In (k, v) fields -> obj_get (quote_metadata q) k = Some v)
  /\ (~ In k (map fst fields) ->
      obj_get (quote_metadata q) k
      = obj_get [ ("customerTier", optStr tier); ("region", optStr reg);
                  ("taxRate", optNum taxRate) ] k).
Proof.
  intros Hq Hnd.
  destruct (generateQuote_inv _ _ _ _ _ _ _ _ Hq)
    as [_ [pricing [lineItems [_ [_ ->]]]]].
  cbn [quote_metadata quoteMetadata].
  destruct (obj_get_spread fields
              [ ("customerTier", optStr tier); ("region", optStr reg);
                ("taxRate", optNum taxRate) ] k) as [Hin Hout].
  split; [intros v Hv; now apply Hin | exact Hout].
Qed.

Lemma custom_fields_shadow_metadata_witness :
  exists q,
    generateQuote "id" "now" [item "cloud-server-basic" [] 1] None
      (Some "eu-west") (Some [("region", JStr "mars"); ("note", JNull)]) None
    = Ok q
    /\ obj_get (quote_metadata q) "region" = Some (JStr "mars").
Proof.
  destruct (generateQuote "id" "now" [item "cloud-server-basic" [] 1] None
              (Some "eu-west") (Some [("region", JStr "mars"); ("note", JNull)])
              None) as [q|m] eqn:Hq;
    [|vm_compute in Hq; discriminate Hq].
  exists q. split; [reflexivity|].
  apply (proj1 (custom_fields_shadow_metadata _ _ _ _ _ _ _ q "region" Hq
                  ltac:(repeat constructor; simpl; intuition discriminate))).
  now left.
Defined.

(** ** The rules in their fixed order *)

Section SortFilter.
Context {A : Type}.
Variable key : A -> number.
Variable keep : A -> bool.

Let compare (a b : A) : number := key a - key b.
Let ascending (a b : A) : Prop := key a <= key b.

Lemma sortInsert_front (x : A) (l : list A) :
  Forall (ascending x) l -> sortInsert compare x l = x :: l.
Proof.
  destruct l as [|y l]; [reflexivity|]. intros H.
  inversion H as [|? ? Hxy _]; subst. simpl.
  assert (E : ltb 0 (compare x y) = false).
  { apply ltb_false. unfold compare, ascending in *. lra. }
  now rewrite E.
Qed.

Lemma filter_sortInsert (x : A) (l : list A) :
  StronglySorted ascending l ->
  filter keep (sortInsert compare x l)
  = if keep x then sortInsert compare x (filter keep l) else filter keep l.
Proof.
  induction 1 as [|y l Hsorted IH Hall].
  - simpl. now destruct (keep x).
  - simpl sortInsert. destruct (ltb 0 (compare x y)) eqn:E.
    + cbn [filter]. rewrite IH.
      destruct (keep x), (keep y); try reflexivity.
      simpl. now rewrite E.
    + cbn [filter]. destruct (keep x) eqn:Ex; [|reflexivity].
      rewrite sortInsert_front; [reflexivity|].
      apply ltb_false in E. unfold compare in E.
      assert (Hy : Forall (ascending x) (y :: l)).
      { constructor; [unfold ascending; lra|].
        rewrite Forall_forall in Hall |- *. intros z Hz.
        specialize (Hall z Hz). unfold ascending in *. lra. }
      rewrite Forall_forall in Hy |- *. intros z Hz. apply Hy.
      change (In z (filter keep (y :: l))) in Hz.
      apply filter_In in Hz. tauto.
Qed.

(** Sorting what is kept is keeping from what is sorted. *)
Lemma sort_filter (l : list A) :
  sort compare (filter keep l) = filter keep (sort compare l).
Proof.
  induction l as [|x l IH]; [reflexivity|].
  simpl sort. rewrite filter_sortInsert by apply sort_sorted.
  simpl. destruct (keep x); simpl; now rewrite IH.
Qed.
End SortFilter.

(** The rule table sorted by priority. *)
Lemma rules_in_priority_order :
  sort byPriority pricingRules
  = [ enterprise_tier_discount; startup_tier_discount;
      premium_support_bundle; volume_discount_20_percent;
      volume_discount_10_percent; professional_services_early_bird;
      bundle_discount_compute_database; region_pricing_us_west;
      region_pricing_eu; region_pricing_apac ].
Proof. reflexivity. Qed.

(** X16. The applicable rules of a context are the rules whose condition
    holds, taken from one fixed sequence: the two customer-tier discounts,
    the premium-support bundle, the 20% and the 10% volume discount, the
    early-bird discount, the compute and database bundle, and the three
    regional rules. *)
Theorem applicable_rules_follow_fixed_sequence (context : PricingContext) :
  getApplicableRules context
  = filter (fun rule => rule_condition rule context)
      [ enterprise_tier_discount; startup_tier_discount;
        premium_support_bundle; volume_discount_20_percent;
        volume_discount_10_percent; professional_services_early_bird;
        bundle_discount_compute_database; region_pricing_us_west;
        region_pricing_eu; region_pricing_apac ].
Proof.
  unfold getApplicableRules, applicableRulesOf.
  rewrite (sort_filter rule_priority).
  change (sort (fun a b => rule_priority a - rule_priority b) pricingRules)
    with (sort byPriority pricingRules).
  now rewrite rules_in_priority_order.
Qed.

(** ** Prices stay positive *)

Lemma priceAfter_filter_cons (context : PricingContext) (rule : PricingRule)
  (rules : list PricingRule) (price : number) :
  priceAfter context
    (filter (fun r => rule_condition r context) (rule :: rules)) price
  = priceAfter context (filter (fun r => rule_condition r context) rules)
      (if rule_condition rule context then rule_apply rule price context
       else price).
Proof. simpl. now destruct (rule_condition rule context). Qed.

(** One rule of the sequence, given a lower bound of the price before it. *)
Lemma stage (context : PricingContext) (rule : PricingRule)
  (rules : list PricingRule) (price low low' : number) :
  low <= price ->
  (rule_condition rule context = true ->
   forall y, low <= y -> low' <= rule_apply rule y context) ->
  low' <= low ->
  (forall price', low' <= price' ->
     0 < priceAfter context
           (filter (fun r => rule_condition r context) rules) price') ->
  0 < priceAfter context
        (filter (fun r => rule_condition r context) (rule :: rules)) price.
Proof.
  intros Hlow Hrule Hle Hrest. rewrite priceAfter_filter_cons. apply Hrest.
  destruct (rule_condition rule context).
  - now apply Hrule.
  - unfold number in *. lra.
Qed.

Lemma sum_lower_bound (l : list number) (start : number) :
  (forall x, In x l -> 0 <= x) ->
  start <= fold_left Qplus l start
  /\ forall x, In x l -> start + x <= fold_left Qplus l start.
Proof.
  revert start. induction l as [|y l IH]; intros start Hall; simpl.
  - split; [apply Qle_refl | intros x []].
  - assert (Hy : 0 <= y) by (apply Hall; now left).
    destruct (IH (start + y)) as [Hle Hin]; [intros z Hz; apply Hall; now right|].
    unfold number in *. split; [lra|].
    intros x [<-|Hx]; [lra|]. specialize (Hin x Hx).
    assert (0 <= x) by (apply Hall; now right). lra.
Qed.

Lemma foundOptions_In (p : Product) (selected : list string) (opt : ProductOption) :
  In opt (foundOptions p selected)
  <-> exists s, In s selected /\ findOption p s = Some opt.
Proof.
  unfold foundOptions. rewrite in_flat_map. split.
  - intros [s [Hs Hopt]]. exists s. split; [assumption|].
    destruct (findOption p s) as [o|]; [|destruct Hopt].
    destruct Hopt as [->|[]]. reflexivity.
  - intros [s [Hs Hopt]]. exists s. split; [assumption|].
    rewrite Hopt. now left.
Qed.

Lemma catalog_prices_not_negative (p : Product) (opt : ProductOption) :
  In p products -> In opt (product_options p) -> 0 <= option_price opt.
Proof.
  intros Hp Hopt. unfold products in Hp. simpl in Hp.
  repeat (destruct Hp as [<-|Hp]); try contradiction;
    simpl in Hopt;
    repeat (destruct Hopt as [<-|Hopt]); try contradiction;
    discriminate.
Qed.

(** The price of one unit: the product with the options found. *)
Lemma unit_price_lower_bound (p : Product) (selected : list string) :
  In p products ->
  product_basePrice p
  <= fold_left Qplus (map option_price (foundOptions p selected))
       (product_basePrice p)
  /\ forall s opt,
       In s selected -> findOption p s = Some opt ->
       product_basePrice p + option_price opt
       <= fold_left Qplus (map option_price (foundOptions p selected))
            (product_basePrice p).
Proof.
  intros Hp.
  destruct (sum_lower_bound (map option_price (foundOptions p selected))
              (product_basePrice p)) as [Hle Hin].
  { intros x Hx. apply in_map_iff in Hx. destruct Hx as [opt [<- Hopt]].
    apply foundOptions_In in Hopt. destruct Hopt as [s [_ Hfind]].
    apply find_some in Hfind. now apply (catalog_prices_not_negative p). }
  split; [exact Hle|]. intros s opt Hs Hfind. apply Hin.
  apply in_map, foundOptions_In. now exists s.
Qed.

Ltac next_stage low' :=
  match goal with
  | Hlow : ?low <= ?price
    |- 0 < priceAfter ?context (filter _ (?rule :: ?rules)) ?price =>
      apply (stage context rule rules price low low' Hlow);
      [ let Hc := fresh "Hc" in
        let y := fresh "y" in
        let Hy := fresh "Hy" in
        intros Hc y Hy; cbn in Hc |- *; try discriminate Hc;
        unfold number in *; try lra
      | unfold number in *; lra
      | clear Hlow; let x := fresh "price" in
        let Hx := fresh "Hlow" in intros x Hx ]
  end.

Ltac stage_using Hrule low' :=
  match goal with
  | Hlow : ?low <= ?price
    |- 0 < priceAfter ?context (filter _ (?rule :: ?rules)) ?price =>
      apply (stage context rule rules price low low' Hlow Hrule);
      [ unfold number in *; lra
      | clear Hlow; let x := fresh "price" in
        let Hx := fresh "Hlow" in intros x Hx ]
  end.

Ltac last_stage :=
  match goal with
  | Hlow : ?low <= ?price |- 0 < priceAfter _ (filter _ []) ?price =>
      cbn; unfold number in *; lra
  end.

(** The rule engine on a price that is at least [a]: [b] bounds the price
    after the premium-support bundle, [e] after the early-bird discount. *)
Lemma positive_from (context : PricingContext) (price a b e : number) :
  a <= price ->
  0 < e -> e <= 0.9 * (0.8 * b) -> b <= 0.75 * (0.85 * a) ->
  (rule_condition premium_support_bundle context = true ->
   forall y, 0.75 * (0.85 * a) <= y ->
             b <= rule_apply premium_support_bundle y context) ->
  (rule_condition professional_services_early_bird context = true ->
   forall y, 0.9 * (0.8 * b) <= y ->
             e <= rule_apply professional_services_early_bird y context) ->
  0 < priceAfter context (getApplicableRules context) price.
Proof.
  intros Hlow He Heb Hba Hpremium Hearly.
  unfold getApplicableRules, applicableRulesOf.
  rewrite (sort_filter rule_priority).
  change (sort (fun a b => rule_priority a - rule_priority b) pricingRules)
    with (sort byPriority pricingRules).
  rewrite rules_in_priority_order.
  unfold number in *.
  next_stage (0.85 * a).
  next_stage (0.75 * (0.85 * a)).
  stage_using Hpremium b.
  next_stage (0.8 * b).
  next_stage (0.9 * (0.8 * b)).
  stage_using Hearly e.
  next_stage (0.9 * e).
  next_stage (0.9 * e).
  next_stage (0.9 * e).
  next_stage (0.9 * e).
  last_stage.
Qed.

Lemma scale_lower_bound (unit q low : number) :
  0 <= low -> low <= unit -> 1 <= q -> low <= unit * q.
Proof.
  intros Hlow Hunit Hq.
  assert (H : 0 <= unit * (q - 1))
    by (apply Qmult_le_0_compat; unfold number in *; lra).
  assert (E : unit * q == unit + unit * (q - 1)) by ring.
  rewrite E. unfold number in *. lra.
Qed.

Lemma Math_max_positive (x : number) : 0 < x -> Math_max 0 x = x.
Proof.
  intros Hpos. unfold Math_max. destruct (Qle_bool 0 x) eqn:E; [reflexivity|].
  apply Qlt_le_weak, Qle_bool_iff in Hpos. congruence.
Qed.

(** With a product of the catalog and a quantity of at least 1, the rules
    leave a positive price. *)
Lemma catalog_rules_leave_positive (c : ConfigurationItem)
  (all : list ConfigurationItem) (tier reg : option string)
  (fields : option JsObject) (p : Product) (basePrice : number) :
  getProductById (productId c) = Some p ->
  calculateBasePrice c = Ok basePrice ->
  1 <= quantity c ->
  let context :=
    {| product := p; configuration := c; allConfigurations := all;
       customerTier := tier; region := reg; customFields := fields |} in
  0 < priceAfter context (getApplicableRules context) basePrice.
Proof.
  intros Hp Hbase Hq context.
  rewrite (calculateBasePrice_known c p Hp) in Hbase. injection Hbase as <-.
  apply find_by_key_sound in Hp. destruct Hp as [Hin _].
  destruct (unit_price_lower_bound p (selectedOptions c) Hin)
    as [Hunit Hoption].
  set (unit := fold_left Qplus _ _) in *.
  unfold products in Hin. simpl in Hin.
  destruct Hin as [<-|[<-|[<-|[<-|[]]]]].
  - apply (positive_from context _ 50 (0.75 * (0.85 * 50))
             (0.9 * (0.8 * (0.75 * (0.85 * 50))))).
    + apply scale_lower_bound; [discriminate | exact Hunit | exact Hq].
    + reflexivity.
    + apply Qle_refl.
    + apply Qle_refl.
    + intros _ y Hy. exact Hy.
    + intros Hc. discriminate Hc.
  - destruct (rule_condition premium_support_bundle context) eqn:Hpremium.
    + assert (Hsel : In "support-premium" (selectedOptions c)).
      { cbn in Hpremium. apply andb_true_iff in Hpremium.
        destruct Hpremium as [Hpremium _].
        apply andb_true_iff in Hpremium. destruct Hpremium as [_ Hpremium].
        now apply includes_In. }
      specialize (Hoption "support-premium" _ Hsel eq_refl).
      apply (positive_from context _ 350 (0.75 * (0.85 * 350) - 200)
               (0.9 * (0.8 * (0.75 * (0.85 * 350) - 200)))).
      * apply scale_lower_bound; [discriminate | exact Hoption | exact Hq].
      * reflexivity.
      * apply Qle_refl.
      * unfold number. lra.
      * intros _ y Hy. cbn. unfold number in *. lra.
      * intros Hc. discriminate Hc.
    + apply (positive_from context _ 150 (0.75 * (0.85 * 150))
               (0.9 * (0.8 * (0.75 * (0.85 * 150))))).
      * apply scale_lower_bound; [discriminate | exact Hunit | exact Hq].
      * reflexivity.
      * apply Qle_refl.
      * apply Qle_refl.
      * intros Hc. congruence.
      * intros Hc. discriminate Hc.
  - apply (positive_from context _ 80 (0.75 * (0.85 * 80))
             (0.9 * (0.8 * (0.75 * (0.85 * 80))))).
    + apply scale_lower_bound; [discriminate | exact Hunit | exact Hq].
    + reflexivity.
    + apply Qle_refl.
    + apply Qle_refl.
    + intros _ y Hy. exact Hy.
    + intros Hc. discriminate Hc.
  - apply (positive_from context _ 5000 (0.75 * (0.85 * 5000))
             (0.9 * (0.8 * (0.75 * (0.85 * 5000))) - 1000)).
    + apply scale_lower_bound; [discriminate | exact Hunit | exact Hq].
    + reflexivity.
    + unfold number. lra.
    + apply Qle_refl.
    + intros _ y Hy. exact Hy.
    + intros _ y Hy. cbn. unfold number in *. lra.
Qed.

(** X17. For a product of the catalog and a quantity of at least 1 the
    price the pricer returns is positive, whatever the selection, the
    sibling items, the tier, the region and the custom fields: the discounts
    never use up the price, and the floor at zero of the rule engine is not
    reached. *)
Theorem catalog_price_stays_positive (c : ConfigurationItem)
  (all : list ConfigurationItem) (tier reg : option string)
  (fields : option JsObject) (p : Product) :
  getProductById (productId c) = Some p ->
  1 <= quantity c ->
  exists priced,
    calculatePrice c all tier reg fields = Ok priced
    /\ 0 < price_finalPrice priced
    /\ price_finalPrice priced
       = priceAfter
           {| product := p; configuration := c; allConfigurations := all;
              customerTier := tier; region := reg; customFields := fields |}
           (getApplicableRules
              {| product := p; configuration := c; allConfigurations := all;
                 customerTier := tier; region := reg; customFields := fields |})
           (price_basePrice priced).
Proof.
  intros Hp Hq.
  destruct (calculatePrice_known c p all tier reg fields Hp)
    as [basePrice [Hbase Hprice]].
  rewrite Hprice. cbv zeta. eexists. split; [reflexivity|].
  cbn [price_finalPrice price_basePrice].
  unfold applyPricingRules. rewrite applyRules_spec. cbn [finalPrice].
  pose proof (catalog_rules_leave_positive c all tier reg fields p basePrice
                Hp Hbase Hq) as Hpos.
  cbv zeta in Hpos. rewrite (Math_max_positive _ Hpos).
  split; [exact Hpos | reflexivity].
Qed.

Lemma catalog_price_stays_positive_witness :
  exists priced,
    calculatePrice
      (item "cloud-server-pro" ["support-premium"] 1)
      [ item "cloud-server-pro" ["support-premium"] 1;
        item "database-managed-mysql" [] 1;
        item "professional-services" [] 1 ]
      (Some "startup") None None
    = Ok priced
    /\ 0 < price_finalPrice priced.
Proof.
  destruct (catalog_price_stays_positive
              (item "cloud-server-pro" ["support-premium"] 1)
              [ item "cloud-server-pro" ["support-premium"] 1;
                item "database-managed-mysql" [] 1;
                item "professional-services" [] 1 ]
              (Some "startup") None None cloud_server_pro eq_refl)
    as [priced [Hpriced [Hpos _]]].
  - discriminate.
  - exists priced. now split.
Defined.

(** ** Amounts that add up *)

Lemma sum_from (l : list Q) (start : Q) :
  fold_left Qplus l start == start + fold_left Qplus l 0.
Proof.
  revert start. induction l as [|x l IH]; intros start; simpl; [ring|].
  rewrite (IH (start + x)), (IH (0 + x)). ring.
Qed.

Lemma sum_pointwise (l l' : list Q) :
  Forall2 Qeq l l' -> fold_left Qplus l 0 == fold_left Qplus l' 0.
Proof.
  induction 1 as [|x y l l' Hxy _ IH]; simpl; [reflexivity|].
  rewrite (sum_from l (0 + x)), (sum_from l' (0 + y)), IH, Hxy. reflexivity.
Qed.

Lemma recordsFrom_sum (context : PricingContext) (rules : list PricingRule)
  (price : number) :
  fold_left Qplus (map discountAmount (recordsFrom context price rules)) 0
  == price - priceAfter context rules price.
Proof.
  revert price. induction rules as [|rule rules IH]; intros price.
  - simpl. unfold number in *. ring.
  - simpl. rewrite map_app, fold_left_app.
    rewrite sum_from, IH.
    destruct (Qeq_bool (price - rule_apply rule price context) 0) eqn:E; simpl.
    + apply Qeq_bool_iff in E. unfold number in *. lra.
    + unfold number in *. ring.
Qed.

(** X18. In exact arithmetic the discount amounts of the applied rules add
    up to the base price minus the price the rules arrive at, before the
    floor at zero. *)
Theorem applied_discounts_add_up (basePrice : number) (context : PricingContext) :
  fold_left Qplus
    (map discountAmount (appliedRules (applyPricingRules basePrice context))) 0
  == basePrice - priceAfter context (getApplicableRules context) basePrice.
Proof.
  unfold applyPricingRules. rewrite applyRules_spec. cbn [appliedRules].
  apply recordsFrom_sum.
Qed.

Lemma Forall2_nth_error {A B : Type} (R : A -> B -> Prop) (l : list A)
  (l' : list B) :
  Forall2 R l l' ->
  forall k x, nth_error l k = Some x ->
              exists y, nth_error l' k = Some y /\ R x y.
Proof.
  induction 1 as [|a b l l' Hab _ IH]; intros [|k] x Hk; try discriminate.
  - injection Hk as <-. now exists b.
  - now apply IH.
Qed.

Lemma Forall2_by_position {A B : Type} (R : A -> B -> Prop) (l : list A)
  (l' : list B) :
  List.length l = List.length l' ->
  (forall k x, nth_error l k = Some x ->
               exists y, nth_error l' k = Some y /\ R x y) ->
  Forall2 R l l'.
Proof.
  revert l'. induction l as [|x l IH]; intros [|y l'] Hlen H; try discriminate;
    [constructor|].
  constructor.
  - destruct (H 0%nat x eq_refl) as [z [Hz Hxz]]. injection Hz as <-. exact Hxz.
  - apply IH; [simpl in Hlen; congruence|]. intros k z Hk. apply (H (S k) z Hk).
Qed.

Lemma details_sum_from (details : list OptionDetail) (start : number) :
  fold_left (fun sum opt => sum + detail_price opt) details start
  == start + fold_left (fun sum opt => sum + detail_price opt) details 0.
Proof.
  rewrite !(fold_sum_map detail_price). apply sum_from.
Qed.

Lemma priceOr0_price (opt : ProductOption) : priceOr0 (Some opt) == option_price opt.
Proof.
  unfold priceOr0, truthy.
  destruct (Qeq_bool (option_price opt) 0) eqn:E; simpl; [|reflexivity].
  apply Qeq_bool_iff in E. now rewrite E.
Qed.

(** The options total of a line item is what the configurator adds to the
    price of the product. *)
Lemma details_total (p : Product) (selected : list string) (base : number) :
  addOptionPrices p selected base
  == base
     + fold_left (fun sum opt => sum + detail_price opt)
         (selectedOptionsDetails p selected) 0.
Proof.
  unfold addOptionPrices, selectedOptionsDetails. revert base.
  induction selected as [|s l IH]; intros base.
  - simpl. unfold number in *. ring.
  - cbn [map fold_left detail_price].
    rewrite IH, (details_sum_from _ (0 + priceOr0 (findOption p s))).
    destruct (findOption p s) as [opt|].
    + rewrite priceOr0_price. unfold number in *. ring.
    + cbn [priceOr0]. unfold number in *. ring.
Qed.

Lemma calculateTotalPrice_items (configurations : list ConfigurationItem)
  (tier reg : option string) (fields : option JsObject) (pricing : TotalPrice) :
  calculateTotalPrice configurations tier reg fields = Ok pricing ->
  Forall2
    (fun c priced =>
       exists price,
         calculatePrice c configurations tier reg fields = Ok price
         /\ priced = {| item_productId := productId c;
                        item_basePrice := price_basePrice price;
                        item_finalPrice := price_finalPrice price;
                        item_appliedRules := price_appliedRules price |})
    configurations (items pricing).
Proof.
  unfold calculateTotalPrice.
  set (priceItem := fun config : ConfigurationItem => _).
  destruct (mapM priceItem configurations) as [priced|m] eqn:Hrun; cbn [bind];
    [|discriminate].
  intros H. injection H as <-. cbn [items].
  apply mapM_Forall2 in Hrun.
  eapply Forall2_impl; [|exact Hrun].
  intros c item Hc. unfold priceItem in Hc.
  destruct (calculatePrice c configurations tier reg fields) as [price|];
    [|discriminate].
  cbn [bind] in Hc. injection Hc as <-. now exists price.
Qed.

(** The lines of a quote, item by item. *)
Lemma quote_lines_built (uuid now : string)
  (configurations : list ConfigurationItem) (tier reg : option string)
  (fields : option JsObject) (taxRate : option number) (q : Quote) :
  generateQuote uuid now configurations tier reg fields taxRate = Ok q ->
  Forall2 (lineBuiltFrom configurations tier reg fields)
    configurations (quote_lineItems q).
Proof.
  intros Hq.
  destruct (generateQuote_inv _ _ _ _ _ _ _ _ Hq)
    as [_ [pricing [lineItems [Hpricing [Hlines ->]]]]].
  cbn [quote_lineItems].
  pose proof (calculateTotalPrice_items _ _ _ _ _ Hpricing) as Hitems.
  destruct (mapiM_Forall2 _ _ _ _ Hlines) as [Hlen Hnth].
  apply Forall2_by_position; [congruence|].
  intros k c Hc. destruct (Hnth k c Hc) as [line [Hline Hbuild]].
  exists line. split; [exact Hline|].
  destruct (Forall2_nth_error _ _ _ Hitems k c Hc)
    as [priced [Hpriced [price [Hprice ->]]]].
  simpl in Hbuild. unfold buildLineItem in Hbuild.
  destruct (getProductById (productId c)) as [p|] eqn:Hp; [|discriminate].
  rewrite Hpriced in Hbuild. injection Hbuild as <-.
  exists p, price.
  split; [exact Hp|]. split; [exact Hprice|].
  cbn [line_productId line_productName line_quantity line_basePrice
         line_selectedOptions line_subtotal line_total line_discounts
         item_finalPrice item_appliedRules].
  do 5 (split; [reflexivity|]).
  split; [|split; reflexivity].
  destruct (calculatePrice_known c p configurations tier reg fields Hp)
    as [basePrice [Hbase Hprice']].
  rewrite Hprice in Hprice'. cbv zeta in Hprice'. injection Hprice' as ->.
  cbn [price_basePrice].
  unfold calculateBasePrice in Hbase. rewrite Hp in Hbase.
  injection Hbase as <-.
  now rewrite details_total.
Qed.

(** X19. A quote has one line for each configuration item, and the line at
    a position is the line of the item at that position: it carries the id
    and the quantity of the item, the name and the base price of its
    product, the details of the selected options, the base price of the
    pricer as subtotal (in exact arithmetic), the final price of the pricer
    as total, and one discount for each applied rule. *)
Theorem quote_lines_follow_configurations (uuid now : string)
  (configurations : list ConfigurationItem) (tier reg : option string)
  (fields : option JsObject) (taxRate : option number) (q : Quote) :
  generateQuote uuid now configurations tier reg fields taxRate = Ok q ->
  List.length (quote_lineItems q) = List.length configurations
  /\ forall k c,
       nth_error configurations k = Some c ->
       exists line,
         nth_error (quote_lineItems q) k = Some line
         /\ lineBuiltFrom configurations tier reg fields c line.
Proof.
  intros Hq. pose proof (quote_lines_built _ _ _ _ _ _ _ _ Hq) as Hlines.
  split.
  - symmetry. apply (Forall2_length_eq _ _ _ Hlines).
  - apply (Forall2_nth_error _ _ _ Hlines).
Qed.

Lemma quote_lines_follow_configurations_witness :
  exists q,
    generateQuote "id" "now" [item "cloud-server-basic" ["ram-8gb"] 5]
      None None None None = Ok q
    /\ List.length (quote_lineItems q) = 1%nat
    /\ exists line,
         nth_error (quote_lineItems q) 0 = Some line
         /\ lineBuiltFrom [item "cloud-server-basic" ["ram-8gb"] 5] None None
              None (item "cloud-server-basic" ["ram-8gb"] 5) line.
Proof.
  destruct (generateQuote "id" "now" [item "cloud-server-basic" ["ram-8gb"] 5]
              None None None None) as [q|m] eqn:Hq;
    [|vm_compute in Hq; discriminate Hq].
  exists q. split; [reflexivity|].
  destruct (quote_lines_follow_configurations _ _ _ _ _ _ _ _ Hq)
    as [Hlen Hnth].
  split; [exact Hlen|]. apply (Hnth 0%nat). reflexivity.
Defined.

Lemma Forall2_joined {A B C : Type} (R : A -> B -> Prop) (S : A -> C -> Prop)
  (l : list A) (l1 : list B) (l2 : list C) :
  Forall2 R l l1 -> Forall2 S l l2 ->
  Forall2 (fun y z => exists x, In x l /\ R x y /\ S x z) l1 l2.
Proof.
  intros H1. revert l2. induction H1 as [|x y l l1 Hxy _ IH]; intros l2 H2;
    inversion H2 as [|? z ? l2' Hxz H2']; subst; constructor.
  - exists x. split; [now left | now split].
  - eapply Forall2_impl; [|apply IH; exact H2'].
    intros y' z' [x' [Hin H]]. exists x'. split; [now right | exact H].
Qed.

Lemma Forall2_map_Qeq {B C : Type} (R : B -> C -> Prop) (f : B -> Q) (g : C -> Q)
  (l1 : list B) (l2 : list C) :
  Forall2 R l1 l2 -> (forall y z, R y z -> f y == g z) ->
  Forall2 Qeq (map f l1) (map g l2).
Proof.
  induction 1 as [|y z l1 l2 Hyz _ IH]; intros Hfg; simpl; constructor.
  - now apply Hfg.
  - now apply IH.
Qed.

Lemma Forall2_In_r {A B : Type} (R : A -> B -> Prop) (l : list A) (l' : list B)
  (y : B) :
  Forall2 R l l' -> In y l' -> exists x, In x l /\ R x y.
Proof.
  induction 1 as [|a b l l' Hab _ IH]; intros Hin; [destruct Hin|].
  destruct Hin as [<-|Hin].
  - exists a. split; [now left | assumption].
  - destruct (IH Hin) as [x [Hx Hxy]]. exists x. split; [now right | assumption].
Qed.

(** X20. In exact arithmetic the totals of a quote agree with its lines:
    the subtotal is the sum of the line subtotals, and the subtotal minus
    the total discounts is the pre-tax total, the sum of the line totals. *)
Theorem quote_totals_agree_with_lines (uuid now : string)
  (configurations : list ConfigurationItem) (tier reg : option string)
  (fields : option JsObject) (taxRate : option number) (q : Quote) :
  generateQuote uuid now configurations tier reg fields taxRate = Ok q ->
  fold_left Qplus (map line_subtotal (quote_lineItems q)) 0 == quote_subtotal q
  /\ quote_subtotal q - quote_totalDiscounts q == preTaxTotalOf q.
Proof.
  intros Hq.
  pose proof (quote_lines_built _ _ _ _ _ _ _ _ Hq) as Hlines.
  destruct (generateQuote_inv _ _ _ _ _ _ _ _ Hq)
    as [_ [pricing [lineItems [Hpricing [Hbuilt Hquote]]]]].
  pose proof (calculateTotalPrice_items _ _ _ _ _ Hpricing) as Hitems.
  destruct (calculateTotalPrice_totals _ _ _ _ _ Hpricing)
    as [Hbase [Hfinal Hdiscount]].
  pose proof (calculateTotalPrice_length _ _ _ _ _ Hpricing) as Hlen.
  destruct (lineItems_totals pricing configurations lineItems Hlen Hbuilt)
    as [Htotals _].
  rewrite Hquote in *. cbn [quote_lineItems quote_subtotal quote_totalDiscounts]
    in *.
  split.
  - rewrite Hbase. apply sum_pointwise.
    apply (Forall2_map_Qeq _ _ _ _ _ (Forall2_joined _ _ _ _ _ Hlines Hitems)).
    intros line priced [c [_ [[p [price [_ [Hprice [_ [_ [_ [_ [_ [Hsub _]]]]]]]]]]
                              [price' [Hprice' ->]]]]].
    rewrite Hprice in Hprice'. injection Hprice' as <-. exact Hsub.
  - unfold preTaxTotalOf. cbn [quote_lineItems].
    rewrite (fold_sum_map line_total), Htotals, <- Hfinal, Hdiscount.
    unfold number in *. ring.
Qed.

Lemma quote_totals_agree_with_lines_witness :
  exists q,
    generateQuote "id" "now"
      [ item "cloud-server-basic" ["ram-8gb"] 5;
        item "database-managed-mysql" [] 1 ] None None None None = Ok q
    /\ fold_left Qplus (map line_subtotal (quote_lineItems q)) 0
       == quote_subtotal q
    /\ quote_subtotal q - quote_totalDiscounts q == preTaxTotalOf q.
Proof.
  destruct (generateQuote "id" "now"
              [ item "cloud-server-basic" ["ram-8gb"] 5;
                item "database-managed-mysql" [] 1 ] None None None None)
    as [q|m] eqn:Hq; [|vm_compute in Hq; discriminate Hq].
  exists q. split; [reflexivity|].
  exact (quote_totals_agree_with_lines _ _ _ _ _ _ _ _ Hq).
Defined.

(** X21. When every item of a quote has a quantity of at least 1, the
    discounts of each line add up, in exact arithmetic, to the subtotal of
    the line minus its total. *)
Theorem line_discounts_add_up (uuid now : string)
  (configurations : list ConfigurationItem) (tier reg : option string)
  (fields : option JsObject) (taxRate : option number) (q : Quote) :
  generateQuote uuid now configurations tier reg fields taxRate = Ok q ->
  (forall c, In c configurations -> 1 <= quantity c) ->
  forall line,
    In line (quote_lineItems q) ->
    fold_left Qplus (map discount_amount (line_discounts line)) 0
    == line_subtotal line - line_total line.
Proof.
  intros Hq Hquantity line Hline.
  pose proof (quote_lines_built _ _ _ _ _ _ _ _ Hq) as Hlines.
  destruct (Forall2_In_r _ _ _ _ Hlines Hline)
    as [c [Hc [p [priced [Hp [Hprice [_ [_ [_ [_ [_ [Hsub [Htotal Hdisc]]]]]]]]]]]]].
  destruct (calculatePrice_known c p configurations tier reg fields Hp)
    as [basePrice [Hbase Hprice']].
  rewrite Hprice in Hprice'. cbv zeta in Hprice'. injection Hprice' as ->.
  cbn [price_basePrice price_finalPrice price_appliedRules] in *.
  pose proof (catalog_rules_leave_positive c configurations tier reg fields p
                basePrice Hp Hbase (Hquantity c Hc)) as Hpos.
  cbv zeta in Hpos.
  rewrite Hdisc, Hsub, Htotal, map_map. cbn [discount_amount].
  rewrite !fold_applyRule. cbn [fst snd app].
  rewrite (Math_max_positive _ Hpos). apply recordsFrom_sum.
Qed.

Lemma line_discounts_add_up_witness :
  exists q,
    generateQuote "id" "now" [item "cloud-server-basic" ["ram-8gb"] 5]
      (Some "enterprise") None None None = Ok q
    /\ forall line,
         In line (quote_lineItems q) ->
         fold_left Qplus (map discount_amount (line_discounts line)) 0
         == line_subtotal line - line_total line.
Proof.
  destruct (generateQuote "id" "now" [item "cloud-server-basic" ["ram-8gb"] 5]
              (Some "enterprise") None None None) as [q|m] eqn:Hq;
    [|vm_compute in Hq; discriminate Hq].
  exists q. split; [reflexivity|].
  apply (line_discounts_add_up _ _ _ _ _ _ _ _ Hq).
  intros c [<-|[]]. discriminate.
Defined.

(** ** Further scenarios *)

(** A product with a required option: the missing required option is
    reported first, the unknown id after it. *)
Example missing_required_option_is_reported :
  let licence :=
    {| option_id := "licence"; option_name := "Licence";
       option_description := ""; option_price := 10;
       option_isRequired := true; option_category := None;
       option_dependencies := None; option_conflicts := None |} in
  let p :=
    {| product_id := "appliance"; product_name := "Appliance";
       product_description := ""; product_basePrice := 100;
       product_category := "hardware";
       product_options := [ram_8gb; licence];
       product_metadata := None |} in
  validateProduct p ["ram-8gb"; "ram-1tb"]
  = {| isValid := false;
       errors :=
         [ {| field := "selectedOptions";
              message := "Required option 'Licence' is not selected" |};
           {| field := "selectedOptions";
              message := "Invalid option 'ram-1tb' for product 'Appliance'" |} ];
       warnings := None |}
  /\ isValid (validateProduct p ["ram-8gb"; "licence"]) = true.
Proof. split; reflexivity. Qed.

(** A table in which two rules of priority 5 hold together: they run in
    their table order, whichever comes first, after no rule of a higher
    priority number. *)
Example equal_priorities_keep_table_order :
  let surcharge :=
    {| rule_id := "handling-surcharge"; rule_name := "Handling Surcharge";
       rule_description := ""; rule_type := fixed; rule_priority := 5;
       rule_condition := fun _ => true;
       rule_apply := fun price _ => price + 1 |} in
  let context := basicContext 5 (Some "enterprise") None in
  map rule_id
    (applicableRulesOf
       [volume_discount_10_percent; enterprise_tier_discount; surcharge] context)
  = ["enterprise-tier-discount"; "handling-surcharge";
     "volume-discount-10-percent"]
  /\ map rule_id
       (applicableRulesOf
          [volume_discount_10_percent; surcharge; enterprise_tier_discount]
          context)
     = ["handling-surcharge"; "enterprise-tier-discount";
        "volume-discount-10-percent"]
  /\ map ruleId
       (appliedRules
          (applyRules
             (applicableRulesOf
                [volume_discount_10_percent; surcharge; enterprise_tier_discount]
                context)
             250 context))
     = ["handling-surcharge"; "enterprise-tier-discount";
        "volume-discount-10-percent"].
Proof. repeat split; reflexivity. Qed.
